(** * A shallow embedding of [hooks/validate_csv.py]

    The validator of the repository is a Python class, [CSVValidator], whose
    methods mutate the fields of [self]; the hook's [main] wraps it.  The
    embedding below follows the source method by method: every method is a
    function from validator state to validator state, findings are appended to
    the two lists [errors] and [warnings] in emission order, and the fallible
    steps (decoding, parsing) return sums.

    Conventions.
    - A Python [str] is a list of Unicode code points ([N]); a [bytes] object
      is a list of [byte].
    - Python [float] arithmetic, which is used by three thresholds of the
      validator, is carried out over the rationals [Q].  Every quotient the
      source forms is a quotient of two machine-size integers, which IEEE
      division rounds correctly, and every comparison is against a constant
      ([0.4], [0.1], [0.5], [1]) or against another such score.
    - The standard library pieces the validator calls are embedded from their
      reference behaviour: [str] methods in [Py], codecs in [Codec], the
      [csv.reader] automaton in [Csv].  [csv.Sniffer], a heuristic the
      validator only falls back to, is a parameter [sniff] of the model. *)

From Stdlib Require Import List String Ascii Bool Arith NArith ZArith QArith.
From Stdlib Require Import Lia Lqa DecimalString.
From Stdlib.Strings Require Import Byte.
Import ListNotations.
Close Scope Q_scope.
Open Scope nat_scope.

Set Implicit Arguments.

(* ================================================================== *)
(** * Python built-ins used by the validator *)
(* ================================================================== *)

Module Py.

Definition char := N.
Definition str := list char.

(** A string literal of the source, as code points. *)
Definition of_string (s : string) : str :=
  map N_of_ascii (list_ascii_of_string s).

Definition NUL : char := 0%N.
Definition TAB : char := 9%N.
Definition LF : char := 10%N.
Definition VT : char := 11%N.
Definition FF : char := 12%N.
Definition CR : char := 13%N.
Definition SPACE : char := 32%N.
Definition QUOTE : char := 34%N.
Definition COMMA : char := 44%N.
Definition SEMICOLON : char := 59%N.
Definition PIPE : char := 124%N.
Definition NBSP : char := 160%N.
Definition LINE_SEP : char := 8232%N.
Definition PARA_SEP : char := 8233%N.
Definition BOM_CHAR : char := 65279%N.
Definition REPLACEMENT : char := 65533%N.

Fixpoint eqb_list {A} (eqb : A -> A -> bool) (a b : list A) : bool :=
  match a, b with
  | [], [] => true
  | x :: a', y :: b' => eqb x y && eqb_list eqb a' b'
  | _, _ => false
  end.

Definition str_eqb : str -> str -> bool := eqb_list N.eqb.

(** [x in l] for a list of strings. *)
Definition str_in (x : str) (l : list str) : bool := existsb (str_eqb x) l.

Definition between (lo hi c : N) : bool := (lo <=? c)%N && (c <=? hi)%N.

(** [str.isspace] on one code point: the code points CPython's
    [_PyUnicode_IsWhitespace] accepts. *)
Definition isspace (c : char) : bool :=
  between 9 13 c || between 28 32 c || (c =? 133)%N || (c =? 160)%N
  || (c =? 5760)%N || between 8192 8202 c || (c =? 8232)%N || (c =? 8233)%N
  || (c =? 8239)%N || (c =? 8287)%N || (c =? 12288)%N.

Fixpoint lstrip (s : str) : str :=
  match s with
  | [] => []
  | c :: r => if isspace c then lstrip r else s
  end.

Definition rstrip (s : str) : str := rev (lstrip (rev s)).

Definition strip (s : str) : str := lstrip (rstrip s).

(** [str.lower], on Basic Latin and the Latin-1 Supplement; other code points
    are left as they are. *)
Definition lower_char (c : char) : char :=
  if between 65 90 c then (c + 32)%N
  else if between 192 222 c && negb (c =? 215)%N then (c + 32)%N
  else c.

Definition lower (s : str) : str := map lower_char s.

(** [s.count(c)] and [c in s] for a one-character [c]. *)
Definition count_char (c : char) (s : str) : nat :=
  List.length (filter (N.eqb c) s).

Definition contains (c : char) (s : str) : bool := existsb (N.eqb c) s.

(** [s.count(ab)] for a two-character string [ab] (occurrences do not
    overlap), and [ab in s]. *)
Fixpoint count_pair (a b : char) (s : str) : nat :=
  match s with
  | x :: r =>
      match r with
      | y :: r' =>
          if (x =? a)%N && (y =? b)%N then S (count_pair a b r')
          else count_pair a b r
      | [] => 0
      end
  | [] => 0
  end.

Fixpoint contains_pair (a b : char) (s : str) : bool :=
  match s with
  | x :: r =>
      match r with
      | y :: _ => ((x =? a)%N && (y =? b)%N) || contains_pair a b r
      | [] => false
      end
  | [] => false
  end.

Definition startswith (p s : str) : bool := str_eqb (firstn (List.length p) s) p.

Definition endswith (p s : str) : bool :=
  str_eqb (skipn (List.length s - List.length p) s) p
  && (List.length p <=? List.length s).

(** [s.split(sep)] for a one-character separator: never the empty list. *)
Fixpoint split (sep : char) (s : str) : list str :=
  match s with
  | [] => [[]]
  | c :: r =>
      if (c =? sep)%N then [] :: split sep r
      else match split sep r with
           | p :: ps => (c :: p) :: ps
           | [] => [[c]]
           end
  end.

(** [sep.join(parts)]. *)
Fixpoint join (sep : str) (parts : list str) : str :=
  match parts with
  | [] => []
  | [p] => p
  | p :: ps => p ++ sep ++ join sep ps
  end.

(** The line boundaries of [str.splitlines]. *)
Definition is_linebreak (c : char) : bool :=
  between 10 13 c || between 28 30 c || (c =? 133)%N || (c =? 8232)%N
  || (c =? 8233)%N.

(** [s.splitlines(keepends=True)]: [CR LF] is one boundary. *)
Fixpoint splitlines (s : str) : list str :=
  match s with
  | [] => []
  | c :: r =>
      if is_linebreak c then
        match r with
        | d :: r' =>
            if (c =? CR)%N && (d =? LF)%N then [c; d] :: splitlines r'
            else [c] :: splitlines r
        | [] => [[c]]
        end
      else match splitlines r with
           | l :: ls => (c :: l) :: ls
           | [] => [[c]]
           end
  end.

(** Iterating [io.StringIO(s)]: lines end after each [LF] and at the end of
    the text; no newline translation takes place. *)
Fixpoint io_lines (s : str) : list str :=
  match s with
  | [] => []
  | c :: r =>
      if (c =? LF)%N then [c] :: io_lines r
      else match io_lines r with
           | l :: ls => (c :: l) :: ls
           | [] => [[c]]
           end
  end.

(** [s.replace(c, "")]. *)
Definition remove_char (c : char) (s : str) : str :=
  filter (fun x => negb (x =? c)%N) s.

(** [str(n)] for a non-negative [int]. *)
Definition str_of_nat (n : nat) : str :=
  of_string (NilZero.string_of_uint (Nat.to_uint n)).

(** [enumerate(l, start)]. *)
Fixpoint enumerate {A} (start : nat) (l : list A) : list (nat * A) :=
  match l with
  | [] => []
  | x :: r => (start, x) :: enumerate (S start) r
  end.

(** [collections.Counter(l)]: keys in first-occurrence order. *)
Fixpoint counter_add {A} (eqb : A -> A -> bool) (x : A) (c : list (A * nat))
  : list (A * nat) :=
  match c with
  | [] => [(x, 1)]
  | (y, n) :: r =>
      if eqb x y then (y, S n) :: r else (y, n) :: counter_add eqb x r
  end.

Definition Counter {A} (eqb : A -> A -> bool) (l : list A) : list (A * nat) :=
  fold_left (fun c x => counter_add eqb x c) l [].

(** [c.most_common(1)]: the first entry, in key order, of maximal count. *)
Definition most_common_1 {A} (c : list (A * nat)) : option (A * nat) :=
  fold_left
    (fun best kv =>
       match best with
       | None => Some kv
       | Some b => if snd b <? snd kv then Some kv else best
       end)
    c None.

(** A [dict] from keys to lists, built by [d.setdefault(k, []).append(v)]
    (spelt out in the source as a membership test and an append). *)
Fixpoint group_add {K V} (eqb : K -> K -> bool) (k : K) (v : V)
  (d : list (K * list V)) : list (K * list V) :=
  match d with
  | [] => [(k, [v])]
  | (k', vs) :: r =>
      if eqb k k' then (k', vs ++ [v]) :: r else (k', vs) :: group_add eqb k v r
  end.

(** [d[k] = v] on an insertion-ordered [dict]. *)
Fixpoint dict_set {K V} (eqb : K -> K -> bool) (k : K) (v : V)
  (d : list (K * V)) : list (K * V) :=
  match d with
  | [] => [(k, v)]
  | (k', v') :: r =>
      if eqb k k' then (k', v) :: r else (k', v') :: dict_set eqb k v r
  end.

Fixpoint dict_get {K V} (eqb : K -> K -> bool) (k : K) (d : list (K * V))
  : option V :=
  match d with
  | [] => None
  | (k', v) :: r => if eqb k k' then Some v else dict_get eqb k r
  end.

(** [set.add] on a set kept as a duplicate-free list. *)
Definition set_add (x : str) (s : list str) : list str :=
  if str_in x s then s else s ++ [x].

(** Rational arithmetic standing for [float]. *)
Definition Qnat (n : nat) : Q := inject_Z (Z.of_nat n).
Definition Qltb (a b : Q) : bool := negb (Qle_bool b a).
Definition Qsum (l : list Q) : Q := fold_left Qplus l 0%Q.

End Py.

(* ================================================================== *)
(** * Codecs: what [open(path, encoding=...).read()] decodes *)
(* ================================================================== *)

Module Codec.
Import Py.

(** The encoding names that [read_file] can try. *)
Inductive Encoding :=
| UTF_32_LE | UTF_32_BE | UTF_16_LE | UTF_16_BE | UTF_8_SIG
| UTF_8 | LATIN_1 | CP1252 | ISO_8859_1.

Definition name (e : Encoding) : string :=
  match e with
  | UTF_32_LE => "utf-32-le" | UTF_32_BE => "utf-32-be"
  | UTF_16_LE => "utf-16-le" | UTF_16_BE => "utf-16-be"
  | UTF_8_SIG => "utf-8-sig" | UTF_8 => "utf-8"
  | LATIN_1 => "latin-1" | CP1252 => "cp1252" | ISO_8859_1 => "iso-8859-1"
  end.

Definition bytes := list byte.

Definition ord (b : byte) : N := Byte.to_N b.

Definition is_cont (b : N) : bool := between 128 191 b.

(** The second byte of a three- and of a four-byte UTF-8 sequence: overlong
    forms, surrogates and code points above U+10FFFF are rejected. *)
Definition second_of_3 (b0 b1 : N) : bool :=
  if (b0 =? 224)%N then between 160 191 b1
  else if (b0 =? 237)%N then between 128 159 b1
  else is_cont b1.

Definition second_of_4 (b0 b1 : N) : bool :=
  if (b0 =? 240)%N then between 144 191 b1
  else if (b0 =? 244)%N then between 128 143 b1
  else is_cont b1.

(** Strict UTF-8. *)
Fixpoint utf8 (bs : list N) : option str :=
  match bs with
  | [] => Some []
  | b0 :: r =>
      if (b0 <? 128)%N then option_map (cons b0) (utf8 r)
      else if between 194 223 b0 then
        match r with
        | b1 :: r1 =>
            if is_cont b1
            then option_map (cons ((b0 - 192) * 64 + (b1 - 128))%N) (utf8 r1)
            else None
        | [] => None
        end
      else if between 224 239 b0 then
        match r with
        | b1 :: b2 :: r2 =>
            if second_of_3 b0 b1 && is_cont b2
            then option_map
                   (cons ((b0 - 224) * 4096 + (b1 - 128) * 64 + (b2 - 128))%N)
                   (utf8 r2)
            else None
        | _ => None
        end
      else if between 240 244 b0 then
        match r with
        | b1 :: b2 :: b3 :: r3 =>
            if second_of_4 b0 b1 && is_cont b2 && is_cont b3
            then option_map
                   (cons ((b0 - 240) * 262144 + (b1 - 128) * 4096
                          + (b2 - 128) * 64 + (b3 - 128))%N)
                   (utf8 r3)
            else None
        | _ => None
        end
      else None
  end.

(** [utf-8-sig], as its incremental decoder reads a whole file: fewer than
    three bytes that begin the BOM are held back as a possible BOM and give
    no text and no error; otherwise UTF-8 after one optional leading BOM. *)
Definition utf8_sig (bs : list N) : option str :=
  match bs with
  | [] => Some []
  | [239%N] => Some []
  | [239%N; 187%N] => Some []
  | 239%N :: 187%N :: 191%N :: r => utf8 r
  | _ => utf8 bs
  end.

(** The 16-bit code units of a byte string; an odd length is truncated data. *)
Fixpoint units16 (little : bool) (bs : list N) : option (list N) :=
  match bs with
  | [] => Some []
  | b0 :: r =>
      match r with
      | b1 :: r' =>
          option_map
            (cons (if little then b0 + 256 * b1 else 256 * b0 + b1)%N)
            (units16 little r')
      | [] => None
      end
  end.

(** Surrogate pairs are combined; a lone surrogate is an error. *)
Fixpoint combine16 (us : list N) : option str :=
  match us with
  | [] => Some []
  | u :: r =>
      if between 55296 56319 u then
        match r with
        | l :: r' =>
            if between 56320 57343 l
            then option_map
                   (cons (65536 + (u - 55296) * 1024 + (l - 56320))%N)
                   (combine16 r')
            else None
        | [] => None
        end
      else if between 56320 57343 u then None
      else option_map (cons u) (combine16 r)
  end.

Definition utf16 (little : bool) (bs : list N) : option str :=
  match units16 little bs with
  | Some us => combine16 us
  | None => None
  end.

(** UTF-32 with a given byte order: four bytes per code point, surrogates
    and values above U+10FFFF are errors. *)
Fixpoint utf32 (little : bool) (bs : list N) : option str :=
  match bs with
  | [] => Some []
  | b0 :: b1 :: b2 :: b3 :: r =>
      let c := (if little
                then b0 + 256 * b1 + 65536 * b2 + 16777216 * b3
                else 16777216 * b0 + 65536 * b1 + 256 * b2 + b3)%N in
      if (c <=? 1114111)%N && negb (between 55296 57343 c)
      then option_map (cons c) (utf32 little r)
      else None
  | _ => None
  end.

(** Windows-1252 on the bytes 0x80-0x9F; [0] marks the five undefined bytes. *)
Definition cp1252_high : list N :=
  [8364; 0; 8218; 402; 8222; 8230; 8224; 8225; 710; 8240; 352; 8249; 338; 0;
   381; 0; 0; 8216; 8217; 8220; 8221; 8226; 8211; 8212; 732; 8482; 353; 8250;
   339; 0; 382; 376]%N.

Definition cp1252_char (b : N) : option char :=
  if between 128 159 b then
    match nth_error cp1252_high (N.to_nat (b - 128)) with
    | Some 0%N => None
    | Some c => Some c
    | None => None
    end
  else Some b.

Fixpoint cp1252 (bs : list N) : option str :=
  match bs with
  | [] => Some []
  | b :: r =>
      match cp1252_char b with
      | Some c => option_map (cons c) (cp1252 r)
      | None => None
      end
  end.

(** Latin-1 maps every byte to the code point of the same value. *)
Definition latin1 (bs : list N) : str := bs.

(** [None] is [UnicodeDecodeError]. *)
Definition decode (e : Encoding) (data : bytes) : option str :=
  let bs := map ord data in
  match e with
  | UTF_32_LE => utf32 true bs
  | UTF_32_BE => utf32 false bs
  | UTF_16_LE => utf16 true bs
  | UTF_16_BE => utf16 false bs
  | UTF_8_SIG => utf8_sig bs
  | UTF_8 => utf8 bs
  | LATIN_1 | ISO_8859_1 => Some (latin1 bs)
  | CP1252 => cp1252 bs
  end.

End Codec.

(* ================================================================== *)
(** * [csv.reader]: the record automaton of the [_csv] module *)
(* ================================================================== *)

Module Csv.
Import Py.

(** The dialect attributes that vary between [csv.excel] with a detected
    delimiter and a dialect returned by the sniffer.  The others are fixed:
    no escape character, minimal quoting, not strict. *)
Record Dialect := {
  delimiter : char;
  quotechar : char;
  doublequote : bool;
  skipinitialspace : bool
}.

(** [csv.excel] with its delimiter replaced. *)
Definition excel (d : char) : Dialect :=
  {| delimiter := d; quotechar := QUOTE; doublequote := true;
     skipinitialspace := false |}.

Inductive ParserState :=
| START_RECORD | START_FIELD | IN_FIELD | IN_QUOTED_FIELD
| QUOTE_IN_QUOTED_FIELD | EAT_CRNL.

(** The two ways the automaton raises [csv.Error]. *)
Inductive Error := FieldLimit | NewlineInUnquotedField.

(** The automaton reads the characters of a line and then the end-of-line
    mark [EOL]. *)
Inductive Sym := Ch (c : char) | EOL.

Record Reader := {
  state : ParserState;
  field : str;
  fields : list str
}.

(** [csv.field_size_limit()], at its default. *)
Definition field_limit : N := 131072%N.

Definition parse_reset : Reader :=
  {| state := START_RECORD; field := []; fields := [] |}.

Definition set_state (s : ParserState) (r : Reader) : Reader :=
  {| state := s; field := field r; fields := fields r |}.

Definition parse_save_field (r : Reader) : Reader :=
  {| state := state r; field := []; fields := fields r ++ [field r] |}.

Definition parse_add_char (r : Reader) (c : char) : Reader + Error :=
  if (field_limit <=? N.of_nat (List.length (field r)))%N then inr FieldLimit
  else inl {| state := state r; field := field r ++ [c]; fields := fields r |}.

Definition is_newline (c : char) : bool := (c =? LF)%N || (c =? CR)%N.

(** The case [START_FIELD] of [parse_process_char]; [START_RECORD] falls
    through to it on an ordinary character. *)
Definition start_field (d : Dialect) (r : Reader) (c : Sym) : Reader + Error :=
  match c with
  | EOL => inl (set_state START_RECORD (parse_save_field r))
  | Ch x =>
      if is_newline x then inl (set_state EAT_CRNL (parse_save_field r))
      else if (x =? quotechar d)%N then inl (set_state IN_QUOTED_FIELD r)
      else if (x =? SPACE)%N && skipinitialspace d then inl r
      else if (x =? delimiter d)%N then inl (parse_save_field r)
      else match parse_add_char r x with
           | inl r' => inl (set_state IN_FIELD r')
           | inr e => inr e
           end
  end.

Definition parse_process_char (d : Dialect) (r : Reader) (c : Sym)
  : Reader + Error :=
  match state r with
  | START_RECORD =>
      match c with
      | EOL => inl r
      | Ch x =>
          if is_newline x then inl (set_state EAT_CRNL r)
          else start_field d (set_state START_FIELD r) c
      end
  | START_FIELD => start_field d r c
  | IN_FIELD =>
      match c with
      | EOL => inl (set_state START_RECORD (parse_save_field r))
      | Ch x =>
          if is_newline x then inl (set_state EAT_CRNL (parse_save_field r))
          else if (x =? delimiter d)%N
          then inl (set_state START_FIELD (parse_save_field r))
          else parse_add_char r x
      end
  | IN_QUOTED_FIELD =>
      match c with
      | EOL => inl r
      | Ch x =>
          if (x =? quotechar d)%N then
            if doublequote d then inl (set_state QUOTE_IN_QUOTED_FIELD r)
            else inl (set_state IN_FIELD r)
          else parse_add_char r x
      end
  | QUOTE_IN_QUOTED_FIELD =>
      match c with
      | EOL => inl (set_state START_RECORD (parse_save_field r))
      | Ch x =>
          if (x =? quotechar d)%N then
            match parse_add_char r x with
            | inl r' => inl (set_state IN_QUOTED_FIELD r')
            | inr e => inr e
            end
          else if (x =? delimiter d)%N
          then inl (set_state START_FIELD (parse_save_field r))
          else if is_newline x
          then inl (set_state EAT_CRNL (parse_save_field r))
          else match parse_add_char r x with
               | inl r' => inl (set_state IN_FIELD r')
               | inr e => inr e
               end
      end
  | EAT_CRNL =>
      match c with
      | EOL => inl (set_state START_RECORD r)
      | Ch x => if is_newline x then inl r else inr NewlineInUnquotedField
      end
  end.

(** The characters of one line. *)
Fixpoint feed (d : Dialect) (r : Reader) (line : str) : Reader + Error :=
  match line with
  | [] => inl r
  | c :: rest =>
      match parse_process_char d r (Ch c) with
      | inl r' => feed d r' rest
      | inr e => inr e
      end
  end.

(** One line and its end-of-line mark. *)
Definition feed_line (d : Dialect) (r : Reader) (line : str) : Reader + Error :=
  match feed d r line with
  | inl r' => parse_process_char d r' EOL
  | inr e => inr e
  end.

Definition state_eqb (a b : ParserState) : bool :=
  match a, b with
  | START_RECORD, START_RECORD | START_FIELD, START_FIELD
  | IN_FIELD, IN_FIELD | IN_QUOTED_FIELD, IN_QUOTED_FIELD
  | QUOTE_IN_QUOTED_FIELD, QUOTE_IN_QUOTED_FIELD | EAT_CRNL, EAT_CRNL => true
  | _, _ => false
  end.

(** Iterating the reader over the lines of the input: the records it yields,
    and the error that ended the iteration, if one did.  A record is complete
    when the automaton is back in [START_RECORD] after a line; at the end of
    the input a record left open inside a quoted field is yielded as it is. *)
Fixpoint records (d : Dialect) (r : Reader) (lines : list str)
  : list (list str) * option Error :=
  match lines with
  | [] =>
      if negb (List.length (field r) =? 0) || state_eqb (state r) IN_QUOTED_FIELD
      then ([fields (parse_save_field r)], None)
      else ([], None)
  | l :: ls =>
      match feed_line d r l with
      | inr e => ([], Some e)
      | inl r' =>
          if state_eqb (state r') START_RECORD
          then let (rows, e) := records d parse_reset ls in (fields r' :: rows, e)
          else records d r' ls
      end
  end.

(** [csv.reader(StringIO(text), dialect)]. *)
Definition reader (d : Dialect) (text : str) : list (list str) * option Error :=
  records d parse_reset (io_lines text).

End Csv.

(* ================================================================== *)
(** * [class CSVValidator] *)
(* ================================================================== *)

Module CSVValidator.
Import Py.

(** ** Findings *)

(** A value interpolated into a message or stored as an extra of a finding. *)
Inductive Value :=
| VInt (n : nat)
| VStr (s : str)
| VInts (l : list nat)                     (* a list of ints *)
| VPairs (l : list (nat * nat))            (* a list of (line, col) tuples *)
| VTriples (l : list (nat * nat * nat))    (* (line, col, length) tuples *)
| VStrs (l : list str)                     (* a list or set of strings *)
| VCounts (l : list (str * nat))           (* a dict from str to int *)
| VLabels (l : list (string * nat))        (* a dict from a fixed label to int *)
| VIndexed (l : list (nat * str))          (* a list of (col, name) tuples *)
| VRate (num den : nat)                    (* the float [num / den] *)
| VOSError                                 (* the text of an OS exception *)
| VCsvError (e : Csv.Error).               (* the text of a csv.Error *)

(** An f-string is kept as its fragments: literal text and formatted
    values, in order. *)
Inductive Frag := Lit (s : string) | Val (v : Value).

Definition Text := list Frag.

Record Finding := {
  category : string;
  message : Text;
  line : option nat;
  column : option nat;
  extra : list (string * Text)
}.

(** ** The validator state: the attributes set by [__init__] *)

Record State := {
  file_path : str;
  errors : list Finding;
  warnings : list Finding;
  raw_content : str;
  lines : list str;
  rows : list (list str);
  headers : list str;
  detected_dialect : option Csv.Dialect;
  detected_encoding : option Codec.Encoding;
  is_tsv : bool;
  metadata_rows_detected : bool;
  metadata_row_count : nat
}.

Definition init (path : str) : State :=
  {| file_path := path; errors := []; warnings := []; raw_content := [];
     lines := []; rows := []; headers := []; detected_dialect := None;
     detected_encoding := None; is_tsv := false;
     metadata_rows_detected := false; metadata_row_count := 0 |}.

Definition set_errors (v : list Finding) (s : State) : State :=
  {| file_path := file_path s; errors := v; warnings := warnings s;
     raw_content := raw_content s; lines := lines s; rows := rows s;
     headers := headers s; detected_dialect := detected_dialect s;
     detected_encoding := detected_encoding s; is_tsv := is_tsv s;
     metadata_rows_detected := metadata_rows_detected s;
     metadata_row_count := metadata_row_count s |}.

Definition set_warnings (v : list Finding) (s : State) : State :=
  {| file_path := file_path s; errors := errors s; warnings := v;
     raw_content := raw_content s; lines := lines s; rows := rows s;
     headers := headers s; detected_dialect := detected_dialect s;
     detected_encoding := detected_encoding s; is_tsv := is_tsv s;
     metadata_rows_detected := metadata_rows_detected s;
     metadata_row_count := metadata_row_count s |}.

Definition set_content (text : str) (ls : list str)
  (e : Codec.Encoding) (s : State) : State :=
  {| file_path := file_path s; errors := errors s; warnings := warnings s;
     raw_content := text; lines := ls; rows := rows s;
     headers := headers s; detected_dialect := detected_dialect s;
     detected_encoding := Some e; is_tsv := is_tsv s;
     metadata_rows_detected := metadata_rows_detected s;
     metadata_row_count := metadata_row_count s |}.

Definition set_rows (v : list (list str)) (s : State) : State :=
  {| file_path := file_path s; errors := errors s; warnings := warnings s;
     raw_content := raw_content s; lines := lines s; rows := v;
     headers := headers s; detected_dialect := detected_dialect s;
     detected_encoding := detected_encoding s; is_tsv := is_tsv s;
     metadata_rows_detected := metadata_rows_detected s;
     metadata_row_count := metadata_row_count s |}.

Definition set_headers (v : list str) (s : State) : State :=
  {| file_path := file_path s; errors := errors s; warnings := warnings s;
     raw_content := raw_content s; lines := lines s; rows := rows s;
     headers := v; detected_dialect := detected_dialect s;
     detected_encoding := detected_encoding s; is_tsv := is_tsv s;
     metadata_rows_detected := metadata_rows_detected s;
     metadata_row_count := metadata_row_count s |}.

Definition set_dialect (v : Csv.Dialect) (s : State) : State :=
  {| file_path := file_path s; errors := errors s; warnings := warnings s;
     raw_content := raw_content s; lines := lines s; rows := rows s;
     headers := headers s; detected_dialect := Some v;
     detected_encoding := detected_encoding s; is_tsv := is_tsv s;
     metadata_rows_detected := metadata_rows_detected s;
     metadata_row_count := metadata_row_count s |}.

Definition set_is_tsv (v : bool) (s : State) : State :=
  {| file_path := file_path s; errors := errors s; warnings := warnings s;
     raw_content := raw_content s; lines := lines s; rows := rows s;
     headers := headers s; detected_dialect := detected_dialect s;
     detected_encoding := detected_encoding s; is_tsv := v;
     metadata_rows_detected := metadata_rows_detected s;
     metadata_row_count := metadata_row_count s |}.

Definition set_metadata (detected : bool) (count : nat) (s : State) : State :=
  {| file_path := file_path s; errors := errors s; warnings := warnings s;
     raw_content := raw_content s; lines := lines s; rows := rows s;
     headers := headers s; detected_dialect := detected_dialect s;
     detected_encoding := detected_encoding s; is_tsv := is_tsv s;
     metadata_rows_detected := detected; metadata_row_count := count |}.

Definition add_error (cat : string) (msg : Text) (ln col : option nat)
  (ext : list (string * Text)) (s : State) : State :=
  set_errors
    (errors s ++ [{| category := cat; message := msg; line := ln;
                     column := col; extra := ext |}]) s.

Definition add_warning (cat : string) (msg : Text) (ln col : option nat)
  (ext : list (string * Text)) (s : State) : State :=
  set_warnings
    (warnings s ++ [{| category := cat; message := msg; line := ln;
                       column := col; extra := ext |}]) s.

Definition is_empty {A} (l : list A) : bool :=
  match l with [] => true | _ => false end.

(** ** The file as the validator observes it *)

Record File := {
  os_path_exists : bool;
  os_path_isfile : bool;
  os_access_R_OK : bool;
  (** the bytes that [open(path, "rb")] reads; [None] when it raises *)
  data : option Codec.bytes
}.

Definition check_file_exists (f : File) (s : State) : State * bool :=
  if negb (os_path_exists f) then
    (add_error "file" [Lit "File does not exist: "; Val (VStr (file_path s))]
       None None [] s, false)
  else if negb (os_path_isfile f) then
    (add_error "file" [Lit "Path is not a file: "; Val (VStr (file_path s))]
       None None [] s, false)
  else if negb (os_access_R_OK f) then
    (add_error "file" [Lit "File is not readable: "; Val (VStr (file_path s))]
       None None [] s, false)
  else (s, true).

(** ** [read_file] and [_detect_encoding_from_bytes] *)

Definition bytes_startswith (prefix : list N) (raw : Codec.bytes) : bool :=
  eqb_list N.eqb (firstn (List.length prefix) (map Codec.ord raw)) prefix.

(** [raw_bytes[i:i+1] == b"\x00"]. *)
Definition null_at (raw : Codec.bytes) (i : nat) : bool :=
  match nth_error raw i with
  | Some b => (Codec.ord b =? 0)%N
  | None => false
  end.

Fixpoint range_from (start count step : nat) : list nat :=
  match count with
  | 0 => []
  | S k => start :: range_from (start + step) k step
  end.

(** [range(start, stop, step)] for a positive step. *)
Definition range (start stop step : nat) : list nat :=
  range_from start ((stop - start + (step - 1)) / step) step.

Definition count_nulls (raw : Codec.bytes) (start : nat) : nat :=
  List.length
    (filter (null_at raw) (range start (Nat.min (List.length raw) 1000) 2)).

Definition _detect_encoding_from_bytes (raw_bytes : Codec.bytes)
  : option Codec.Encoding :=
  if bytes_startswith [255; 254; 0; 0]%N raw_bytes then Some Codec.UTF_32_LE
  else if bytes_startswith [0; 0; 254; 255]%N raw_bytes then Some Codec.UTF_32_BE
  else if bytes_startswith [255; 254]%N raw_bytes then Some Codec.UTF_16_LE
  else if bytes_startswith [254; 255]%N raw_bytes then Some Codec.UTF_16_BE
  else if bytes_startswith [239; 187; 191]%N raw_bytes then Some Codec.UTF_8_SIG
  else if 4 <=? List.length raw_bytes then
    let even_nulls := count_nulls raw_bytes 0 in
    let odd_nulls := count_nulls raw_bytes 1 in
    let sample_size := Nat.min (List.length raw_bytes) 1000 / 2 in
    if 0 <? sample_size then
      let even_ratio := (Qnat even_nulls / Qnat sample_size)%Q in
      let odd_ratio := (Qnat odd_nulls / Qnat sample_size)%Q in
      if Qltb (4 # 10) odd_ratio && Qltb even_ratio (1 # 10)
      then Some Codec.UTF_16_LE
      else if Qltb (4 # 10) even_ratio && Qltb odd_ratio (1 # 10)
      then Some Codec.UTF_16_BE
      else None
    else None
  else None.

Definition fallback_encodings : list Codec.Encoding :=
  [Codec.UTF_8; Codec.UTF_8_SIG; Codec.LATIN_1; Codec.CP1252; Codec.ISO_8859_1].

(** [encoding.startswith("utf-16")]. *)
Definition is_utf16 (e : Codec.Encoding) : bool :=
  match e with
  | Codec.UTF_16_LE | Codec.UTF_16_BE => true
  | _ => false
  end.

Definition is_utf8 (e : Codec.Encoding) : bool :=
  match e with
  | Codec.UTF_8 | Codec.UTF_8_SIG => true
  | _ => false
  end.

(** [str.upper] on the encoding names, which are ASCII. *)
Definition upper (name : str) : str :=
  map (fun c => if between 97 122 c then (c - 32)%N else c) name.

Definition suggest_utf8 : list (string * Text) :=
  [("suggestion"%string,
    [Lit "Consider converting to UTF-8 for better compatibility"])].

(** The body of the [for encoding in encodings] loop when the decode
    succeeds. *)
Definition accept_encoding (e : Codec.Encoding) (text : str) (s : State) : State :=
  let s := set_content text (lines s) e s in
  let s :=
    if is_utf8 e then s
    else if is_utf16 e then
      add_warning "encoding"
        [Lit "File is "; Val (VStr (upper (of_string (Codec.name e))));
         Lit " encoded"]
        None None suggest_utf8 s
    else
      add_warning "encoding"
        [Lit "File not in UTF-8 encoding, detected: ";
         Val (VStr (of_string (Codec.name e)))]
        None None suggest_utf8 s in
  set_content text (splitlines text) e s.

(** The loop: a [UnicodeDecodeError] moves on to the next encoding; when the
    list is exhausted the fatal error is recorded.  (Once the binary read
    has succeeded, the text-mode reads are taken to fail only by decoding.) *)
Fixpoint try_encodings (encodings : list Codec.Encoding) (content : Codec.bytes)
  (s : State) : State * bool :=
  match encodings with
  | [] =>
      (add_error "encoding"
         [Lit "Could not decode file with any common encoding"] None None [] s,
       false)
  | e :: rest =>
      match Codec.decode e content with
      | Some text => (accept_encoding e text s, true)
      | None => try_encodings rest content s
      end
  end.

(** The number of bytes read for the detection: [f.read(4096)]. *)
Definition detection_bytes : nat := N.to_nat 4096.

Definition read_file (f : File) (s : State) : State * bool :=
  match data f with
  | None =>
      (add_error "file" [Lit "Error reading file: "; Val VOSError]
         None None [] s, false)
  | Some content =>
      let raw_bytes := firstn detection_bytes content in
      let detected := _detect_encoding_from_bytes raw_bytes in
      let encodings :=
        match detected with
        | Some e => [e]
        | None => []
        end ++ fallback_encodings in
      try_encodings encodings content s
  end.

(** ** The checks on the decoded text *)

(** [[i for i, c in enumerate(s) if c == x]]. *)
Definition positions (x : char) (s : str) : list nat :=
  map fst (filter (fun p => (snd p =? x)%N) (enumerate 0 s)).

Definition encoding_is_utf16 (s : State) : bool :=
  match detected_encoding s with
  | Some e => is_utf16 e
  | None => false
  end.

Definition check_encoding_issues (s : State) : State :=
  let s :=
    if contains NUL (raw_content s) then
      if negb (encoding_is_utf16 s) then
        let ps := positions NUL (raw_content s) in
        add_error "encoding"
          [Lit "File contains null bytes at positions: ";
           Val (VInts (firstn 10 ps));
           Lit (if 10 <? List.length ps then "..." else "")]
          None None
          [("count"%string, [Val (VInt (List.length ps))]);
           ("suggestion"%string,
            [Lit "This may indicate UTF-16 encoding read as single-byte encoding"])]
          s
      else s
    else s in
  if contains REPLACEMENT (raw_content s) then
    add_error "encoding"
      [Lit "File contains ";
       Val (VInt (count_char REPLACEMENT (raw_content s)));
       Lit " replacement characters (encoding errors)"]
      None None [] s
  else s.

Definition check_bom (s : State) : State :=
  if startswith [BOM_CHAR] (raw_content s) then
    add_warning "encoding" [Lit "File contains UTF-8 BOM (Byte Order Mark)"]
      (Some 1) None [] s
  else s.

(** The [endings] list of [check_line_endings]: one entry per kind of line
    ending that occurs, with its count. *)
Definition line_endings (text : str) : list (string * nat) :=
  let crlf_count := count_pair CR LF text in
  let lf_only_count := count_char LF text - crlf_count in
  let cr_only_count := count_char CR text - crlf_count in
  (if 0 <? crlf_count then [("CRLF"%string, crlf_count)] else [])
  ++ (if 0 <? lf_only_count then [("LF"%string, lf_only_count)] else [])
  ++ (if 0 <? cr_only_count then [("CR"%string, cr_only_count)] else []).

Definition check_line_endings (s : State) : State :=
  let endings := line_endings (raw_content s) in
  if 1 <? List.length endings then
    add_warning "format"
      [Lit "Inconsistent line endings detected: "; Val (VLabels endings)]
      None None [] s
  else s.

Definition check_empty_file (s : State) : State :=
  if is_empty (strip (raw_content s)) then
    add_error "content" [Lit "File is empty or contains only whitespace"]
      None None [] s
  else s.

(** ** [_detect_delimiter] and [detect_dialect] *)

Definition delimiters : list char := [COMMA; TAB; SEMICOLON; PIPE].

(** [any(d in stripped for d in delimiters)]. *)
Definition has_delimiter (stripped : str) : bool :=
  existsb (fun d => contains d stripped) delimiters.

(** The first loop of [_detect_delimiter]: blank lines are skipped, lines
    with a delimiter are collected, and the loop breaks at 30 candidates. *)
Fixpoint collect_candidates (all_lines : list str) (candidate_lines : list str)
  : list str :=
  match all_lines with
  | [] => candidate_lines
  | l :: rest =>
      let stripped := strip l in
      if is_empty stripped then collect_candidates rest candidate_lines
      else
        let candidate_lines :=
          if has_delimiter stripped then candidate_lines ++ [stripped]
          else candidate_lines in
        if 30 <=? List.length candidate_lines then candidate_lines
        else collect_candidates rest candidate_lines
  end.

Definition sum (l : list nat) : nat := fold_left Nat.add l 0.

(** [len(set(l))]. *)
Definition distinct (l : list nat) : nat := List.length (nodup Nat.eq_dec l).

(** The body of [for delim in delimiters] up to the bonus: the score of one
    delimiter, [None] where the source says [continue].  The scores are
    exact rationals where the source computes floats. *)
Definition delimiter_score (delim : char) (candidate_lines : list str)
  : option Q :=
  let counts := map (count_char delim) candidate_lines in
  if is_empty counts || forallb (Nat.eqb 0) counts then None
  else
    let non_zero_counts := filter (fun c => 0 <? c) counts in
    if List.length non_zero_counts <? 2 then None
    else
      let score :=
        if (distinct non_zero_counts =? 1) && (0 <? hd 0 non_zero_counts) then
          Some (Qnat (hd 0 non_zero_counts * 100)%nat
                * (Qnat (List.length non_zero_counts)
                   / Qnat (List.length counts)))%Q
        else
          let avg_count :=
            (Qnat (sum non_zero_counts) / Qnat (List.length non_zero_counts))%Q in
          if Qeq_bool avg_count 0 then None
          else
            let variance :=
              (Qsum (map (fun c => (Qnat c - avg_count) * (Qnat c - avg_count))
                       non_zero_counts)
               / Qnat (List.length non_zero_counts))%Q in
            let consistency := (1 / (1 + variance))%Q in
            let coverage :=
              (Qnat (List.length non_zero_counts) / Qnat (List.length counts))%Q in
            Some (avg_count * consistency * coverage * 10)%Q in
      match score with
      | None => None
      | Some score =>
          if (delim =? TAB)%N then
            let avg :=
              if is_empty non_zero_counts then 0%Q
              else (Qnat (sum non_zero_counts)
                    / Qnat (List.length non_zero_counts))%Q in
            if Qle_bool 3 avg then Some (score * 2)%Q else Some score
          else Some score
      end.

(** One iteration of the loop over the delimiters, on the pair
    [(best_delimiter, best_score)]. *)
Definition best_step (candidate_lines : list str) (best : option char * Q)
  (delim : char) : option char * Q :=
  match delimiter_score delim candidate_lines with
  | None => best
  | Some score => if Qltb (snd best) score then (Some delim, score) else best
  end.

Definition _detect_delimiter (sample : str) : option char :=
  let all_lines := split LF sample in
  let candidate_lines := collect_candidates all_lines [] in
  let candidate_lines :=
    if List.length candidate_lines <? 2
    then firstn 30
           (filter (fun l => negb (is_empty l)) (map strip all_lines))
    else candidate_lines in
  if List.length candidate_lines <? 2 then None
  else
    let best := fold_left (best_step candidate_lines) delimiters (None, (-1)%Q) in
    if Qltb 1 (snd best) then fst best else None.

(** The detection sample is the first 8192 characters. *)
Definition sample_size : nat := N.to_nat 8192.

Definition tsv_warning (s : State) : State :=
  add_warning "format" [Lit "Detected tab-separated values (TSV) format"]
    None None
    [("suggestion"%string,
      [Lit "File extension is .csv but content is tab-delimited"])]
    (set_is_tsv true s).

Section Sniffer.

(** [csv.Sniffer().sniff]: the dialect it returns for a sample, [None] when
    it raises [csv.Error]. *)
Variable sniff : str -> option Csv.Dialect.

Definition detect_dialect (s : State) : State :=
  let sample := firstn sample_size (raw_content s) in
  match _detect_delimiter sample with
  | Some delimiter =>
      let s := if (delimiter =? TAB)%N then tsv_warning s else s in
      set_dialect (Csv.excel delimiter) s
  | None =>
      match sniff sample with
      | Some dialect =>
          let s := set_dialect dialect s in
          if (Csv.delimiter dialect =? TAB)%N then tsv_warning s else s
      | None =>
          set_dialect (Csv.excel COMMA)
            (add_warning "format"
               [Lit "Could not auto-detect CSV dialect, assuming comma-separated"]
               None None [] s)
      end
  end.

End Sniffer.

(** ** [parse_csv] *)

Definition the_dialect (s : State) : Csv.Dialect :=
  match detected_dialect s with
  | Some d => d
  | None => Csv.excel COMMA
  end.

(** The rows the reader yields are appended one by one, the first becoming
    the header; a [csv.Error] ends the loop and is recorded. *)
Definition parse_csv (s : State) : State :=
  let (new_rows, err) := Csv.reader (the_dialect s) (raw_content s) in
  let s := set_rows (rows s ++ new_rows) s in
  let s :=
    match new_rows with
    | first :: _ => set_headers first s
    | [] => s
    end in
  match err with
  | Some e =>
      add_error "parsing" [Lit "CSV parsing error: "; Val (VCsvError e)]
        None None [] s
  | None => s
  end.

(** ** [check_header_issues] *)

Definition reserved_names : list str :=
  map of_string ["id"; "null"; "none"; "undefined"; "nan"]%string.

(** [[i + 1 for i, h in enumerate(headers) if not h.strip()]]. *)
Definition empty_cols (hs : list str) : list nat :=
  map (fun p => fst p + 1)
    (filter (fun p => is_empty (strip (snd p))) (enumerate 0 hs)).

(** [{h: c for h, c in Counter(headers).items() if c > 1 and h.strip()}]. *)
Definition duplicate_headers (hs : list str) : list (str * nat) :=
  filter (fun hc => (1 <? snd hc) && negb (is_empty (strip (fst hc))))
    (Counter str_eqb hs).

(** The loop over [normalized]: a header whose normal form was seen before
    is reported against the first header with that form. *)
Fixpoint near_duplicates (all : list str) (hs : list (nat * str))
  (normalized : list (str * nat)) (s : State) : State :=
  match hs with
  | [] => s
  | (i, h) :: rest =>
      let norm := lower (strip h) in
      match dict_get str_eqb norm normalized with
      | Some j =>
          near_duplicates all rest normalized
            (add_warning "header"
               [Lit "Headers '"; Val (VStr (nth j all [])); Lit "' (col ";
                Val (VInt (j + 1)); Lit ") and '"; Val (VStr h); Lit "' (col ";
                Val (VInt (i + 1)); Lit ") differ only by whitespace/case"]
               (Some 1) None [] s)
      | None => near_duplicates all rest (dict_set str_eqb norm i normalized) s
      end
  end.

(** [[(i + 1, h) for i, h in enumerate(headers) if h.lower() in reserved]]. *)
Definition problematic (hs : list str) : list (nat * str) :=
  map (fun p => (fst p + 1, snd p))
    (filter (fun p => str_in (lower (snd p)) reserved_names) (enumerate 0 hs)).

Definition check_header_issues (s : State) : State :=
  if is_empty (headers s) then
    add_error "header" [Lit "No headers found (file may be empty)"]
      None None [] s
  else
    let s :=
      if is_empty (empty_cols (headers s)) then s
      else add_error "header"
             [Lit "Empty header(s) in column(s): ";
              Val (VInts (empty_cols (headers s)))]
             (Some 1) None [] s in
    let s :=
      if is_empty (duplicate_headers (headers s)) then s
      else add_error "header"
             [Lit "Duplicate headers found: ";
              Val (VCounts (duplicate_headers (headers s)))]
             (Some 1) None [] s in
    let s := near_duplicates (headers s) (enumerate 0 (headers s)) [] s in
    if is_empty (problematic (headers s)) then s
    else add_warning "header"
           [Lit "Potentially problematic header names: ";
            Val (VIndexed (problematic (headers s)))]
           (Some 1) None [] s.

(** ** [check_column_consistency] *)

(** The loop that looks for the end of the metadata: the index of the first
    row with the expected number of columns, [0] when there is none. *)
Fixpoint find_metadata_end (expected_cols : nat) (rws : list (nat * list str))
  : nat :=
  match rws with
  | [] => 0
  | (i, row) :: rest =>
      if List.length row =? expected_cols then i
      else find_metadata_end expected_cols rest
  end.

(** The first half of the method: the expected number of columns, and the
    state after the metadata decision. *)
Definition resolve_expected (s : State) : nat * State :=
  let col_counts := map (@List.length str) (rows s) in
  let count_freq := Counter Nat.eqb col_counts in
  let (most_common_count, most_common_freq) :=
    match most_common_1 count_freq with
    | Some p => p
    | None => (0, 0)
    end in
  let header_cols :=
    if negb (is_empty (headers s)) then List.length (headers s)
    else List.length (hd [] (rows s)) in
  if Qltb (Qnat (List.length (rows s)) * (1 # 2))%Q (Qnat most_common_freq)
     && negb (most_common_count =? header_cols)
  then
    let expected_cols := most_common_count in
    let s := set_metadata true (metadata_row_count s) s in
    let metadata_end := find_metadata_end expected_cols (enumerate 0 (rows s)) in
    if 0 <? metadata_end then
      let s := set_metadata (metadata_rows_detected s) metadata_end s in
      let s :=
        add_warning "structure"
          [Lit "File appears to have "; Val (VInt metadata_end);
           Lit " metadata row(s) before tabular data"]
          None None
          [("suggestion"%string,
            [Lit "Data rows have "; Val (VInt expected_cols);
             Lit " columns; first "; Val (VInt metadata_end);
             Lit " row(s) are likely headers/metadata"]);
           ("metadata_rows"%string, [Val (VInt metadata_end)])]
          s in
      if metadata_end <? List.length (rows s)
      then (expected_cols, set_headers (nth metadata_end (rows s) []) s)
      else (expected_cols, s)
    else (expected_cols, s)
  else (header_cols, set_metadata false 0 s).

(** The rows reported as inconsistent: [(line, found)] for every row past the
    metadata whose length differs from the expected one. *)
Definition inconsistent_rows (expected_cols : nat) (s : State)
  : list (nat * nat) :=
  map (fun p => (fst p, List.length (snd p)))
    (filter
       (fun p =>
          negb (metadata_rows_detected s && (fst p - 1 <? metadata_row_count s))
          && negb (List.length (snd p) =? expected_cols))
       (enumerate 1 (rows s))).

(** [by_count]: the lines of the inconsistent rows, grouped by the number of
    columns found, in order of first occurrence. *)
Definition by_count (inconsistent : list (nat * nat)) : list (nat * list nat) :=
  fold_left (fun d item => group_add Nat.eqb (snd item) (fst item) d)
    inconsistent [].

Definition structure_error (expected_cols : nat) (group : nat * list nat)
  (s : State) : State :=
  let (count, lns) := group in
  add_error "structure"
    [Lit "Rows with "; Val (VInt count); Lit " columns (expected ";
     Val (VInt expected_cols); Lit "): lines "; Val (VInts (firstn 20 lns));
     Lit (if 20 <? List.length lns then "..." else "")]
    None None [("count"%string, [Val (VInt (List.length lns))])] s.

Definition check_column_consistency (s : State) : State :=
  if is_empty (rows s) then s
  else
    let (expected_cols, s) := resolve_expected s in
    fold_left (fun s group => structure_error expected_cols group s)
      (by_count (inconsistent_rows expected_cols s)) s.

(** ** [check_empty_rows], [check_whitespace_issues], [check_quoting_issues] *)

Definition numbered (first : nat) (l : list nat) : Text :=
  [Val (VInts (firstn first l));
   Lit (if first <? List.length l then "..." else "")].

Definition check_empty_rows (s : State) : State :=
  let empty_lines :=
    map fst
      (filter (fun p => negb (existsb (fun cell => negb (is_empty (strip cell)))
                                (snd p)))
         (enumerate 1 (rows s))) in
  if is_empty empty_lines then s
  else add_warning "content"
         (Lit "Empty rows found at lines: " :: numbered 20 empty_lines)
         None None [("count"%string, [Val (VInt (List.length empty_lines))])] s.

(** The [(line, col)] of every cell that satisfies [p]. *)
Definition cells_where (p : str -> bool) (rws : list (list str))
  : list (nat * nat) :=
  flat_map
    (fun r => map (fun c => (fst r, fst c))
                (filter (fun c => p (snd c)) (enumerate 1 (snd r))))
    (enumerate 1 rws).

Definition check_whitespace_issues (s : State) : State :=
  let leading_issues :=
    cells_where (fun cell => negb (str_eqb cell (lstrip cell))) (rows s) in
  let trailing_issues :=
    cells_where (fun cell => negb (str_eqb cell (rstrip cell))) (rows s) in
  let s :=
    if is_empty leading_issues then s
    else add_warning "whitespace"
           [Lit "Cells with leading whitespace: ";
            Val (VInt (List.length leading_issues));
            Lit " occurrences (e.g., "; Val (VPairs (firstn 10 leading_issues));
            Lit ")"]
           None None
           [("count"%string, [Val (VInt (List.length leading_issues))])] s in
  if is_empty trailing_issues then s
  else add_warning "whitespace"
         [Lit "Cells with trailing whitespace: ";
          Val (VInt (List.length trailing_issues));
          Lit " occurrences (e.g., "; Val (VPairs (firstn 10 trailing_issues));
          Lit ")"]
         None None
         [("count"%string, [Val (VInt (List.length trailing_issues))])] s.

(** First loop: a physical line with an odd number of quotes. *)
Definition odd_quotes (s : State) (numbered_line : nat * str) : State :=
  let (line_num, l) := numbered_line in
  let quote_count := count_char QUOTE l in
  if negb (quote_count mod 2 =? 0) then
    add_warning "quoting"
      [Lit "Odd number of quotes ("; Val (VInt quote_count); Lit ")"]
      (Some line_num) None [] s
  else s.

(** [stripped] has a quote and is not bracketed by quotes. *)
Definition quote_mid_field (stripped : str) : bool :=
  contains QUOTE stripped
  && negb (startswith [QUOTE] stripped && endswith [QUOTE] stripped).

(** Second loop: on a line with a quote and no doubled quote, the first
    comma-separated part with a quote inside it is reported. *)
Definition unescaped_quote (s : State) (numbered_line : nat * str) : State :=
  let (line_num, l) := numbered_line in
  if negb (contains_pair QUOTE QUOTE l) && contains QUOTE l then
    match filter quote_mid_field (map strip (split COMMA l)) with
    | stripped :: _ =>
        add_warning "quoting" [Lit "Potential unescaped quote in field"]
          (Some line_num) None
          [("field_sample"%string, [Val (VStr (firstn 50 stripped))])] s
    | [] => s
    end
  else s.

Definition check_quoting_issues (s : State) : State :=
  let s := fold_left odd_quotes (enumerate 1 (lines s)) s in
  fold_left unescaped_quote (enumerate 1 (lines s)) s.

(** ** [check_data_type_consistency] *)

(** An ASCII digit. *)
Definition is_digit (c : char) : bool := between 48 57 c.

(** The decimal digits of the Unicode database (version 14.0.0, that of
    CPython 3.11): each run starts at a digit zero and holds [snd] times
    the digits 0 to 9 in order. *)
Definition decimal_runs : list (N * N) :=
  [(48, 1); (1632, 1); (1776, 1); (1984, 1); (2406, 1); (2534, 1); (2662, 1);
   (2790, 1); (2918, 1); (3046, 1); (3174, 1); (3302, 1); (3430, 1);
   (3558, 1); (3664, 1); (3792, 1); (3872, 1); (4160, 1); (4240, 1);
   (6112, 1); (6160, 1); (6470, 1); (6608, 1); (6784, 1); (6800, 1);
   (6992, 1); (7088, 1); (7232, 1); (7248, 1); (42528, 1); (43216, 1);
   (43264, 1); (43472, 1); (43504, 1); (43600, 1); (44016, 1); (65296, 1);
   (66720, 1); (68912, 1); (69734, 1); (69872, 1); (69942, 1); (70096, 1);
   (70384, 1); (70736, 1); (70864, 1); (71248, 1); (71360, 1); (71472, 1);
   (71904, 1); (72016, 1); (72784, 1); (73040, 1); (73120, 1); (92768, 1);
   (92864, 1); (93008, 1); (120782, 5); (123200, 1); (123632, 1);
   (125264, 1); (130032, 1)]%N.

(** [Py_UNICODE_TODECIMAL]: the value of a decimal digit. *)
Definition to_decimal (c : char) : option N :=
  match find (fun r : N * N => (fst r <=? c)%N && (c <? fst r + 10 * snd r)%N)
          decimal_runs with
  | Some r => Some ((c - fst r) mod 10)%N
  | None => None
  end.

(** [Py_UNICODE_ISDECIMAL], the class [\d] of a [str] pattern. *)
Definition is_decimal (c : char) : bool :=
  match to_decimal c with
  | Some _ => true
  | None => false
  end.

(** [_PyUnicode_TransformDecimalAndSpaceToASCII], which [float] applies to
    a text that is not ASCII: code points below 127 are kept, whitespace
    becomes a space and a decimal digit its ASCII digit; the text is cut
    after a question mark at the first other code point. *)
Fixpoint transform_decimal_and_space (s : str) : str :=
  match s with
  | [] => []
  | c :: r =>
      if (c <? 127)%N then c :: transform_decimal_and_space r
      else if isspace c then SPACE :: transform_decimal_and_space r
      else match to_decimal c with
           | Some d => (48 + d)%N :: transform_decimal_and_space r
           | None => [63%N]
           end
  end.

Definition float_text (s : str) : str :=
  if forallb (fun c => (c <? 128)%N) s then s
  else transform_decimal_and_space s.

(** [Py_ISSPACE], the ASCII whitespace that [float] strips at both ends. *)
Definition ascii_isspace (c : char) : bool := between 9 13 c || (c =? SPACE)%N.

Fixpoint lstrip_ascii (s : str) : str :=
  match s with
  | [] => []
  | c :: r => if ascii_isspace c then lstrip_ascii r else s
  end.

Definition strip_ascii (s : str) : str :=
  rev (lstrip_ascii (rev (lstrip_ascii s))).

(** After a digit: further digits, each optionally preceded by one
    underscore.  Returns what is left. *)
Fixpoint more_digits (s : str) : str :=
  match s with
  | [] => []
  | c :: r =>
      if is_digit c then more_digits r
      else if (c =? 95)%N then
        match r with
        | d :: r' => if is_digit d then more_digits r' else s
        | [] => s
        end
      else s
  end.

(** [digitpart] of the grammar of [float]: what is left after it, [None]
    when the text does not start with a digit. *)
Definition digitpart (s : str) : option str :=
  match s with
  | c :: r => if is_digit c then Some (more_digits r) else None
  | [] => None
  end.

Definition is_sign (c : char) : bool := (c =? 43)%N || (c =? 45)%N.

Definition drop_sign (s : str) : str :=
  match s with
  | c :: r => if is_sign c then r else s
  | [] => s
  end.

(** [floatnumber]: a mantissa with at least one digit and an optional
    exponent, up to the end of the text. *)
Definition floatnumber (s : str) : bool :=
  let after_mantissa :=
    match digitpart s with
    | Some r =>
        match r with
        | c :: r' =>
            if (c =? 46)%N then
              match digitpart r' with
              | Some r'' => Some r''
              | None => Some r'
              end
            else Some r
        | [] => Some []
        end
    | None =>
        match s with
        | c :: r' => if (c =? 46)%N then digitpart r' else None
        | [] => None
        end
    end in
  match after_mantissa with
  | None => false
  | Some [] => true
  | Some (c :: r) =>
      if (c =? 101)%N || (c =? 69)%N then
        match digitpart (drop_sign r) with
        | Some [] => true
        | _ => false
        end
      else false
  end.

(** Whether [float(s)] returns: the text is made ASCII, stripped of ASCII
    whitespace at both ends, and must then be a sign (optional) and [inf],
    [infinity] or [nan] in any case, or a decimal number. *)
Definition float_parses (s : str) : bool :=
  let body := drop_sign (strip_ascii (float_text s)) in
  str_in (lower body) (map of_string ["inf"; "infinity"; "nan"]%string)
  || floatnumber body.

Definition _is_numeric (value : str) : bool :=
  float_parses (remove_char COMMA value).

(** The date patterns are sequences of digit runs [\d{lo,hi}] and literal
    characters, anchored at both ends. *)
Inductive Item := Digits (lo hi : nat) | Char (c : char).

(** [re.match] of an anchored pattern: [$] matches at the end of the text
    and before a final line feed. *)
Fixpoint re_match (p : list Item) (s : str) : bool :=
  match p with
  | [] => is_empty s || str_eqb s [LF]
  | Char c :: p' =>
      match s with
      | x :: r => (x =? c)%N && re_match p' r
      | [] => false
      end
  | Digits lo hi :: p' =>
      existsb
        (fun k => (List.length (firstn k s) =? k)
                  && forallb is_decimal (firstn k s)
                  && re_match p' (skipn k s))
        (seq lo (hi - lo + 1))
  end.

Definition date_patterns : list (list Item) :=
  let dash := Char 45%N in
  let slash := Char 47%N in
  [ [Digits 4 4; dash; Digits 2 2; dash; Digits 2 2];
    [Digits 2 2; slash; Digits 2 2; slash; Digits 4 4];
    [Digits 2 2; dash; Digits 2 2; dash; Digits 4 4];
    [Digits 4 4; slash; Digits 2 2; slash; Digits 2 2];
    [Digits 1 2; slash; Digits 1 2; slash; Digits 2 4] ].

Definition _is_date (value : str) : bool :=
  existsb (fun p => re_match p value) date_patterns.

Definition _is_boolean (value : str) : bool :=
  str_in (lower value)
    (map of_string
       ["true"; "false"; "yes"; "no"; "1"; "0"; "y"; "n"; "t"; "f"]%string).

(** The key of [types_found] a stripped cell is filed under. *)
Definition classify (cell : str) : string :=
  if is_empty cell then "empty"
  else if _is_numeric cell then "numeric"
  else if _is_date cell then "date"
  else if _is_boolean cell then "boolean"
  else "text".

(** The stripped cells of a column, over the rows that reach it. *)
Definition column_cells (col_idx : nat) (data_rows : list (list str)) : list str :=
  flat_map
    (fun row => match nth_error row col_idx with
                | Some cell => [strip cell]
                | None => []
                end)
    data_rows.

(** [{k: len(v) for k, v in types_found.items() if v and k != "empty"}]. *)
Definition type_summary (cells : list str) : list (string * nat) :=
  filter (fun kv => 0 <? snd kv)
    (map (fun k => (k, List.length
                         (filter (fun c => String.eqb (classify c) k) cells)))
       ["numeric"; "date"; "boolean"; "text"]%string).

(** [len(self.headers) if self.headers else (len(self.rows[0]) if self.rows
    else 0)]. *)
Definition num_cols (s : State) : nat :=
  if negb (is_empty (headers s)) then List.length (headers s)
  else List.length (hd [] (rows s)).

Definition col_name (s : State) (col_idx : nat) : str :=
  match nth_error (headers s) col_idx with
  | Some h => h
  | None => of_string "Column " ++ str_of_nat (col_idx + 1)
  end.

Definition check_column_types (s : State) (col_idx : nat) : State :=
  let summary := type_summary (column_cells col_idx (tl (rows s))) in
  if 1 <? List.length summary then
    add_warning "data_type"
      [Lit "Mixed data types in column '"; Val (VStr (col_name s col_idx));
       Lit "': "; Val (VLabels summary)]
      None (Some (col_idx + 1)) [] s
  else s.

Definition check_data_type_consistency (s : State) : State :=
  if List.length (rows s) <? 2 then s
  else fold_left check_column_types (seq 0 (num_cols s)) s.

(** ** [check_missing_values] *)

Definition null_representations : list str :=
  map of_string
    [""; "null"; "NULL"; "None"; "none"; "NA"; "N/A"; "n/a"; "#N/A"; "NaN";
     "nan"; "-"; "--"]%string.

(** One iteration of the inner loop over the data rows, for the column
    [col_idx], on the pair [(missing_count, representations_used)]. *)
Definition missing_step (col_idx : nat) (acc : nat * list str)
  (row : list str) : nat * list str :=
  let (missing_count, representations_used) := acc in
  match nth_error row col_idx with
  | None => (missing_count + 1, representations_used)
  | Some c =>
      let cell := strip c in
      if str_in cell null_representations then
        (missing_count + 1,
         set_add (if is_empty cell then of_string "(empty)" else cell)
           representations_used)
      else acc
  end.

(** The inner loop: the missing count of a column and the set of spellings
    used in it. *)
Definition column_missing (col_idx : nat) (data_rows : list (list str))
  : nat * list str :=
  fold_left (missing_step col_idx) data_rows (0, []).

(** [missing_by_col], a dict keyed by column name. *)
Definition missing_by_col (s : State) : list (str * (nat * list str)) :=
  fold_left
    (fun (d : list (str * (nat * list str))) col_idx =>
       let info := column_missing col_idx (tl (rows s)) in
       if 0 <? fst info then dict_set str_eqb (col_name s col_idx) info d else d)
    (seq 0 (num_cols s)) [].

Definition all_representations (d : list (str * (nat * list str))) : list str :=
  fold_left
    (fun (acc : list str) kv =>
       fold_left (fun a r => set_add r a) (snd (snd kv)) acc)
    d [].

Definition high_missing_rate (total_data_rows : nat) (s : State)
  (kv : str * (nat * list str)) : State :=
  let count := fst (snd kv) in
  if 0 <? total_data_rows then
    if Qltb (1 # 2) (Qnat count / Qnat total_data_rows)%Q then
      add_warning "missing_values"
        [Lit "Column '"; Val (VStr (fst kv)); Lit "' has ";
         Val (VRate count total_data_rows); Lit " missing values (";
         Val (VInt count); Lit "/"; Val (VInt total_data_rows); Lit ")"]
        None None [] s
    else s
  else s.

Definition check_missing_values (s : State) : State :=
  if List.length (rows s) <? 2 then s
  else
    let d := missing_by_col s in
    if is_empty d then s
    else
      let s :=
        if 1 <? List.length (all_representations d) then
          add_warning "missing_values"
            [Lit "Inconsistent null value representations used: ";
             Val (VStrs (all_representations d))]
            None None [("columns"%string, [Val (VStrs (map fst d))])] s
        else s in
      fold_left (high_missing_rate (List.length (rows s) - 1)) d s.

(** ** [check_duplicate_rows], [check_special_characters], [check_field_length] *)

Definition row_eqb : list str -> list str -> bool := eqb_list str_eqb.

Definition check_duplicate_rows (s : State) : State :=
  if List.length (rows s) <? 2 then s
  else
    let row_counts := Counter row_eqb (tl (rows s)) in
    let duplicates := filter (fun rc => 1 <? snd rc) row_counts in
    if is_empty duplicates then s
    else
      let total_dups := sum (map (fun rc => snd rc - 1) duplicates) in
      add_warning "duplicates"
        [Lit "Found "; Val (VInt total_dups); Lit " duplicate rows (";
         Val (VInt (List.length duplicates)); Lit " unique patterns repeated)"]
        None None [] s.

Definition problematic_chars (s : State) : list (char * string) :=
  [(CR, "carriage return (not in line ending)"%string);
   (VT, "vertical tab"%string);
   (FF, "form feed"%string);
   (NBSP, "non-breaking space"%string);
   (LINE_SEP, "line separator"%string);
   (PARA_SEP, "paragraph separator"%string)]
  ++ (if negb (is_tsv s) then [(TAB, "tab (consider using TSV format)"%string)]
      else []).

(** [found_issues]: one entry per row, cell and problematic character that
    occurs in the cell, in that nesting order. *)
Definition found_issues (s : State) : list (nat * nat * string) :=
  flat_map
    (fun r =>
       flat_map
         (fun c =>
            map (fun cn => (fst r, fst c, snd cn))
              (filter (fun cn => contains (fst cn) (snd c)) (problematic_chars s)))
         (enumerate 1 (snd r)))
    (enumerate 1 (rows s)).

Definition special_summary (issues : list (nat * nat * string))
  : list (string * list (nat * nat)) :=
  fold_left
    (fun d (i : nat * nat * string) =>
       group_add String.eqb (snd i) (fst i) d)
    issues [].

Definition check_special_characters (s : State) : State :=
  fold_left
    (fun s (entry : string * list (nat * nat)) =>
       let (name, locations) := entry in
       add_warning "special_chars"
         [Lit "Found '"; Lit name; Lit "' in ";
          Val (VInt (List.length locations)); Lit " cells (e.g., ";
          Val (VPairs (firstn 5 locations)); Lit ")"]
         None None [("count"%string, [Val (VInt (List.length locations))])] s)
    (special_summary (found_issues s)) s.

Definition max_reasonable_length : nat := N.to_nat 10000.

Definition long_fields (s : State) : list (nat * nat * nat) :=
  flat_map
    (fun r =>
       map (fun c => (fst r, fst c, List.length (snd c)))
         (filter (fun c => max_reasonable_length <? List.length (snd c))
            (enumerate 1 (snd r))))
    (enumerate 1 (rows s)).

Definition check_field_length (s : State) : State :=
  if is_empty (long_fields s) then s
  else add_warning "field_length"
         [Lit "Found "; Val (VInt (List.length (long_fields s)));
          Lit " fields exceeding "; Val (VInt max_reasonable_length);
          Lit " characters"]
         None None
         [("fields"%string, [Val (VTriples (firstn 10 (long_fields s)))])] s.

(** ** [get_results] and [validate] *)

Record Stats := {
  total_rows : nat;
  total_columns : nat;
  stats_headers : list str;
  encoding : option Codec.Encoding;
  delimiter : str;
  format : string
}.

(** The dict that [get_results] returns. *)
Record Report := {
  file : str;
  valid : bool;
  error_count : nat;
  warning_count : nat;
  report_errors : list Finding;
  report_warnings : list Finding;
  stats : Stats
}.

Definition delimiter_name (s : State) : str :=
  let name :=
    if is_tsv s then of_string "tab"
    else match detected_dialect s with
         | Some d => [Csv.delimiter d]
         | None => of_string "unknown"
         end in
  if str_eqb name [COMMA] then of_string "comma"
  else if str_eqb name [SEMICOLON] then of_string "semicolon"
  else if str_eqb name [PIPE] then of_string "pipe"
  else name.

Definition get_results (s : State) : Report :=
  {| file := file_path s;
     valid := List.length (errors s) =? 0;
     error_count := List.length (errors s);
     warning_count := List.length (warnings s);
     report_errors := errors s;
     report_warnings := warnings s;
     stats :=
       {| total_rows := List.length (rows s);
          total_columns :=
            if negb (is_empty (headers s)) then List.length (headers s) else 0;
          stats_headers :=
            if negb (is_empty (headers s)) then firstn 50 (headers s) else [];
          encoding := detected_encoding s;
          delimiter := delimiter_name s;
          format := if is_tsv s then "TSV" else "CSV" |} |}.

Section Run.

Variable sniff : str -> option Csv.Dialect.

(** The checks of [validate] between a successful read and [get_results],
    in the order of the source. *)
Definition run_checks (s : State) : State :=
  let s := check_encoding_issues s in
  let s := check_bom s in
  let s := check_line_endings s in
  let s := check_empty_file s in
  let s := detect_dialect sniff s in
  let s := parse_csv s in
  let s := check_header_issues s in
  let s := check_column_consistency s in
  let s := check_empty_rows s in
  let s := check_whitespace_issues s in
  let s := check_quoting_issues s in
  let s := check_data_type_consistency s in
  let s := check_missing_values s in
  let s := check_duplicate_rows s in
  let s := check_special_characters s in
  check_field_length s.

(** The final state of a run, before it is packed into the report. *)
Definition final_state (f : File) (path : str) : State :=
  let (s, found) := check_file_exists f (init path) in
  if negb found then s
  else
    let (s, decoded) := read_file f s in
    if negb decoded then s else run_checks s.

Definition validate (f : File) (path : str) : Report :=
  get_results (final_state f path).

End Run.

End CSVValidator.

(* ================================================================== *)
(** * The hook: [main] *)
(* ================================================================== *)

Module Hook.
Import Py.

(** The standard input of the hook once [json.load] has read it: the two
    entries [main] looks up, with the defaults of its [get] calls. *)
Record HookInput := {
  tool_name : str;
  file_path : str
}.

(** What a run of [main] does: the report it validated, if it got that far,
    whether the report was formatted with [always_show], and the exit
    status. *)
Record Outcome := {
  validated : option CSVValidator.Report;
  always_show : bool;
  exit_code : nat
}.

Definition silent : Outcome :=
  {| validated := None; always_show := false; exit_code := 0 |}.

Definition is_tool (name : string) (t : str) : bool := str_eqb t (of_string name).

Section Main.

Variable sniff : str -> option Csv.Dialect.

(** The file system, as far as the validator observes it. *)
Variable fs : str -> CSVValidator.File.

(** [stdin] is [None] when [json.load] raises [JSONDecodeError]. *)
Definition main (stdin : option HookInput) : Outcome :=
  match stdin with
  | None => silent
  | Some hook_input =>
      let tool := tool_name hook_input in
      if negb (is_tool "Read" tool || is_tool "Write" tool || is_tool "Edit" tool)
      then silent
      else
        let path := file_path hook_input in
        let lower_path := lower path in
        if negb (endswith (of_string ".csv") lower_path
                 || endswith (of_string ".tsv") lower_path)
        then silent
        else
          let results := CSVValidator.validate sniff (fs path) path in
          {| validated := Some results;
             always_show := is_tool "Read" tool;
             exit_code :=
               if negb (CSVValidator.is_empty (CSVValidator.report_errors results))
                  && negb (is_tool "Read" tool)
               then 1 else 0 |}
  end.

End Main.

End Hook.

(* ================================================================== *)
(** * The report as text: [format_results] and what [main] prints *)
(* ================================================================== *)

Module Format.
Import Py CSVValidator.

Definition EQUALS : char := 61%N.
Definition BOX_LINE : char := 9472%N.       (* U+2500 *)
Definition BALLOT_X : char := 10007%N.      (* U+2717 *)
Definition WARNING_SIGN : char := 9888%N.   (* U+26A0 *)
Definition ARROW : char := 8594%N.          (* U+2192 *)

(** The literal ["\n"]. *)
Definition newline : string := String (ascii_of_nat 10) EmptyString.

(** [{c * n}] inside an f-string. *)
Definition rule (c : char) (n : nat) : Frag := Val (VStr (repeat c n)).

(** [k in finding] and [finding[k]] for a keyword extra of a finding. *)
Fixpoint lookup (k : string) (d : list (string * Text)) : option Text :=
  match d with
  | [] => None
  | (k', t) :: r => if String.eqb k k' then Some t else lookup k r
  end.

(** [s.rjust(width)], which is how [{i:3}] pads an [int]. *)
Definition rjust (width : nat) (s : str) : str :=
  repeat SPACE (width - List.length s) ++ s.

(** The location of a finding: the column is shown only with a line. *)
Definition loc (f : Finding) : Text :=
  match line f with
  | Some l =>
      [Lit " [line "; Val (VInt l)]
      ++ match column f with
         | Some c => [Lit ", col "; Val (VInt c)]
         | None => []
         end
      ++ [Lit "]"]
  | None => []
  end.

Definition finding_line (mark : char) (f : Finding) : Text :=
  [Lit "  "; Val (VStr [mark]); Lit " ["; Lit (category f); Lit "]"]
  ++ loc f ++ [Lit ": "] ++ message f.

Definition error_lines (f : Finding) : list Text := [finding_line BALLOT_X f].

(** A warning is followed by its suggestion, when it has one. *)
Definition warning_lines (f : Finding) : list Text :=
  finding_line WARNING_SIGN f
  :: match lookup "suggestion" (extra f) with
     | Some t => [[Lit "    "; Val (VStr [ARROW]); Lit " "] ++ t]
     | None => []
     end.

(** [sep.join(parts)] on texts. *)
Fixpoint join_text (sep : Text) (parts : list Text) : Text :=
  match parts with
  | [] => []
  | [p] => p
  | p :: ps => p ++ sep ++ join_text sep ps
  end.

Definition banner (c : char) (n : nat) (title : Text) : list Text :=
  [[Lit newline; rule c n]; title; [rule c n]].

(** The line of statistics, shown when there is a row. *)
Definition info_lines (st : Stats) : list Text :=
  if 0 <? total_rows st then
    let info_parts :=
      [[Lit "Rows: "; Val (VInt (total_rows st))];
       [Lit "Columns: "; Val (VInt (total_columns st))]]
      ++ match encoding st with
         | Some e => [[Lit "Encoding: "; Val (VStr (of_string (Codec.name e)))]]
         | None => []
         end
      ++ (if String.eqb (format st) "" then []
          else [[Lit "Format: "; Lit (format st)]])
      ++ (if is_empty (delimiter st) then []
          else [[Lit "Delimiter: "; Val (VStr (delimiter st))]]) in
    [join_text [Lit ", "] info_parts]
  else [].

(** The list of columns, shown in a "show info" context. *)
Definition column_lines (always_show : bool) (st : Stats) : list Text :=
  if always_show && negb (is_empty (stats_headers st)) then
    banner BOX_LINE 40 [Lit "COLUMNS:"]
    ++ map (fun ih => [Lit "  "; Val (VStr (rjust 3 (str_of_nat (fst ih))));
                       Lit ". "; Val (VStr (snd ih))])
         (enumerate 1 (stats_headers st))
    ++ (if 50 <? total_columns st
        then [[Lit "  ... ("; Val (VInt (total_columns st - 50));
               Lit " more columns)"]]
        else [])
  else [].

Definition status (r : Report) : string :=
  if negb (is_empty (report_errors r)) then "INVALID"
  else if 0 <? warning_count r then "VALID (with warnings)"
  else "VALID".

(** The lines of a report that is shown. *)
Definition report_lines (r : Report) (always_show : bool) : list Text :=
  banner EQUALS 60 [Lit "CSV VALIDATION REPORT: "; Val (VStr (file r))]
  ++ info_lines (stats r)
  ++ (if negb (is_empty (report_errors r)) then
        banner BOX_LINE 40 [Lit "ERRORS ("; Val (VInt (error_count r)); Lit "):"]
        ++ flat_map error_lines (report_errors r)
      else [])
  ++ (if negb (is_empty (report_warnings r)) then
        banner BOX_LINE 40
          [Lit "WARNINGS ("; Val (VInt (warning_count r)); Lit "):"]
        ++ flat_map warning_lines (report_warnings r)
      else [])
  ++ column_lines always_show (stats r)
  ++ [[Lit newline; rule EQUALS 60];
      [Lit "Status: "; Lit (status r)];
      [rule EQUALS 60; Lit newline]].

(** The empty text is the empty string: the hook passes silently. *)
Definition format_results (r : Report) (always_show : bool) : Text :=
  if valid r && (warning_count r =? 0) && negb always_show then []
  else join_text [Lit newline] (report_lines r always_show).

(** What [main] writes to [stderr]: the formatted report and the newline
    of [print], when it validated and the output is not empty. *)
Definition printed (o : Hook.Outcome) : option Text :=
  match Hook.validated o with
  | None => None
  | Some results =>
      let output := format_results results (Hook.always_show o) in
      if is_empty output then None else Some (output ++ [Lit newline])
  end.

End Format.

(* ================================================================== *)
(** * Vocabulary of the properties *)
(* ================================================================== *)

Module Props.
Import Py CSVValidator.

(** The bytes of a text whose code points are below 256, one byte each. *)
Definition encode_latin1 (t : str) : Codec.bytes :=
  map (fun c => match Byte.of_N c with Some b => b | None => x00 end) t.

(** An existing, readable regular file with the given bytes. *)
Definition regular_file (content : Codec.bytes) : File :=
  {| os_path_exists := true; os_path_isfile := true; os_access_R_OK := true;
     data := Some content |}.

Definition text_file (t : str) : File := regular_file (encode_latin1 t).

Definition some_path : str := of_string "data.csv".

(** A line of text and its line feed. *)
Definition ln (s : string) : str := of_string s ++ [LF].

Definition has_category (c : string) (f : Finding) : bool :=
  String.eqb (category f) c.

(** The scenario inputs of the specification. *)
Definition ragged_text : str := ln "a,b,c" ++ ln "1,2,3" ++ ln "4,5".

Definition blank_text : str := [LF; LF; SPACE; SPACE; LF].

(** The structure error for the rows on lines [lns] (at most 20 of them)
    that have [count] columns where [expected] are expected. *)
Definition row_count_error (count expected : nat) (lns : list nat) : Finding :=
  {| category := "structure";
     message := [Lit "Rows with "; Val (VInt count); Lit " columns (expected ";
                 Val (VInt expected); Lit "): lines "; Val (VInts lns); Lit ""];
     line := None; column := None;
     extra := [("count"%string, [Val (VInt (List.length lns))])] |}.

(** The finding that the scenario with a short third row is expected to
    produce. *)
Definition short_row_error : Finding := row_count_error 2 3 [3].

Definition empty_file_error : Finding :=
  {| category := "content";
     message := [Lit "File is empty or contains only whitespace"];
     line := None; column := None; extra := [] |}.

Definition no_headers_error : Finding :=
  {| category := "header";
     message := [Lit "No headers found (file may be empty)"];
     line := None; column := None; extra := [] |}.

(** [s'] is [s] with findings appended: errors of the categories [ecats]
    and warnings of the categories [wcats]. *)
Definition adds_only (ecats wcats : list string) (s s' : State) : Prop :=
  (exists E, errors s' = errors s ++ E
             /\ Forall (fun f => In (category f) ecats) E)
  /\ (exists W, warnings s' = warnings s ++ W
                /\ Forall (fun f => In (category f) wcats) W).

(** The categories of the warnings of the eight checks that follow
    [check_column_consistency]. *)
Definition content_categories : list string :=
  ["content"; "whitespace"; "quoting"; "data_type"; "missing_values";
   "duplicates"; "special_chars"; "field_length"]%string.

(** The content checks, from [check_empty_rows] on, report warnings only. *)
Definition content_checks (s : State) : State :=
  check_field_length
    (check_special_characters
       (check_duplicate_rows
          (check_missing_values
             (check_data_type_consistency
                (check_quoting_issues
                   (check_whitespace_issues (check_empty_rows s))))))).

(** The first encoding of a list that decodes the bytes, with the text. *)
Fixpoint first_decoding (encodings : list Codec.Encoding)
  (content : Codec.bytes) : option (Codec.Encoding * str) :=
  match encodings with
  | [] => None
  | e :: rest =>
      match Codec.decode e content with
      | Some text => Some (e, text)
      | None => first_decoding rest content
      end
  end.

(** The fatal finding of [read_file]. *)
Definition decode_failure_error : Finding :=
  {| category := "encoding";
     message := [Lit "Could not decode file with any common encoding"];
     line := None; column := None; extra := [] |}.

(** A file whose second and third rows stop short of the second column, and
    in which no cell is a null token. *)
Definition short_rows_text : str := ln "a,b" ++ ln "1" ++ ln "2" ++ ln "3,x".

Definition short_rows : list (list str) :=
  [[of_string "a"; of_string "b"]; [of_string "1"]; [of_string "2"];
   [of_string "3"; of_string "x"]].

Definition is_null_token (cell : str) : bool :=
  str_in (strip cell) null_representations.

Definition high_missing_warning (name : string) (count total : nat) : Finding :=
  {| category := "missing_values";
     message := [Lit "Column '"; Val (VStr (of_string name)); Lit "' has ";
                 Val (VRate count total); Lit " missing values (";
                 Val (VInt count); Lit "/"; Val (VInt total); Lit ")"];
     line := None; column := None; extra := [] |}.

(** The categories of the findings of the checks from [check_line_endings]
    on: none of them is [encoding]. *)
Definition later_error_categories : list string :=
  ["content"; "parsing"; "header"; "structure"]%string.

Definition later_warning_categories : list string :=
  ["format"; "header"; "structure"]%string ++ content_categories.

(** The checks of [validate] that follow [check_bom]. *)
Definition later_checks (sniff : str -> option Csv.Dialect) (s : State) : State :=
  content_checks
    (check_column_consistency
       (check_header_issues
          (parse_csv
             (detect_dialect sniff
                (check_empty_file (check_line_endings s)))))).

(** How often [x] occurs in [l]. *)
Definition occ {A} (eqb : A -> A -> bool) (x : A) (l : list A) : nat :=
  List.length (filter (eqb x) l).

(** [c[k]] for a [Counter]: 0 for a key that is not there. *)
Definition count_of {A} (eqb : A -> A -> bool) (k : A) (c : list (A * nat))
  : nat :=
  match dict_get eqb k c with
  | Some n => n
  | None => 0
  end.

(** [m] is the field count of more than half of the rows. *)
Definition majority_count (rws : list (list str)) (m : nat) : Prop :=
  List.length rws < 2 * occ Nat.eqb m (map (@List.length str) rws).

(** The number of leading rows whose field count is not [m]. *)
Fixpoint preamble (m : nat) (rws : list (list str)) : nat :=
  match rws with
  | [] => 0
  | r :: rest => if List.length r =? m then 0 else S (preamble m rest)
  end.

(** The warning of [check_column_consistency] about [k] metadata rows before
    data of [m] columns. *)
Definition metadata_warning (k m : nat) : Finding :=
  {| category := "structure";
     message := [Lit "File appears to have "; Val (VInt k);
                 Lit " metadata row(s) before tabular data"];
     line := None; column := None;
     extra := [("suggestion"%string,
                [Lit "Data rows have "; Val (VInt m);
                 Lit " columns; first "; Val (VInt k);
                 Lit " row(s) are likely headers/metadata"]);
               ("metadata_rows"%string, [Val (VInt k)])] |}.

(** A title line above a table whose header repeats a reserved name. *)
Definition titled_text : str :=
  ln "Report" ++ ln "id,id" ++ ln "1,2" ++ ln "3,4".

Definition titled_rows : list (list str) :=
  [[of_string "Report"]; [of_string "id"; of_string "id"];
   [of_string "1"; of_string "2"]; [of_string "3"; of_string "4"]].

(** The state [parse_csv] leaves for given rows, starting from a fresh
    validator. *)
Definition parsed_state (rws : list (list str)) : State :=
  set_headers (hd [] rws) (set_rows rws (init some_path)).

(** [s'] differs from [s] at most in its findings. *)
Definition same_data (s s' : State) : Prop :=
  raw_content s' = raw_content s /\ lines s' = lines s
  /\ rows s' = rows s /\ headers s' = headers s
  /\ is_tsv s' = is_tsv s
  /\ metadata_rows_detected s' = metadata_rows_detected s
  /\ metadata_row_count s' = metadata_row_count s.

(** A row written with the delimiter [D] between its fields, and a table
    written with a line feed after each row. *)
Definition render_row (D : char) (row : list str) : str := join [D] row.

Definition render (D : char) (rws : list (list str)) : str :=
  flat_map (fun r => render_row D r ++ [LF]) rws.

(** A field without any of the four candidate delimiters and without a
    line feed. *)
Definition delimiter_free (f : str) : bool :=
  forallb (fun c => negb (existsb (N.eqb c) delimiters) && negb (c =? LF)%N) f.

(** A field with a character that is not white space. *)
Definition not_blank (f : str) : bool := negb (forallb isspace f).

(** The first and the last field of a row are not blank. *)
Definition edges_not_blank (r : list str) : bool :=
  not_blank (hd [] r) && not_blank (last r []).

(** The detection sample holds the whole text, or at least its first 30
    rows. *)
Definition sample_holds (D : char) (rws : list (list str)) : Prop :=
  List.length (render D rws) <= sample_size
  \/ (30 <= List.length rws
      /\ List.length (render D (firstn 30 rws)) <= sample_size).

(** A text of ASCII characters other than NUL. *)
Definition ascii_text (t : str) : Prop :=
  Forall (fun c => (0 < c < 128)%N) t.

(** A printable ASCII character that is neither a quote nor one of the
    candidate delimiters. *)
Definition plain_char (c : char) : bool :=
  between 32 126 c && negb (c =? QUOTE)%N && negb (existsb (N.eqb c) delimiters).

(** A non-empty field of plain characters that neither starts nor ends with
    a space and is at most [max_reasonable_length] characters long. *)
Definition plain_field (f : str) : bool :=
  negb (is_empty f) && forallb plain_char f
  && negb (hd SPACE f =? SPACE)%N && negb (last f SPACE =? SPACE)%N
  && (List.length f <=? max_reasonable_length).

(** A character the [csv.reader] automaton with the delimiter [D] adds to
    the field it is in. *)
Definition ordinary (D : char) (c : char) : Prop :=
  c <> LF /\ c <> CR /\ c <> QUOTE /\ c <> D.





(** A small table of plain fields. *)
Definition people_rows : list (list str) :=
  [[of_string "name"; of_string "age"]; [of_string "alice"; of_string "30"];
   [of_string "bob"; of_string "25"]].

(** The state [read_file] leaves for a UTF-8 file with the given text. *)
Definition read_state (text : str) : State :=
  accept_encoding Codec.UTF_8 text (init some_path).

(** Semicolon-separated decimal numbers written with a comma. *)
Definition decimal_rows : list (list str) :=
  [[of_string "1,5"; of_string "2,5"]; [of_string "3,5"; of_string "4,5"]].

(** No byte-order mark at the start of the bytes. *)
Definition bom_less (raw : Codec.bytes) : bool :=
  negb (bytes_startswith [255; 254; 0; 0]%N raw)
  && negb (bytes_startswith [0; 0; 254; 255]%N raw)
  && negb (bytes_startswith [255; 254]%N raw)
  && negb (bytes_startswith [254; 255]%N raw)
  && negb (bytes_startswith [239; 187; 191]%N raw).

(** The two ratios of [_detect_encoding_from_bytes]: the null bytes at the
    offsets of one parity among the first 1000 bytes, over half the number
    of bytes sampled (rounded down). *)
Definition null_ratio (raw : Codec.bytes) (parity : nat) : Q :=
  (Qnat (count_nulls raw parity)
   / Qnat (Nat.min (List.length raw) 1000 / 2))%Q.

(** The null-byte pattern of UTF-16 text: more than 0.4 at the offsets
    where the high bytes are (odd for little endian, even for big endian)
    and less than 0.1 at the others. *)
Definition utf16_pattern (little : bool) (raw : Codec.bytes) : bool :=
  let high := if little then 1 else 0 in
  Qltb (4 # 10) (null_ratio raw high) && Qltb (null_ratio raw (1 - high)) (1 # 10).

Definition utf16_encoding (little : bool) : Codec.Encoding :=
  if little then Codec.UTF_16_LE else Codec.UTF_16_BE.

Definition utf16_warning (little : bool) : Finding :=
  {| category := "encoding";
     message := [Lit "File is ";
                 Val (VStr (of_string (if little then "UTF-16-LE" else "UTF-16-BE")));
                 Lit " encoded"];
     line := None; column := None; extra := suggest_utf8 |}.

(** The finding of [check_encoding_issues] about null bytes. *)
Definition is_null_bytes_error (f : Finding) : bool :=
  has_category "encoding" f
  && match message f with
     | Lit m :: _ => String.eqb m "File contains null bytes at positions: "
     | _ => false
     end.

(** Five bytes that look like UTF-16-LE and are one byte short of it. *)
Definition truncated_utf16 : Codec.bytes := ["a"; x00; "b"; x00; "c"]%byte.

(** Valid UTF-16-LE without a BOM: the text [a,b], a line feed, [1,2]. *)
Definition plain_utf16 : Codec.bytes :=
  ["a"; x00; ","; x00; "b"; x00; x0a; x00; "1"; x00; ","; x00; "2"; x00]%byte.

(** The dialect the sniffer of CPython returns for the blank scenario: the
    only character it finds on a non-empty line is the space. *)
Definition space_sniff : str -> option Csv.Dialect :=
  fun _ => Some (Csv.excel SPACE).

(** An invocation of the hook triggers validation when the tool is one of
    the three and the path has one of the two extensions. *)
Definition triggers (i : Hook.HookInput) : bool :=
  (Hook.is_tool "Read" (Hook.tool_name i)
   || Hook.is_tool "Write" (Hook.tool_name i)
   || Hook.is_tool "Edit" (Hook.tool_name i))
  && (endswith (of_string ".csv") (lower (Hook.file_path i))
      || endswith (of_string ".tsv") (lower (Hook.file_path i))).

Definition write_request : Hook.HookInput :=
  {| Hook.tool_name := of_string "Write"; Hook.file_path := of_string "out/Data.CSV" |}.

Definition no_sniff : str -> option Csv.Dialect := fun _ => None.

End Props.

(* ================================================================== *)
(** * Vocabulary of the further properties *)
(* ================================================================== *)

Module Extra.
Import Py CSVValidator Props.

(** The categories a run can file an error under, and those it can file a
    warning under. *)
Definition error_categories : list string :=
  ["file"; "encoding"; "content"; "parsing"; "header"; "structure"]%string.

Definition warning_categories : list string :=
  ["encoding"; "format"; "header"; "structure"; "content"; "whitespace";
   "quoting"; "data_type"; "missing_values"; "duplicates"; "special_chars";
   "field_length"]%string.

(** The file can be used: the three tests of [check_file_exists] pass and
    [open] does not raise. *)
Definition usable (f : File) : bool :=
  os_path_exists f && os_path_isfile f && os_access_R_OK f
  && match data f with Some _ => true | None => false end.

(** The one finding of a run on a file that cannot be used. *)
Definition fatal_file_error (f : File) (path : str) : Finding :=
  {| category := "file";
     message :=
       if negb (os_path_exists f)
       then [Lit "File does not exist: "; Val (VStr path)]
       else if negb (os_path_isfile f)
       then [Lit "Path is not a file: "; Val (VStr path)]
       else if negb (os_access_R_OK f)
       then [Lit "File is not readable: "; Val (VStr path)]
       else [Lit "Error reading file: "; Val VOSError];
     line := None; column := None; extra := [] |}.

(** A directory: it exists and is not a regular file. *)
Definition a_directory : File :=
  {| os_path_exists := true; os_path_isfile := false; os_access_R_OK := true;
     data := None |}.

(** The encodings [read_file] tries, in order: the detected one, if any,
    then the five fallbacks. *)
Definition encodings_for (content : Codec.bytes) : list Codec.Encoding :=
  match _detect_encoding_from_bytes (firstn detection_bytes content) with
  | Some e => [e]
  | None => []
  end ++ fallback_encodings.

(** [s'] has the rows, the text, the dialect and the TSV flag of [s]. *)
Definition same_table (s s' : State) : Prop :=
  rows s' = rows s /\ raw_content s' = raw_content s
  /\ detected_dialect s' = detected_dialect s /\ is_tsv s' = is_tsv s.

(** [s'] has the path, the text, the lines and the encoding of [s]. *)
Definition same_source (s s' : State) : Prop :=
  file_path s' = file_path s /\ raw_content s' = raw_content s
  /\ lines s' = lines s /\ detected_encoding s' = detected_encoding s.

(** The warning of [detect_dialect] about a tab-delimited file. *)
Definition tsv_finding : Finding :=
  {| category := "format";
     message := [Lit "Detected tab-separated values (TSV) format"];
     line := None; column := None;
     extra := [("suggestion"%string,
                [Lit "File extension is .csv but content is tab-delimited"])] |}.

(** The warning of [check_bom]. *)
Definition bom_warning : Finding :=
  {| category := "encoding";
     message := [Lit "File contains UTF-8 BOM (Byte Order Mark)"];
     line := Some 1; column := None; extra := [] |}.

(** The warning of [read_file] about an encoding that is neither UTF-8 nor
    UTF-16. *)
Definition not_utf8_warning (e : Codec.Encoding) : Finding :=
  {| category := "encoding";
     message := [Lit "File not in UTF-8 encoding, detected: ";
                 Val (VStr (of_string (Codec.name e)))];
     line := None; column := None; extra := suggest_utf8 |}.

(** The byte-order marks of UTF-16 and of UTF-8. *)
Definition utf16_bom (little : bool) : Codec.bytes :=
  if little then [xff; xfe] else [xfe; xff].

Definition utf8_bom : Codec.bytes := [xef; xbb; xbf].

(** The text [a,b], a line feed, [1,2], a line feed, in Latin-1 with an e
    acute for the [b]. *)
Definition small_latin1 : Codec.bytes :=
  ["a"; ","; xe9; x0a; "1"; ","; "2"; x0a]%byte.

(** A file of one byte, the first byte of the UTF-8 BOM. *)
Definition bom_first_byte : Codec.bytes := [xef]%byte.

(** A text given by its lines: the body of each line and whether it ends
    with CR LF ([true]) or with LF alone ([false]). *)
Definition written (ls : list (str * bool)) : str :=
  flat_map
    (fun l : str * bool => fst l ++ (if snd l then [CR; LF] else [LF])) ls.

Definition crlf_lines (ls : list (str * bool)) : nat :=
  List.length (filter (fun l : str * bool => snd l) ls).

Definition lf_lines (ls : list (str * bool)) : nat :=
  List.length (filter (fun l : str * bool => negb (snd l)) ls).

(** The warning of [check_line_endings]. *)
Definition line_endings_warning (endings : list (string * nat)) : Finding :=
  {| category := "format";
     message := [Lit "Inconsistent line endings detected: ";
                 Val (VLabels endings)];
     line := None; column := None; extra := [] |}.


















(** Two lines that end with CR LF and one that ends with LF. *)
Definition mixed_lines : list (str * bool) :=
  [(of_string "a,b", true); (of_string "1,2", true); (of_string "3,4", false)].

(** The finding of [parse_csv] about a [csv.Error]. *)
Definition parsing_error (e : Csv.Error) : Finding :=
  {| category := "parsing";
     message := [Lit "CSV parsing error: "; Val (VCsvError e)];
     line := None; column := None; extra := [] |}.

(** A state with the text [text], about to be parsed with [csv.excel] and
    the delimiter [D]. *)
Definition detected_state (D : char) (text : str) : State :=
  set_dialect (Csv.excel D) (read_state text).

(** The error of [check_header_issues] about repeated header names. *)
Definition duplicate_error (d : list (str * nat)) : Finding :=
  {| category := "header";
     message := [Lit "Duplicate headers found: "; Val (VCounts d)];
     line := Some 1; column := None; extra := [] |}.

(** The warning of [check_data_type_consistency] about the column
    [col_idx]. *)
Definition mixed_warning (s : State) (col_idx : nat) : Finding :=
  {| category := "data_type";
     message := [Lit "Mixed data types in column '";
                 Val (VStr (col_name s col_idx)); Lit "': ";
                 Val (VLabels (type_summary (column_cells col_idx (tl (rows s)))))];
     line := None; column := Some (col_idx + 1); extra := [] |}.

(** The summary of the column [col_idx] has more than one type. *)
Definition mixed_column (s : State) (col_idx : nat) : bool :=
  1 <? List.length (type_summary (column_cells col_idx (tl (rows s)))).

(** A table with a column of numbers and a column where a word stands
    among the numbers. *)
Definition mixed_rows : list (list str) :=
  [[of_string "n"; of_string "v"]; [of_string "1"; of_string "1"];
   [of_string "2"; of_string "abc"]; [of_string "3"; of_string "3"]].

(** The number of different rows among [l]. *)
Definition row_eq_dec (a b : list str) : {a = b} + {a <> b} :=
  list_eq_dec (list_eq_dec N.eq_dec) a b.

Definition distinct_rows (l : list (list str)) : nat :=
  List.length (nodup row_eq_dec l).

(** The warning of [check_duplicate_rows]. *)
Definition duplicates_warning (total_dups patterns : nat) : Finding :=
  {| category := "duplicates";
     message := [Lit "Found "; Val (VInt total_dups); Lit " duplicate rows (";
                 Val (VInt patterns); Lit " unique patterns repeated)"];
     line := None; column := None; extra := [] |}.

(** A header and four data rows, one of them written three times. *)
Definition repeated_rows : list (list str) :=
  [[of_string "k"; of_string "v"]; [of_string "a"; of_string "1"];
   [of_string "b"; of_string "2"]; [of_string "a"; of_string "1"];
   [of_string "a"; of_string "1"]].

(** The lines, counted from 1, of the rows with [n] fields. *)
Definition lines_with (n : nat) (rws : list (list str)) : list nat :=
  map fst
    (filter (fun p : nat * list str => List.length (snd p) =? n)
       (enumerate 1 rws)).

(** The field counts other than [expected] that occur, each once, in the
    order of the first rows that have them. *)
Definition wrong_counts (expected : nat) (rws : list (list str)) : list nat :=
  map fst
    (Counter Nat.eqb
       (filter (fun n => negb (n =? expected)) (map (@List.length str) rws))).

(** The structure error for the rows on the lines [lns], which have
    [count] columns where [expected] are expected. *)
Definition columns_error (count expected : nat) (lns : list nat) : Finding :=
  {| category := "structure";
     message := [Lit "Rows with "; Val (VInt count); Lit " columns (expected ";
                 Val (VInt expected); Lit "): lines ";
                 Val (VInts (firstn 20 lns));
                 Lit (if 20 <? List.length lns then "..." else "")];
     line := None; column := None;
     extra := [("count"%string, [Val (VInt (List.length lns))])] |}.

(** The values filed under the key [k] among [items], in order. *)
Definition filed_under {K V} (eqb : K -> K -> bool) (k : K)
  (items : list (V * K)) : list V :=
  map fst (filter (fun it : V * K => eqb (snd it) k) items).

(** A header of three columns, rows of two and of four, and two good rows. *)
Definition uneven_rows : list (list str) :=
  [[of_string "a"; of_string "b"; of_string "c"];
   [of_string "1"; of_string "2"];
   [of_string "1"; of_string "2"; of_string "3"];
   [of_string "1"; of_string "2"; of_string "3"; of_string "4"];
   [of_string "5"; of_string "6"];
   [of_string "7"; of_string "8"; of_string "9"]].

(** A field of one character more than the field size limit. *)
Definition long_field : str := repeat 97%N (S (N.to_nat Csv.field_limit)).

(** The row has no value in the column: it is too short, or the stripped
    cell is one of the null representations. *)
Definition missing_cell (col_idx : nat) (row : list str) : bool :=
  match nth_error row col_idx with
  | None => true
  | Some c => str_in (strip c) null_representations
  end.

(** The number of data rows without a value in the column. *)
Definition missing_in (col_idx : nat) (data_rows : list (list str)) : nat :=
  List.length (filter (missing_cell col_idx) data_rows).

(** The warning of [check_missing_values] about a column of which more
    than half is missing. *)
Definition missing_rate_warning (name : str) (count total : nat) : Finding :=
  {| category := "missing_values";
     message := [Lit "Column '"; Val (VStr name); Lit "' has ";
                 Val (VRate count total); Lit " missing values (";
                 Val (VInt count); Lit "/"; Val (VInt total); Lit ")"];
     line := None; column := None; extra := [] |}.

(** The warning of [check_missing_values] about several null
    representations. *)
Definition representations_warning (reps cols : list str) : Finding :=
  {| category := "missing_values";
     message := [Lit "Inconsistent null value representations used: ";
                 Val (VStrs reps)];
     line := None; column := None;
     extra := [("columns"%string, [Val (VStrs cols)])] |}.

(** A table whose second column misses two of its three values. *)
Definition sparse_rows : list (list str) :=
  [[of_string "k"; of_string "v"]; [of_string "a"; of_string "NA"];
   [of_string "b"; of_string "NA"]; [of_string "c"; of_string "3"]].

(** The cell starts with a whitespace character; it ends with one. *)
Definition starts_blank (cell : str) : bool :=
  match cell with
  | [] => false
  | c :: _ => isspace c
  end.

Definition ends_blank (cell : str) : bool := starts_blank (rev cell).

(** The two warnings of [check_whitespace_issues]. *)
Definition whitespace_warning (side : string) (cells : list (nat * nat))
  : Finding :=
  {| category := "whitespace";
     message := [Lit ("Cells with " ++ side ++ " whitespace: ");
                 Val (VInt (List.length cells));
                 Lit " occurrences (e.g., "; Val (VPairs (firstn 10 cells));
                 Lit ")"];
     line := None; column := None;
     extra := [("count"%string, [Val (VInt (List.length cells))])] |}.

(** A character that is neither a quote nor a line boundary of
    [str.splitlines]. *)
Definition quiet (c : char) : Prop := c <> QUOTE /\ is_linebreak c = false.

(** The text of one record of one quoted field, [a] and [b] with a line
    feed between them. *)
Definition quoted_break (a b : str) : str :=
  QUOTE :: a ++ LF :: b ++ [QUOTE; LF].

(** The warning of [check_quoting_issues] about the quotes of a line. *)
Definition odd_quotes_warning (quote_count line_num : nat) : Finding :=
  {| category := "quoting";
     message := [Lit "Odd number of quotes ("; Val (VInt quote_count);
                 Lit ")"];
     line := Some line_num; column := None; extra := [] |}.

(** The spellings of [_is_boolean] that are not numbers. *)
Definition boolean_words : list str :=
  map of_string ["true"; "false"; "yes"; "no"; "y"; "n"; "t"; "f"]%string.

(** The characters [lower_char] sends to [x], for [x] below the Latin-1
    letters, and the texts [lower] sends to [w]. *)
Definition spellings_of_char (x : char) : list char :=
  if between 97 122 x then [x; (x - 32)%N] else [x].

Fixpoint spellings (w : str) : list str :=
  match w with
  | [] => [[]]
  | x :: r => flat_map (fun c => map (cons c) (spellings r)) (spellings_of_char x)
  end.

(** The name [get_results] gives to a delimiter. *)
Definition name_of_delimiter (d : char) : str :=
  if (d =? TAB)%N then of_string "tab"
  else if (d =? COMMA)%N then of_string "comma"
  else if (d =? SEMICOLON)%N then of_string "semicolon"
  else if (d =? PIPE)%N then of_string "pipe"
  else [d].

End Extra.

(* ================================================================== *)
(** * Properties *)
(* ================================================================== *)

Import Py CSVValidator Props.

(** ** Equality tests *)

Lemma eqb_list_spec {A} (eqb : A -> A -> bool) :
  (forall x y, eqb x y = true <-> x = y) ->
  forall a b, eqb_list eqb a b = true <-> a = b.
Proof.
  intros Heq a; induction a as [|x a IH]; intros [|y b]; simpl;
    try (split; [discriminate | discriminate]); try tauto.
  rewrite andb_true_iff, Heq, IH. split.
  - intros [-> ->]; reflexivity.
  - intros H; injection H; auto.
Qed.

Lemma str_eqb_spec (a b : str) : str_eqb a b = true <-> a = b.
Proof. apply eqb_list_spec. intros; apply N.eqb_eq. Qed.

Lemma str_eqb_refl (a : str) : str_eqb a a = true.
Proof. apply str_eqb_spec; reflexivity. Qed.

Lemma row_eqb_spec (a b : list str) : row_eqb a b = true <-> a = b.
Proof. apply eqb_list_spec. apply str_eqb_spec. Qed.

Lemma is_empty_true {A} (l : list A) : is_empty l = true <-> l = [].
Proof. destruct l; simpl; split; congruence. Qed.

Lemma is_empty_false {A} (l : list A) : is_empty l = false <-> l <> [].
Proof. destruct l; simpl; split; congruence. Qed.

(** ** The report of [get_results] *)

Lemma get_results_counts (s : State) :
  error_count (get_results s) = List.length (report_errors (get_results s))
  /\ warning_count (get_results s) = List.length (report_warnings (get_results s))
  /\ valid (get_results s) = (error_count (get_results s) =? 0).
Proof. repeat split. Qed.

(** C1. Every report that [validate] returns has [error_count] equal to the
    number of its errors, [warning_count] equal to the number of its warnings,
    and [valid] true exactly when [error_count] is zero; this covers every
    file, path and sniffer, hence also the runs that stop early because the
    file is missing or cannot be read or decoded. *)
Theorem C1_report_counts :
  forall (sniff : str -> option Csv.Dialect) (f : File) (path : str),
    let r := validate sniff f path in
    error_count r = List.length (report_errors r)
    /\ warning_count r = List.length (report_warnings r)
    /\ valid r = (error_count r =? 0).
Proof. intros sniff f path r. subst r. apply get_results_counts. Qed.

(** C3. On the text ["a,b,c\n1,2,3\n4,5\n"] the report has exactly one error:
    the structure error for rows with 2 columns where 3 are expected, on
    line 3. *)
Theorem C3_short_row_scenario :
  forall (sniff : str -> option Csv.Dialect) (path : str),
    report_errors (validate sniff (text_file ragged_text) path)
    = [short_row_error].
Proof. intros sniff path. vm_compute. reflexivity. Qed.

(** ** The exit status of the hook *)

Lemma is_tool_spec (name : string) (t : str) :
  Hook.is_tool name t = true <-> t = of_string name.
Proof. unfold Hook.is_tool. apply str_eqb_spec. Qed.

(** C9. When an invocation triggers validation, the hook validates the file
    and exits with 0 exactly when the report has no error or the tool is
    Read, and with 1 exactly when the report has an error and the tool is
    Write or Edit.  The warnings of the report play no part. *)
Theorem C9_exit_code :
  forall (sniff : str -> option Csv.Dialect) (fs : str -> File)
         (i : Hook.HookInput),
    triggers i = true ->
    let o := Hook.main sniff fs (Some i) in
    let r := validate sniff (fs (Hook.file_path i)) (Hook.file_path i) in
    Hook.validated o = Some r
    /\ (Hook.exit_code o = 0
        <-> report_errors r = [] \/ Hook.tool_name i = of_string "Read")
    /\ (Hook.exit_code o = 1
        <-> report_errors r <> []
            /\ (Hook.tool_name i = of_string "Write"
                \/ Hook.tool_name i = of_string "Edit")).
Proof.
  intros sniff fs i Ht o r. subst o r. unfold triggers in Ht.
  apply andb_true_iff in Ht. destruct Ht as [Htool Hext].
  unfold Hook.main. rewrite Htool, Hext.
  cbn [negb Hook.validated Hook.exit_code].
  generalize (validate sniff (fs (Hook.file_path i)) (Hook.file_path i)).
  intro r. split; [reflexivity|].
  destruct (report_errors r) as [|e es]; cbn [is_empty negb andb].
  - split; split; intros H; auto.
    + discriminate H.
    + destruct H as [H _]. exfalso. apply H. reflexivity.
  - destruct (Hook.is_tool "Read" (Hook.tool_name i)) eqn:Hr; cbn [negb].
    + apply is_tool_spec in Hr. split; split; intros H; auto.
      * discriminate H.
      * destruct H as [_ [H|H]]; rewrite Hr in H; vm_compute in H; discriminate H.
    + cbn [orb] in Htool. apply orb_true_iff in Htool.
      split; split; intros H.
      * discriminate H.
      * destruct H as [H|H]; [discriminate H|].
        apply is_tool_spec in H. congruence.
      * split; [discriminate|].
        destruct Htool as [Hw|Hw]; apply is_tool_spec in Hw; auto.
      * reflexivity.
Qed.

Lemma C9_exit_code_witness :
  triggers write_request = true
  /\ let o := Hook.main no_sniff (fun _ => text_file ragged_text) (Some write_request) in
     let r := validate no_sniff (text_file ragged_text) (Hook.file_path write_request) in
     Hook.validated o = Some r
     /\ (Hook.exit_code o = 0
         <-> report_errors r = []
             \/ Hook.tool_name write_request = of_string "Read")
     /\ (Hook.exit_code o = 1
         <-> report_errors r <> []
             /\ (Hook.tool_name write_request = of_string "Write"
                 \/ Hook.tool_name write_request = of_string "Edit")).
Proof.
  split; [reflexivity|].
  apply (C9_exit_code no_sniff (fun _ => text_file ragged_text) write_request).
  reflexivity.
Defined.

(** ** What each check appends *)

Lemma adds_only_refl ecats wcats s : adds_only ecats wcats s s.
Proof.
  split; exists []; rewrite app_nil_r; auto.
Qed.

Lemma adds_only_trans ecats wcats s1 s2 s3 :
  adds_only ecats wcats s1 s2 -> adds_only ecats wcats s2 s3 ->
  adds_only ecats wcats s1 s3.
Proof.
  intros [[E1 [He1 HE1]] [W1 [Hw1 HW1]]] [[E2 [He2 HE2]] [W2 [Hw2 HW2]]].
  split.
  - exists (E1 ++ E2). rewrite He2, He1, app_assoc. split; auto.
    apply Forall_app; auto.
  - exists (W1 ++ W2). rewrite Hw2, Hw1, app_assoc. split; auto.
    apply Forall_app; auto.
Qed.

Lemma adds_only_weaken ecats wcats ecats' wcats' s s' :
  incl ecats ecats' -> incl wcats wcats' ->
  adds_only ecats wcats s s' -> adds_only ecats' wcats' s s'.
Proof.
  intros Hi Hj [[E [He HE]] [W [Hw HW]]]. split.
  - exists E; split; auto. eapply Forall_impl; [|exact HE]. auto.
  - exists W; split; auto. eapply Forall_impl; [|exact HW]. auto.
Qed.

Lemma adds_only_same ecats wcats s s' :
  errors s' = errors s -> warnings s' = warnings s ->
  adds_only ecats wcats s s'.
Proof.
  intros He Hw. split; exists []; rewrite app_nil_r; auto.
Qed.

Lemma add_error_adds ecats wcats cat msg ln col ext s :
  In cat ecats -> adds_only ecats wcats s (add_error cat msg ln col ext s).
Proof.
  intros Hin. split.
  - eexists; split; [reflexivity|]. repeat constructor. exact Hin.
  - exists []; rewrite app_nil_r; auto.
Qed.

Lemma add_warning_adds ecats wcats cat msg ln col ext s :
  In cat wcats -> adds_only ecats wcats s (add_warning cat msg ln col ext s).
Proof.
  intros Hin. split.
  - exists []; rewrite app_nil_r; auto.
  - eexists; split; [reflexivity|]. repeat constructor. exact Hin.
Qed.

Lemma fold_left_adds {A} ecats wcats (f : State -> A -> State) (l : list A) :
  (forall s a, adds_only ecats wcats s (f s a)) ->
  forall s, adds_only ecats wcats s (fold_left f l s).
Proof.
  intros Hf. induction l as [|a l IH]; intros s; simpl.
  - apply adds_only_refl.
  - eapply adds_only_trans; [apply Hf | apply IH].
Qed.

(** A warning-only step leaves the errors as they are, and conversely. *)
Lemma adds_only_errors wcats s s' :
  adds_only [] wcats s s' -> errors s' = errors s.
Proof.
  intros [[E [He HE]] _]. destruct E as [|e E].
  - rewrite He, app_nil_r; reflexivity.
  - inversion HE as [|? ? Hin]; subst. destruct Hin.
Qed.

Lemma adds_only_warnings ecats s s' :
  adds_only ecats [] s s' -> warnings s' = warnings s.
Proof.
  intros [_ [W [Hw HW]]]. destruct W as [|w W].
  - rewrite Hw, app_nil_r; reflexivity.
  - inversion HW as [|? ? Hin]; subst. destruct Hin.
Qed.

Ltac adds_step :=
  first
    [ apply adds_only_refl
    | apply add_error_adds; simpl; tauto
    | apply add_warning_adds; simpl; tauto
    | apply adds_only_same; reflexivity ].

Ltac adds_cases :=
  repeat match goal with
         | |- adds_only _ _ _ (if ?c then _ else _) => destruct c
         | |- adds_only _ _ _ (match ?c with _ => _ end) => destruct c
         end;
  try adds_step.

Lemma check_encoding_issues_adds s :
  adds_only ["encoding"%string] [] s (check_encoding_issues s).
Proof.
  unfold check_encoding_issues.
  set (s1 := if contains NUL (raw_content s) then _ else _).
  assert (H1 : adds_only ["encoding"%string] [] s s1) by (subst s1; adds_cases).
  eapply adds_only_trans; [exact H1|]. adds_cases.
Qed.

Lemma check_bom_adds s : adds_only [] ["encoding"%string] s (check_bom s).
Proof. unfold check_bom. adds_cases. Qed.

Lemma check_line_endings_adds s :
  adds_only [] ["format"%string] s (check_line_endings s).
Proof. unfold check_line_endings. adds_cases. Qed.

Lemma check_empty_file_adds s :
  adds_only ["content"%string] [] s (check_empty_file s).
Proof. unfold check_empty_file. adds_cases. Qed.

Lemma tsv_warning_adds s : adds_only [] ["format"%string] s (tsv_warning s).
Proof.
  unfold tsv_warning.
  eapply adds_only_trans;
    [apply adds_only_same with (s' := set_is_tsv true s); reflexivity|].
  apply add_warning_adds; simpl; tauto.
Qed.

Lemma set_dialect_adds ecats wcats d s s' :
  adds_only ecats wcats s s' -> adds_only ecats wcats s (set_dialect d s').
Proof.
  intros H. eapply adds_only_trans; [exact H|].
  apply adds_only_same; reflexivity.
Qed.

Lemma detect_dialect_adds sniff s :
  adds_only [] ["format"%string] s (detect_dialect sniff s).
Proof.
  unfold detect_dialect.
  destruct (_detect_delimiter _) as [d|].
  - apply set_dialect_adds.
    destruct (d =? TAB)%N; [apply tsv_warning_adds | apply adds_only_refl].
  - destruct (sniff _) as [d|].
    + destruct (Csv.delimiter d =? TAB)%N.
      * eapply adds_only_trans; [|apply tsv_warning_adds].
        apply adds_only_same; reflexivity.
      * apply adds_only_same; reflexivity.
    + apply set_dialect_adds. apply add_warning_adds; simpl; tauto.
Qed.

Lemma parse_csv_adds s : adds_only ["parsing"%string] [] s (parse_csv s).
Proof.
  unfold parse_csv. destruct (Csv.reader _ _) as [new_rows err].
  set (s1 := set_rows _ s).
  set (s2 := match new_rows with [] => s1 | _ => _ end).
  assert (H2 : adds_only ["parsing"%string] [] s s2).
  { subst s2 s1. destruct new_rows; apply adds_only_same; reflexivity. }
  eapply adds_only_trans; [exact H2|]. adds_cases.
Qed.

Lemma near_duplicates_adds all hs normalized s :
  adds_only ["header"%string] ["header"%string] s
    (near_duplicates all hs normalized s).
Proof.
  revert normalized s. induction hs as [|[i h] hs IH]; intros normalized s; simpl.
  - apply adds_only_refl.
  - destruct (dict_get _ _ _).
    + eapply adds_only_trans; [|apply IH]. adds_step.
    + apply IH.
Qed.

Lemma check_header_issues_adds s :
  adds_only ["header"%string] ["header"%string] s (check_header_issues s).
Proof.
  unfold check_header_issues.
  destruct (is_empty (headers s)); [adds_step|].
  set (s1 := if is_empty (empty_cols (headers s)) then s else _).
  assert (H1 : adds_only ["header"%string] ["header"%string] s s1)
    by (subst s1; adds_cases).
  set (s2 := if is_empty (duplicate_headers (headers s1)) then s1 else _).
  assert (H2 : adds_only ["header"%string] ["header"%string] s1 s2)
    by (subst s2; adds_cases).
  set (s3 := near_duplicates _ _ _ s2).
  assert (H3 : adds_only ["header"%string] ["header"%string] s2 s3)
    by (subst s3; apply near_duplicates_adds).
  eapply adds_only_trans; [exact H1|].
  eapply adds_only_trans; [exact H2|].
  eapply adds_only_trans; [exact H3|].
  adds_cases.
Qed.

Lemma resolve_expected_adds s :
  adds_only ["structure"%string] ["structure"%string] s (snd (resolve_expected s)).
Proof.
  unfold resolve_expected.
  destruct (match most_common_1 _ with Some p => p | None => (0, 0) end)
    as [most_common_count most_common_freq].
  destruct (Qltb _ _ && negb _).
  - destruct (0 <? _).
    + destruct (_ <? _); simpl.
      * eapply adds_only_trans; [|apply adds_only_same; reflexivity].
        eapply adds_only_trans; [|apply add_warning_adds; simpl; tauto].
        apply adds_only_same; reflexivity.
      * eapply adds_only_trans; [|apply add_warning_adds; simpl; tauto].
        apply adds_only_same; reflexivity.
    + simpl. apply adds_only_same; reflexivity.
  - simpl. apply adds_only_same; reflexivity.
Qed.

Lemma structure_error_adds expected group s :
  adds_only ["structure"%string] ["structure"%string] s
    (structure_error expected group s).
Proof. unfold structure_error. destruct group. adds_step. Qed.

Lemma check_column_consistency_adds s :
  adds_only ["structure"%string] ["structure"%string] s
    (check_column_consistency s).
Proof.
  unfold check_column_consistency.
  destruct (is_empty (rows s)); [adds_step|].
  pose proof (resolve_expected_adds s) as H.
  destruct (resolve_expected s) as [expected s1]. simpl in H.
  eapply adds_only_trans; [exact H|].
  apply fold_left_adds. intros; apply structure_error_adds.
Qed.

Lemma check_empty_rows_adds s :
  adds_only [] ["content"%string] s (check_empty_rows s).
Proof. unfold check_empty_rows. adds_cases. Qed.

Lemma check_whitespace_issues_adds s :
  adds_only [] ["whitespace"%string] s (check_whitespace_issues s).
Proof.
  unfold check_whitespace_issues.
  set (s1 := if is_empty (cells_where _ (rows s)) then s else _).
  assert (H1 : adds_only [] ["whitespace"%string] s s1) by (subst s1; adds_cases).
  eapply adds_only_trans; [exact H1|]. adds_cases.
Qed.

Lemma check_quoting_issues_adds s :
  adds_only [] ["quoting"%string] s (check_quoting_issues s).
Proof.
  unfold check_quoting_issues.
  eapply adds_only_trans.
  - apply fold_left_adds with (f := odd_quotes).
    intros s0 [n l]. unfold odd_quotes. adds_cases.
  - apply fold_left_adds. intros s0 [n l]. unfold unescaped_quote. adds_cases.
Qed.

Lemma check_data_type_consistency_adds s :
  adds_only [] ["data_type"%string] s (check_data_type_consistency s).
Proof.
  unfold check_data_type_consistency.
  destruct (_ <? 2); [adds_step|].
  apply fold_left_adds. intros s0 c. unfold check_column_types. adds_cases.
Qed.

Lemma check_missing_values_adds s :
  adds_only [] ["missing_values"%string] s (check_missing_values s).
Proof.
  unfold check_missing_values.
  destruct (_ <? 2); [adds_step|].
  destruct (is_empty _); [adds_step|].
  set (s1 := if 1 <? _ then _ else s).
  assert (H1 : adds_only [] ["missing_values"%string] s s1)
    by (subst s1; adds_cases).
  eapply adds_only_trans; [exact H1|].
  apply fold_left_adds. intros s0 kv. unfold high_missing_rate. adds_cases.
Qed.

Lemma check_duplicate_rows_adds s :
  adds_only [] ["duplicates"%string] s (check_duplicate_rows s).
Proof. unfold check_duplicate_rows. adds_cases. Qed.

Lemma check_special_characters_adds s :
  adds_only [] ["special_chars"%string] s (check_special_characters s).
Proof.
  unfold check_special_characters.
  apply fold_left_adds. intros s0 [name locations]. adds_step.
Qed.

Lemma check_field_length_adds s :
  adds_only [] ["field_length"%string] s (check_field_length s).
Proof. unfold check_field_length. adds_cases. Qed.

Ltac adds_chain lem :=
  eapply adds_only_trans;
  [| eapply adds_only_weaken; [| | apply lem];
     unfold content_categories; intros ? ?; simpl in *; tauto ].

Lemma content_checks_adds s :
  adds_only [] content_categories s (content_checks s).
Proof.
  unfold content_checks.
  adds_chain check_field_length_adds.
  adds_chain check_special_characters_adds.
  adds_chain check_duplicate_rows_adds.
  adds_chain check_missing_values_adds.
  adds_chain check_data_type_consistency_adds.
  adds_chain check_quoting_issues_adds.
  adds_chain check_whitespace_issues_adds.
  eapply adds_only_weaken; [| | apply check_empty_rows_adds];
    unfold content_categories; intros ? ?; simpl in *; tauto.
Qed.

Lemma run_checks_unfold sniff s :
  run_checks sniff s
  = content_checks
      (check_column_consistency
         (check_header_issues
            (parse_csv
               (detect_dialect sniff
                  (check_empty_file
                     (check_line_endings
                        (check_bom (check_encoding_issues s)))))))).
Proof. unfold run_checks, content_checks. reflexivity. Qed.

(** ** The blank-text scenario *)

Local Arguments N.eqb : simpl nomatch.

Ltac eqb_known :=
  match goal with
  | H : (?a =? ?b)%N = _ |- context [(?a =? ?b)%N] => rewrite H
  end.

Ltac eqb_split :=
  match goal with
  | |- context [(?a =? ?b)%N] =>
      let E := fresh "E" in
      destruct (a =? b)%N eqn:E; [apply N.eqb_eq in E; subst |]
  end.

(** Whatever the dialect, the third line of the blank text is a record with
    at least one field. *)
Lemma blank_line_3 d :
  exists r, r <> [] /\
    Csv.feed_line d Csv.parse_reset [SPACE; SPACE; LF]
    = inl {| Csv.state := Csv.START_RECORD; Csv.field := []; Csv.fields := r |}.
Proof.
  destruct d as [dl q dq sk].
  unfold Csv.feed_line, Csv.feed, Csv.parse_process_char, Csv.start_field,
    Csv.parse_add_char, Csv.parse_save_field, Csv.set_state, Csv.parse_reset,
    Csv.is_newline.
  destruct dq, sk;
    repeat (cbn; repeat eqb_known; try eqb_split);
    (eexists; split; [|reflexivity]; discriminate).
Qed.

Lemma blank_rows d :
  exists r, r <> [] /\ Csv.reader d blank_text = ([[]; []; r], None).
Proof.
  destruct (blank_line_3 d) as [r [Hr H3]].
  exists r. split; [exact Hr|].
  unfold Csv.reader.
  change (io_lines blank_text) with [[LF]; [LF]; [SPACE; SPACE; LF]].
  unfold Csv.records.
  change (Csv.feed_line d Csv.parse_reset [LF])
    with (@inl Csv.Reader Csv.Error Csv.parse_reset).
  cbn [Csv.state Csv.parse_reset Csv.state_eqb Csv.fields].
  rewrite H3. reflexivity.
Qed.

Lemma detect_dialect_fields sniff s :
  raw_content (detect_dialect sniff s) = raw_content s
  /\ rows (detect_dialect sniff s) = rows s
  /\ headers (detect_dialect sniff s) = headers s
  /\ lines (detect_dialect sniff s) = lines s.
Proof.
  unfold detect_dialect.
  destruct (_detect_delimiter _) as [d|].
  - destruct (d =? TAB)%N; repeat split.
  - destruct (sniff _) as [d|].
    + destruct (Csv.delimiter d =? TAB)%N; repeat split.
    + repeat split.
Qed.

(** Two empty rows followed by a non-empty one: the expected column count is
    0, and the third row is the one inconsistent row. *)
Lemma blank_column_errors s r :
  rows s = [[]; []; r] -> r <> [] -> headers s = [] ->
  errors (check_column_consistency s)
  = errors s ++ [row_count_error (List.length r) 0 [3]].
Proof.
  intros Hrows Hr Hh. destruct s. cbn in Hrows, Hh. subst.
  destruct r as [|c r]; [contradiction|].
  vm_compute. reflexivity.
Qed.

Lemma blank_read path :
  read_file (text_file blank_text) (init path)
  = (accept_encoding Codec.UTF_8 blank_text (init path), true).
Proof. reflexivity. Qed.

Lemma blank_errors sniff path :
  exists r : list str, r <> [] /\
    errors (final_state sniff (text_file blank_text) path)
    = [empty_file_error; no_headers_error; row_count_error (List.length r) 0 [3]].
Proof.
  unfold final_state.
  change (check_file_exists (text_file blank_text) (init path))
    with (init path, true).
  cbn [negb]. rewrite blank_read. cbn [negb].
  rewrite run_checks_unfold.
  set (sA := check_empty_file _).
  assert (HA : errors sA = [empty_file_error] /\ raw_content sA = blank_text
               /\ rows sA = [] /\ headers sA = []).
  { subst sA. repeat split. }
  destruct HA as [HAe [HAt [HAr HAh]]].
  destruct (detect_dialect_fields sniff sA) as [HBt [HBr [HBh _]]].
  pose proof (adds_only_errors (detect_dialect_adds sniff sA)) as HBe.
  set (sB := detect_dialect sniff sA) in *.
  destruct (blank_rows (the_dialect sB)) as [r [Hr Hread]].
  exists r. split; [exact Hr|].
  rewrite (adds_only_errors (content_checks_adds _)).
  rewrite blank_column_errors with (r := r); auto.
  - unfold check_header_issues, parse_csv.
    rewrite HBt, HAt, Hread. cbn. rewrite HBe, HAe. reflexivity.
  - unfold check_header_issues, parse_csv.
    rewrite HBt, HAt, Hread. cbn. rewrite HBr, HAr. reflexivity.
  - unfold check_header_issues, parse_csv.
    rewrite HBt, HAt, Hread. cbn. reflexivity.
Qed.

(** C7, as amended.  On the text ["\n\n  \n"] the report has three errors,
    whatever the sniffer answers: the content error "File is empty or
    contains only whitespace", then the header error "No headers found (file
    may be empty)", then one structure error for line 3, whose row is not
    empty while 0 columns are expected. *)
Theorem C7_blank_scenario :
  forall (sniff : str -> option Csv.Dialect) (path : str),
  exists k, 0 < k
    /\ report_errors (validate sniff (text_file blank_text) path)
       = [empty_file_error; no_headers_error; row_count_error k 0 [3]].
Proof.
  intros sniff path. destruct (blank_errors sniff path) as [r [Hr He]].
  exists (List.length r). split.
  - destruct r; [contradiction | simpl; lia].
  - exact He.
Qed.

(** C7 as stated fails: the content error is not the only error, both when
    the sniffer gives up and when it answers as CPython's does. *)
Lemma C7_blank_scenario_counterexample :
  report_errors (validate no_sniff (text_file blank_text) some_path)
  = [empty_file_error; no_headers_error; row_count_error 1 0 [3]]
  /\ report_errors (validate space_sniff (text_file blank_text) some_path)
     = [empty_file_error; no_headers_error; row_count_error 3 0 [3]].
Proof. split; vm_compute; reflexivity. Qed.

(** ** The decode loop of [read_file] *)

Lemma accept_encoding_errors e text s :
  errors (accept_encoding e text s) = errors s.
Proof.
  unfold accept_encoding. destruct (is_utf8 e); [reflexivity|].
  destruct (is_utf16 e); reflexivity.
Qed.

Lemma latin1_decodes content :
  Codec.decode Codec.LATIN_1 content = Some (map Codec.ord content).
Proof. reflexivity. Qed.

(** The loop of [read_file] accepts the first encoding that decodes. *)
Lemma try_encodings_first encodings content s :
  try_encodings encodings content s
  = match first_decoding encodings content with
    | Some (e, text) => (accept_encoding e text s, true)
    | None =>
        (add_error "encoding"
           [Lit "Could not decode file with any common encoding"]
           None None [] s, false)
    end.
Proof.
  induction encodings as [|e0 rest IH]; simpl; [reflexivity|].
  destruct (Codec.decode e0 content); [reflexivity | exact IH].
Qed.

(** With Latin-1 in the list, some encoding decodes: Latin-1 at the latest. *)
Lemma first_decoding_stops (before after : list Codec.Encoding) content :
  exists e text,
    In e (before ++ [Codec.LATIN_1])
    /\ Codec.decode e content = Some text
    /\ first_decoding (before ++ Codec.LATIN_1 :: after) content = Some (e, text).
Proof.
  induction before as [|e0 before IH]; simpl.
  - exists Codec.LATIN_1, (map Codec.ord content). auto.
  - destruct (Codec.decode e0 content) as [text|] eqn:Hd.
    + exists e0, text. auto.
    + destruct IH as [e [text [Hin [Hdec Htry]]]].
      exists e, text. auto.
Qed.

(** C6. Whatever the bytes of the file, the decode loop of [read_file] ends
    with a successful decode: by the detected encoding, UTF-8, UTF-8 with BOM
    or, at the latest, Latin-1.  [read_file] then returns [True] without
    recording an error, so that the branch of the fatal error "Could not
    decode file with any common encoding" is not taken, and a run on a
    readable regular file goes on to the checks. *)
Theorem C6_decode_never_fails :
  forall (sniff : str -> option Csv.Dialect) (f : File)
         (content : Codec.bytes) (path : str),
    data f = Some content ->
    exists e text,
      Codec.decode e content = Some text
      /\ (Some e = _detect_encoding_from_bytes (firstn detection_bytes content)
          \/ In e [Codec.UTF_8; Codec.UTF_8_SIG; Codec.LATIN_1])
      /\ (forall s, read_file f s = (accept_encoding e text s, true)
                    /\ errors (fst (read_file f s)) = errors s)
      /\ (check_file_exists f (init path) = (init path, true) ->
          final_state sniff f path
          = run_checks sniff (accept_encoding e text (init path))).
Proof.
  intros sniff f content path Hdata.
  set (detected := _detect_encoding_from_bytes (firstn detection_bytes content)).
  set (before := match detected with Some e => [e] | None => [] end
                 ++ [Codec.UTF_8; Codec.UTF_8_SIG]).
  destruct (first_decoding_stops before [Codec.CP1252; Codec.ISO_8859_1] content)
    as [e [text [Hin [Hdec Hfirst]]]].
  assert (Hread : forall s, read_file f s = (accept_encoding e text s, true)).
  { intros s. unfold read_file. rewrite Hdata. fold detected.
    rewrite try_encodings_first.
    replace (match detected with Some e0 => [e0] | None => [] end
             ++ fallback_encodings)
      with (before ++ Codec.LATIN_1 :: [Codec.CP1252; Codec.ISO_8859_1]).
    - rewrite Hfirst. reflexivity.
    - subst before. rewrite <- app_assoc. reflexivity. }
  exists e, text. split; [exact Hdec|]. split; [|split].
  - subst before. destruct detected as [d|]; simpl in Hin.
    + destruct Hin as [H|Hin]; [left; congruence | right; simpl; tauto].
    + right; simpl; tauto.
  - intros s. split; [apply Hread|].
    rewrite Hread. apply accept_encoding_errors.
  - intros Hexists. unfold final_state. rewrite Hexists. cbn [negb].
    rewrite Hread. reflexivity.
Qed.

Lemma C6_decode_never_fails_witness :
  data (text_file ragged_text) = Some (encode_latin1 ragged_text)
  /\ exists e text,
      Codec.decode e (encode_latin1 ragged_text) = Some text
      /\ (Some e = _detect_encoding_from_bytes (firstn detection_bytes (encode_latin1 ragged_text))
          \/ In e [Codec.UTF_8; Codec.UTF_8_SIG; Codec.LATIN_1])
      /\ (forall s, read_file (text_file ragged_text) s
                    = (accept_encoding e text s, true)
                    /\ errors (fst (read_file (text_file ragged_text) s)) = errors s)
      /\ (check_file_exists (text_file ragged_text) (init some_path)
          = (init some_path, true) ->
          final_state no_sniff (text_file ragged_text) some_path
          = run_checks no_sniff (accept_encoding e text (init some_path))).
Proof.
  split; [reflexivity|].
  apply (@C6_decode_never_fails no_sniff (text_file ragged_text)
           (encode_latin1 ragged_text) some_path).
  reflexivity.
Defined.

(** ** Short rows in the missing-value check *)

Lemma missing_step_shift col n reps row k :
  missing_step col (n + k, reps) row
  = (fst (missing_step col (n, reps) row) + k,
     snd (missing_step col (n, reps) row)).
Proof.
  unfold missing_step. destruct (nth_error row col) as [c|].
  - destruct (str_in (strip c) null_representations); simpl; f_equal; lia.
  - simpl; f_equal; lia.
Qed.

Lemma fold_missing_shift col l : forall n reps k,
  fold_left (missing_step col) l (n + k, reps)
  = (fst (fold_left (missing_step col) l (n, reps)) + k,
     snd (fold_left (missing_step col) l (n, reps))).
Proof.
  induction l as [|row l IH]; intros n reps k; cbn [fold_left].
  - reflexivity.
  - rewrite missing_step_shift.
    destruct (missing_step col (n, reps) row) as [n' reps']. cbn [fst snd].
    apply IH.
Qed.

(** A row that does not reach the column counts once and records nothing. *)
Lemma column_missing_short_row col pre row post :
  List.length row <= col ->
  column_missing col (pre ++ row :: post)
  = (S (fst (column_missing col (pre ++ post))),
     snd (column_missing col (pre ++ post))).
Proof.
  intros Hshort. unfold column_missing. rewrite !fold_left_app.
  cbn [fold_left].
  destruct (fold_left (missing_step col) pre (0, [])) as [n reps].
  assert (Hnone : nth_error row col = None) by (apply nth_error_None; exact Hshort).
  replace (missing_step col (n, reps) row) with (n + 1, reps)
    by (unfold missing_step; rewrite Hnone; reflexivity).
  rewrite fold_missing_shift. f_equal. lia.
Qed.

(** C10. In the missing-value check a data row with fewer fields than a
    column index contributes exactly one to the missing count of that column
    and leaves the set of spellings as it is.  As a consequence there is a
    file, none of whose cells is a null token, for which the check reports a
    missing rate above 50%: the one with the rows [a,b], [1], [2], [3,x],
    whose column [b] misses 2 of 3. *)
Theorem C10_short_rows_count_as_missing :
  (forall (col : nat) (pre : list (list str)) (row : list str)
          (post : list (list str)),
      List.length row <= col ->
      column_missing col (pre ++ row :: post)
      = (S (fst (column_missing col (pre ++ post))),
         snd (column_missing col (pre ++ post))))
  /\ (let s := final_state no_sniff (text_file short_rows_text) some_path in
      rows s = short_rows
      /\ forallb (forallb (fun cell => negb (is_null_token cell))) (rows s) = true
      /\ missing_by_col s = [(of_string "b", (2, []))]
      /\ warnings s = [high_missing_warning "b" 2 3]).
Proof.
  split.
  - intros col pre row post. apply column_missing_short_row.
  - vm_compute. repeat split.
Qed.

Lemma C10_short_rows_count_as_missing_witness :
  List.length [of_string "1"] <= 1
  /\ column_missing 1 ([[of_string "0"; of_string "x"]]
                       ++ [of_string "1"] :: [[of_string "2"]])
     = (S (fst (column_missing 1 ([[of_string "0"; of_string "x"]]
                                   ++ [[of_string "2"]]))),
        snd (column_missing 1 ([[of_string "0"; of_string "x"]]
                               ++ [[of_string "2"]]))).
Proof.
  split; [simpl; lia|].
  apply (proj1 C10_short_rows_count_as_missing 1
           [[of_string "0"; of_string "x"]] [of_string "1"] [[of_string "2"]]).
  simpl; lia.
Defined.

(** ** UTF-16 without a byte-order mark *)

Lemma Qltb_lt (a b : Q) : Qltb a b = true <-> (a < b)%Q.
Proof.
  unfold Qltb. rewrite negb_true_iff. split.
  - intros H. apply Qnot_le_lt. intros Hle.
    apply Qle_bool_iff in Hle. congruence.
  - intros H. destruct (Qle_bool b a) eqn:E; [|reflexivity].
    apply Qle_bool_iff in E. exfalso. apply (Qlt_not_le _ _ H E).
Qed.

(** A ratio cannot be above 0.4 and below 0.1. *)
Lemma Qltb_thresholds (x : Q) :
  Qltb (4 # 10) x = true -> Qltb x (1 # 10) = false.
Proof.
  intros H. apply Qltb_lt in H.
  destruct (Qltb x (1 # 10)) eqn:E; [|reflexivity].
  apply Qltb_lt in E. exfalso.
  assert (H1 : (4 # 10 < 1 # 10)%Q) by (eapply Qlt_trans; eauto).
  revert H1. unfold Qlt. simpl. lia.
Qed.

Lemma detect_utf16 (little : bool) (raw : Codec.bytes) :
  bom_less raw = true -> 4 <= List.length raw ->
  utf16_pattern little raw = true ->
  _detect_encoding_from_bytes raw = Some (utf16_encoding little).
Proof.
  unfold bom_less, utf16_pattern, null_ratio. intros Hbom Hlen Hpat.
  repeat rewrite andb_true_iff in Hbom. repeat rewrite negb_true_iff in Hbom.
  destruct Hbom as [[[[H1 H2] H3] H4] H5].
  apply andb_true_iff in Hpat. destruct Hpat as [Hhigh Hlow].
  unfold _detect_encoding_from_bytes. rewrite H1, H2, H3, H4, H5.
  assert (Hl : (4 <=? List.length raw) = true) by (apply Nat.leb_le; exact Hlen).
  rewrite Hl.
  assert (Hs : (0 <? Nat.min (List.length raw) 1000 / 2) = true).
  { apply Nat.ltb_lt.
    assert (4 <= Nat.min (List.length raw) 1000) by (apply Nat.min_glb; lia).
    assert (4 / 2 <= Nat.min (List.length raw) 1000 / 2)
      by (apply Nat.Div0.div_le_mono; assumption).
    change (4 / 2) with 2 in *. lia. }
  rewrite Hs. cbv zeta.
  destruct little; cbn [Nat.sub] in Hlow.
  - rewrite Hhigh, Hlow. reflexivity.
  - rewrite (Qltb_thresholds _ Hhigh), andb_false_r, Hhigh, Hlow. reflexivity.
Qed.

(** The first code point of decoded UTF-16 is U+FEFF only when the bytes
    start with the byte-order mark. *)
Lemma ord_bound (b : byte) : (Codec.ord b < 256)%N.
Proof. unfold Codec.ord. pose proof (Byte.to_N_bounded b). lia. Qed.

Lemma Some_cons_inj {A} (a c : A) (s t : list A) :
  Some (a :: s) = Some (c :: t) -> a = c /\ s = t.
Proof. intros H. injection H as H1 H2. auto. Qed.

Lemma combine16_head us c t :
  Codec.combine16 us = Some (c :: t) -> (c < 65536)%N ->
  exists r, us = c :: r.
Proof.
  destruct us as [|u r]; cbn [Codec.combine16]; [discriminate|].
  unfold between.
  destruct ((55296 <=? u)%N && (u <=? 56319)%N) eqn:Hh.
  - destruct r as [|l r']; [discriminate|].
    destruct ((56320 <=? l)%N && (l <=? 57343)%N); [|discriminate].
    destruct (Codec.combine16 r'); cbn [option_map]; [|discriminate].
    intros H Hc. apply Some_cons_inj in H as [H _]. exfalso.
    unfold char in *. lia.
  - destruct ((56320 <=? u)%N && (u <=? 57343)%N); [discriminate|].
    destruct (Codec.combine16 r); cbn [option_map]; [|discriminate].
    intros H _. apply Some_cons_inj in H as [H _]. subst. eauto.
Qed.

Lemma utf16_bom_bytes (little : bool) (content : Codec.bytes) (t : str) :
  Codec.decode (utf16_encoding little) content = Some (BOM_CHAR :: t) ->
  firstn 2 (map Codec.ord content)
  = if little then [255; 254]%N else [254; 255]%N.
Proof.
  intros Hdec.
  assert (H : Codec.utf16 little (map Codec.ord content) = Some (BOM_CHAR :: t))
    by (destruct little; exact Hdec).
  clear Hdec. unfold Codec.utf16 in H.
  destruct (Codec.units16 little (map Codec.ord content)) as [us|] eqn:Hu;
    [|discriminate].
  destruct (combine16_head _ H) as [r Hr]; [reflexivity|]. subst us.
  destruct content as [|b0 [|b1 rest]]; cbn [map Codec.units16] in Hu;
    try discriminate.
  destruct (Codec.units16 little (map Codec.ord rest)); cbn [option_map] in Hu;
    [|discriminate].
  apply Some_cons_inj in Hu as [Hu _].
  pose proof (ord_bound b0). pose proof (ord_bound b1).
  unfold BOM_CHAR in Hu. cbn [map firstn].
  destruct little.
  - assert (Codec.ord b0 = 255%N /\ Codec.ord b1 = 254%N) as [-> ->] by lia.
    reflexivity.
  - assert (Codec.ord b0 = 254%N /\ Codec.ord b1 = 255%N) as [-> ->] by lia.
    reflexivity.
Qed.

Lemma detection_prefix (content : Codec.bytes) :
  firstn 2 (map Codec.ord (firstn detection_bytes content))
  = firstn 2 (map Codec.ord content).
Proof.
  rewrite <- firstn_map, firstn_firstn. reflexivity.
Qed.

Lemma bom_less_first_two (raw : Codec.bytes) :
  bom_less raw = true ->
  firstn 2 (map Codec.ord raw) <> [255; 254]%N
  /\ firstn 2 (map Codec.ord raw) <> [254; 255]%N.
Proof.
  unfold bom_less, bytes_startswith. intros Hbom.
  repeat rewrite andb_true_iff in Hbom. repeat rewrite negb_true_iff in Hbom.
  destruct Hbom as [[[[_ _] H3] H4] _].
  cbn [List.length] in H3, H4.
  split; intros E; rewrite E in *; discriminate.
Qed.

Lemma bom_less_no_bom_char (little : bool) (content : Codec.bytes) (text : str) :
  bom_less (firstn detection_bytes content) = true ->
  Codec.decode (utf16_encoding little) content = Some text ->
  startswith [BOM_CHAR] text = false.
Proof.
  intros Hbom Hdec.
  destruct (startswith [BOM_CHAR] text) eqn:Hs; [|reflexivity].
  exfalso. unfold startswith in Hs. apply str_eqb_spec in Hs.
  destruct text as [|c t]; [discriminate|]. cbn [List.length firstn] in Hs.
  injection Hs as Hs. subst c.
  pose proof (utf16_bom_bytes little content Hdec) as Hb.
  apply bom_less_first_two in Hbom. rewrite detection_prefix, Hb in Hbom.
  destruct Hbom as [H3 H4]. destruct little; auto.
Qed.

Ltac adds_later lem :=
  eapply adds_only_trans;
  [| eapply adds_only_weaken; [| | apply lem];
     unfold later_error_categories, later_warning_categories, content_categories;
     intros ? ?; simpl in *; tauto ].

Lemma later_checks_adds sniff s :
  adds_only later_error_categories later_warning_categories s
    (later_checks sniff s).
Proof.
  unfold later_checks.
  adds_later content_checks_adds.
  adds_later check_column_consistency_adds.
  adds_later check_header_issues_adds.
  adds_later parse_csv_adds.
  adds_later detect_dialect_adds.
  adds_later check_empty_file_adds.
  eapply adds_only_weaken; [| | apply check_line_endings_adds];
    unfold later_error_categories, later_warning_categories, content_categories;
    intros ? ?; simpl in *; tauto.
Qed.

Lemma run_checks_later sniff s :
  run_checks sniff s = later_checks sniff (check_bom (check_encoding_issues s)).
Proof. unfold run_checks, later_checks, content_checks. reflexivity. Qed.

(** Findings of other categories do not change what a category holds. *)
Lemma adds_only_filter_warnings c ecats wcats s s' :
  adds_only ecats wcats s s' -> ~ In c wcats ->
  filter (has_category c) (warnings s') = filter (has_category c) (warnings s).
Proof.
  intros [_ [W [Hw HW]]] Hc. rewrite Hw, filter_app. clear Hw.
  replace (filter (has_category c) W) with (@nil Finding);
    [apply app_nil_r|].
  symmetry. induction HW as [|w W Hin _ IH]; simpl; [reflexivity|].
  unfold has_category at 1. destruct (String.eqb_spec (category w) c).
  - subst c. contradiction.
  - exact IH.
Qed.

Lemma adds_only_null_bytes ecats wcats s s' :
  adds_only ecats wcats s s' -> ~ In "encoding"%string ecats ->
  existsb is_null_bytes_error (errors s')
  = existsb is_null_bytes_error (errors s).
Proof.
  intros [[E [He HE]] _] Hc. rewrite He, existsb_app. clear He.
  replace (existsb is_null_bytes_error E) with false; [apply orb_false_r|].
  symmetry. induction HE as [|e E Hin _ IH]; simpl; [reflexivity|].
  rewrite IH, orb_false_r. unfold is_null_bytes_error, has_category.
  destruct (String.eqb_spec (category e) "encoding").
  - rewrite e0 in Hin. contradiction.
  - reflexivity.
Qed.

(** With a UTF-16 encoding detected, [check_encoding_issues] does not report
    null bytes. *)
Lemma check_encoding_issues_utf16 s :
  encoding_is_utf16 s = true ->
  existsb is_null_bytes_error (errors (check_encoding_issues s))
  = existsb is_null_bytes_error (errors s)
  /\ warnings (check_encoding_issues s) = warnings s
  /\ raw_content (check_encoding_issues s) = raw_content s
  /\ detected_encoding (check_encoding_issues s) = detected_encoding s.
Proof.
  intros H16. unfold check_encoding_issues. rewrite H16. cbn [negb].
  replace (if contains NUL (raw_content s) then s else s) with s
    by (destruct (contains NUL (raw_content s)); reflexivity).
  destruct (contains REPLACEMENT (raw_content s)); [|auto].
  cbn [errors warnings raw_content detected_encoding add_error set_errors].
  rewrite existsb_app. cbn. rewrite orb_false_r. auto.
Qed.

Lemma accept_utf16 (little : bool) (text : str) (s : State) :
  warnings (accept_encoding (utf16_encoding little) text s)
  = warnings s ++ [utf16_warning little]
  /\ errors (accept_encoding (utf16_encoding little) text s) = errors s
  /\ raw_content (accept_encoding (utf16_encoding little) text s) = text
  /\ encoding_is_utf16 (accept_encoding (utf16_encoding little) text s) = true
  /\ detected_encoding (accept_encoding (utf16_encoding little) text s)
     = Some (utf16_encoding little).
Proof. destruct little; repeat split. Qed.

(** C5, as amended.  For a readable regular file whose first 4096 bytes
    have no byte-order mark, are at least 4 and show the UTF-16 null-byte
    pattern (the nulls at the odd offsets of the first 1000 bytes are more
    than 0.4 of half the sample and those at the even offsets less than 0.1
    of it, or the other way round for big endian), the detector answers
    utf-16-le (utf-16-be).  When in addition the whole file decodes in that
    encoding, the report has exactly one warning of category encoding, the
    one naming the encoding, and no null-byte error. *)
Theorem C5_utf16_without_bom :
  forall (sniff : str -> option Csv.Dialect) (content : Codec.bytes)
         (path : str) (little : bool),
    let raw := firstn detection_bytes content in
    bom_less raw = true -> 4 <= List.length raw ->
    utf16_pattern little raw = true ->
    _detect_encoding_from_bytes raw = Some (utf16_encoding little)
    /\ forall text,
        Codec.decode (utf16_encoding little) content = Some text ->
        let r := validate sniff (regular_file content) path in
        filter (has_category "encoding") (report_warnings r)
        = [utf16_warning little]
        /\ existsb is_null_bytes_error (report_errors r) = false.
Proof.
  intros sniff content path little raw Hbom Hlen Hpat.
  pose proof (detect_utf16 little raw Hbom Hlen Hpat) as Hdet.
  split; [exact Hdet|].
  intros text Hdec r. subst r.
  unfold validate, final_state.
  change (check_file_exists (regular_file content) (init path))
    with (init path, true).
  cbn [negb]. unfold read_file. cbn [data regular_file].
  fold raw. rewrite Hdet. cbn [app try_encodings]. rewrite Hdec. cbn [negb].
  rewrite run_checks_later.
  set (s0 := accept_encoding (utf16_encoding little) text (init path)).
  destruct (accept_utf16 little text (init path)) as [Hw0 [He0 [Ht0 [H16 _]]]].
  fold s0 in Hw0, He0, Ht0, H16.
  destruct (check_encoding_issues_utf16 s0 H16) as [He1 [Hw1 [Ht1 _]]].
  set (s1 := check_encoding_issues s0) in *.
  assert (Hs2 : check_bom s1 = s1).
  { unfold check_bom. rewrite Ht1, Ht0.
    rewrite (bom_less_no_bom_char little content Hbom Hdec). reflexivity. }
  rewrite Hs2.
  pose proof (later_checks_adds sniff s1) as Hadds.
  cbn [report_warnings report_errors get_results].
  split.
  - rewrite (adds_only_filter_warnings "encoding" Hadds).
    + rewrite Hw1, Hw0. destruct little; reflexivity.
    + unfold later_warning_categories, content_categories. simpl.
      intros H. repeat (destruct H as [H|H]; [discriminate H|]). exact H.
  - rewrite (adds_only_null_bytes Hadds).
    + rewrite He1, He0. reflexivity.
    + unfold later_error_categories. simpl.
      intros H. repeat (destruct H as [H|H]; [discriminate H|]). exact H.
Qed.

Lemma C5_utf16_without_bom_witness :
  bom_less (firstn detection_bytes plain_utf16) = true
  /\ 4 <= List.length (firstn detection_bytes plain_utf16)
  /\ utf16_pattern true (firstn detection_bytes plain_utf16) = true
  /\ Codec.decode Codec.UTF_16_LE plain_utf16
     = Some (of_string "a,b" ++ [LF] ++ of_string "1,2")
  /\ _detect_encoding_from_bytes (firstn detection_bytes plain_utf16)
     = Some Codec.UTF_16_LE
  /\ filter (has_category "encoding")
       (report_warnings (validate no_sniff (regular_file plain_utf16) some_path))
     = [utf16_warning true]
  /\ existsb is_null_bytes_error
       (report_errors (validate no_sniff (regular_file plain_utf16) some_path))
     = false.
Proof.
  assert (H1 : bom_less (firstn detection_bytes plain_utf16) = true)
    by (vm_compute; reflexivity).
  assert (H2 : 4 <= List.length (firstn detection_bytes plain_utf16))
    by (vm_compute; lia).
  assert (H3 : utf16_pattern true (firstn detection_bytes plain_utf16) = true)
    by (vm_compute; reflexivity).
  assert (H4 : Codec.decode Codec.UTF_16_LE plain_utf16
               = Some (of_string "a,b" ++ [LF] ++ of_string "1,2"))
    by (vm_compute; reflexivity).
  destruct (C5_utf16_without_bom no_sniff plain_utf16 some_path true H1 H2 H3)
    as [Hd Hr].
  destruct (Hr _ H4) as [Hw He].
  repeat split; assumption.
Defined.

(** C5 as stated fails on five bytes that show the UTF-16-LE pattern and do
    not decode as UTF-16: the detector answers utf-16-le, the decode falls
    back to UTF-8, and the report has no encoding warning and one null-byte
    error. *)
Lemma C5_utf16_without_bom_counterexample :
  bom_less truncated_utf16 = true
  /\ List.length truncated_utf16 = 5
  /\ utf16_pattern true truncated_utf16 = true
  /\ _detect_encoding_from_bytes truncated_utf16 = Some Codec.UTF_16_LE
  /\ filter (has_category "encoding")
       (report_warnings
          (validate no_sniff (regular_file truncated_utf16) some_path))
     = []
  /\ existsb is_null_bytes_error
       (report_errors
          (validate no_sniff (regular_file truncated_utf16) some_path))
     = true.
Proof. vm_compute. repeat split. Qed.

(** ** [Counter] and [most_common] *)

Section Counting.

Context {A : Type} (eqb : A -> A -> bool).
Hypothesis eqb_spec : forall x y, eqb x y = true <-> x = y.
Implicit Types x y k : A.
Implicit Types l : list A.
Implicit Types c : list (A * nat).

Lemma eqb_refl' x : eqb x x = true.
Proof. apply eqb_spec. reflexivity. Qed.

Lemma eqb_neq x y : x <> y -> eqb x y = false.
Proof.
  intros H. destruct (eqb x y) eqn:E; [|reflexivity].
  apply eqb_spec in E. contradiction.
Qed.

Lemma eqb_dec x y : {x = y} + {x <> y}.
Proof.
  destruct (eqb x y) eqn:E.
  - left. apply eqb_spec. exact E.
  - right. intros H. apply eqb_spec in H. congruence.
Qed.

Lemma occ_app x l1 l2 : occ eqb x (l1 ++ l2) = occ eqb x l1 + occ eqb x l2.
Proof. unfold occ. rewrite filter_app, length_app. reflexivity. Qed.

Lemma occ_cons x y l :
  occ eqb x (y :: l) = (if eqb x y then 1 else 0) + occ eqb x l.
Proof. unfold occ. simpl. destruct (eqb x y); reflexivity. Qed.

Lemma occ_pos_in x l : 0 < occ eqb x l <-> In x l.
Proof.
  induction l as [|y l IH]; [simpl; split; [unfold occ; simpl; lia | tauto]|].
  rewrite occ_cons. simpl. destruct (eqb x y) eqn:E.
  - apply eqb_spec in E. split; [auto | lia].
  - split.
    + intros H. right. apply IH. lia.
    + intros [H|H]; [subst; rewrite eqb_refl' in E; discriminate|].
      apply IH in H. lia.
Qed.

Lemma occ_two x y l : x <> y -> occ eqb x l + occ eqb y l <= List.length l.
Proof.
  intros Hxy. induction l as [|z l IH]; [unfold occ; simpl; lia|].
  rewrite !occ_cons. simpl.
  destruct (eqb x z) eqn:Ex, (eqb y z) eqn:Ey; try lia.
  apply eqb_spec in Ex, Ey. congruence.
Qed.

Lemma counter_add_keys x c k :
  In k (map fst (counter_add eqb x c)) <-> k = x \/ In k (map fst c).
Proof.
  induction c as [|[y n] c IH]; simpl.
  - split; intros [H|H]; auto; tauto.
  - destruct (eqb x y) eqn:E; simpl.
    + apply eqb_spec in E. subst. intuition congruence.
    + rewrite IH. intuition congruence.
Qed.

Lemma counter_add_nodup x c :
  NoDup (map fst c) -> NoDup (map fst (counter_add eqb x c)).
Proof.
  induction c as [|[y n] c IH]; simpl; intros Hnd.
  - repeat constructor. simpl. tauto.
  - inversion Hnd as [|? ? Hnotin Hnd']; subst.
    destruct (eqb x y) eqn:E; simpl.
    + constructor; assumption.
    + constructor; [|auto].
      rewrite counter_add_keys. intros [H|H]; [|contradiction].
      subst. rewrite eqb_refl' in E. discriminate.
Qed.

Lemma count_of_counter_add k x c :
  count_of eqb k (counter_add eqb x c)
  = count_of eqb k c + (if eqb k x then 1 else 0).
Proof.
  unfold count_of. induction c as [|[y n] c IH]; simpl.
  - destruct (eqb k x); reflexivity.
  - destruct (eqb x y) eqn:Exy; simpl.
    + apply eqb_spec in Exy. subst y.
      destruct (eqb k x); lia.
    + destruct (eqb k y) eqn:Eky; [|exact IH].
      apply eqb_spec in Eky. subst y.
      destruct (eqb k x) eqn:Ekx; [|lia].
      apply eqb_spec in Ekx. subst x. rewrite eqb_refl' in Exy. discriminate.
Qed.

Lemma count_of_fold k l : forall c,
  count_of eqb k (fold_left (fun c x => counter_add eqb x c) l c)
  = count_of eqb k c + occ eqb k l.
Proof.
  induction l as [|x l IH]; intros c; simpl.
  - unfold occ. simpl. lia.
  - rewrite IH, count_of_counter_add, occ_cons. lia.
Qed.

Lemma count_of_Counter k l : count_of eqb k (Counter eqb l) = occ eqb k l.
Proof. unfold Counter. rewrite count_of_fold. reflexivity. Qed.

Lemma Counter_nodup l : NoDup (map fst (Counter eqb l)).
Proof.
  unfold Counter.
  assert (H : forall c, NoDup (map fst c) ->
                        NoDup (map fst (fold_left (fun c x => counter_add eqb x c) l c))).
  { induction l as [|x l IH]; intros c Hc; simpl; [exact Hc|].
    apply IH. apply counter_add_nodup. exact Hc. }
  apply H. constructor.
Qed.

Lemma in_dict_get k n c :
  NoDup (map fst c) -> In (k, n) c -> dict_get eqb k c = Some n.
Proof.
  induction c as [|[y m] c IH]; simpl; intros Hnd Hin; [contradiction|].
  inversion Hnd as [|? ? Hnotin Hnd']; subst.
  destruct Hin as [H|H].
  - injection H as -> ->. rewrite eqb_refl'. reflexivity.
  - destruct (eqb k y) eqn:E.
    + apply eqb_spec in E. subst y. exfalso. apply Hnotin.
      apply (in_map fst) in H. exact H.
    + apply IH; assumption.
Qed.

Lemma dict_get_in k n c : dict_get eqb k c = Some n -> In (k, n) c.
Proof.
  induction c as [|[y m] c IH]; simpl; [discriminate|].
  destruct (eqb k y) eqn:E.
  - apply eqb_spec in E. subst y. intros H. injection H as ->. auto.
  - auto.
Qed.

(** Every entry of a counter holds the number of occurrences of its key,
    and every element of the list has its entry. *)
Lemma Counter_entry k n l : In (k, n) (Counter eqb l) -> n = occ eqb k l.
Proof.
  intros H. apply in_dict_get in H; [|apply Counter_nodup].
  rewrite <- count_of_Counter. unfold count_of. rewrite H. reflexivity.
Qed.

Lemma Counter_has k l : In k l -> In (k, occ eqb k l) (Counter eqb l).
Proof.
  intros H. apply occ_pos_in in H.
  rewrite <- count_of_Counter in *. unfold count_of in *.
  destruct (dict_get eqb k (Counter eqb l)) eqn:E; [|lia].
  apply dict_get_in. exact E.
Qed.

End Counting.

(** [most_common(1)] returns an entry of maximal count. *)
Lemma most_common_fold {A} (c : list (A * nat)) : forall best,
  match fold_left
          (fun best kv =>
             match best with
             | None => Some kv
             | Some b => if snd b <? snd kv then Some kv else best
             end) c best with
  | Some r =>
      (In r c \/ best = Some r)
      /\ (forall kv, In kv c -> snd kv <= snd r)
      /\ (forall b, best = Some b -> snd b <= snd r)
  | None => c = [] /\ best = None
  end.
Proof.
  induction c as [|kv c IH]; intros best; simpl.
  - destruct best as [b|]; [|auto]. split; [auto|]. split; [tauto|].
    intros b' H. injection H as ->. lia.
  - set (best' := match best with
                  | None => Some kv
                  | Some b => if snd b <? snd kv then Some kv else best
                  end).
    specialize (IH best').
    destruct (fold_left _ c best') as [r|].
    + destruct IH as [Hin [Hmax Hbest]].
      assert (Hkv : snd kv <= snd r /\ (forall b, best = Some b -> snd b <= snd r)
                    /\ (best' = Some r -> kv = r \/ best = Some r)).
      { subst best'. destruct best as [b|].
        - destruct (Nat.ltb_spec (snd b) (snd kv)).
          + specialize (Hbest kv eq_refl). split; [lia|]. split.
            * intros b' Hb. injection Hb as <-. lia.
            * intros H'. injection H' as ->. auto.
          + specialize (Hbest b eq_refl). split; [lia|]. split.
            * intros b' Hb. injection Hb as <-. lia.
            * auto.
        - specialize (Hbest kv eq_refl). split; [lia|]. split.
          + discriminate.
          + intros H'. injection H' as ->. auto. }
      destruct Hkv as [Hk [Hb Hr]]. split; [|split].
      * destruct Hin as [Hin|Hin]; [auto|].
        destruct (Hr Hin) as [->|H]; auto.
      * intros kv' [<-|H]; auto.
      * exact Hb.
    + destruct IH as [_ H]. subst best'. destruct best as [b|].
      * destruct (snd b <? snd kv); discriminate.
      * discriminate.
Qed.

Lemma most_common_1_max {A} (c : list (A * nat)) :
  c <> [] ->
  exists r, most_common_1 c = Some r /\ In r c
            /\ forall kv, In kv c -> snd kv <= snd r.
Proof.
  intros Hc. unfold most_common_1.
  pose proof (most_common_fold c None) as H.
  destruct (fold_left _ c None) as [r|].
  - destruct H as [[Hin|Hin] [Hmax _]]; [|discriminate].
    exists r. auto.
  - destruct H as [H _]. contradiction.
Qed.

(** A value that is more than half of a list is what [most_common(1)] of its
    counter returns. *)
Lemma most_common_majority (l : list nat) (m : nat) :
  List.length l < 2 * occ Nat.eqb m l ->
  most_common_1 (Counter Nat.eqb l) = Some (m, occ Nat.eqb m l).
Proof.
  intros Hmaj.
  assert (Hm : In (m, occ Nat.eqb m l) (Counter Nat.eqb l)).
  { apply (Counter_has Nat.eqb Nat.eqb_eq). apply (occ_pos_in Nat.eqb Nat.eqb_eq). lia. }
  destruct (@most_common_1_max nat (Counter Nat.eqb l)) as [[k n] [Hmc [Hin Hmax]]].
  { intros E. rewrite E in Hm. destruct Hm. }
  rewrite Hmc. f_equal.
  specialize (Hmax _ Hm). simpl in Hmax.
  apply (Counter_entry Nat.eqb Nat.eqb_eq) in Hin. rename Hin into Hn.
  destruct (Nat.eq_dec k m) as [->|Hk]; [congruence|].
  pose proof (occ_two Nat.eqb Nat.eqb_eq l Hk). lia.
Qed.

(** ** The metadata preamble *)

Lemma Qltb_half (n f : nat) : Qltb (Qnat n * (1 # 2)) (Qnat f) = (n <? 2 * f).
Proof.
  unfold Qltb, Qle_bool, Qnat, inject_Z, Qmult. cbn [Qnum Qden].
  destruct (Nat.ltb_spec n (2 * f)); [apply negb_true_iff | apply negb_false_iff].
  - apply Z.leb_gt. lia.
  - apply Z.leb_le. lia.
Qed.

Lemma preamble_found m rws :
  In m (map (@List.length str) rws) ->
  preamble m rws < List.length rws
  /\ List.length (nth (preamble m rws) rws []) = m.
Proof.
  induction rws as [|r rws IH]; simpl; [contradiction|].
  intros Hin. destruct (Nat.eqb_spec (List.length r) m) as [E|E].
  - split; [lia | exact E].
  - destruct Hin as [H|H]; [contradiction|].
    destruct (IH H) as [H1 H2]. split; [lia | exact H2].
Qed.

Lemma find_metadata_end_preamble m rws : forall i,
  In m (map (@List.length str) rws) ->
  find_metadata_end m (enumerate i rws) = i + preamble m rws.
Proof.
  induction rws as [|r rws IH]; simpl; intros i Hin; [contradiction|].
  destruct (Nat.eqb_spec (List.length r) m) as [E|E]; [lia|].
  destruct Hin as [H|H]; [contradiction|].
  rewrite (IH (S i) H). lia.
Qed.

Lemma preamble_positive m rws :
  rws <> [] -> m <> List.length (hd [] rws) -> 0 < preamble m rws.
Proof.
  destruct rws as [|r rws]; simpl; intros Hne Hm; [contradiction|].
  destruct (Nat.eqb_spec (List.length r) m); [congruence | lia].
Qed.

Lemma majority_row rws m :
  majority_count rws m -> rws <> [] /\ In m (map (@List.length str) rws).
Proof.
  unfold majority_count. intros H.
  assert (Hpos : 0 < occ Nat.eqb m (map (@List.length str) rws)) by lia.
  apply (occ_pos_in Nat.eqb Nat.eqb_eq) in Hpos. split; [|exact Hpos].
  intros ->. destruct Hpos.
Qed.

(** The metadata branch of [check_column_consistency]. *)
Lemma resolve_expected_preamble s m :
  headers s = hd [] (rows s) -> majority_count (rows s) m ->
  m <> List.length (hd [] (rows s)) ->
  let k := preamble m (rows s) in
  let r := resolve_expected s in
  fst r = m
  /\ warnings (snd r) = warnings s ++ [metadata_warning k m]
  /\ errors (snd r) = errors s
  /\ rows (snd r) = rows s
  /\ headers (snd r) = nth k (rows s) []
  /\ metadata_rows_detected (snd r) = true
  /\ metadata_row_count (snd r) = k.
Proof.
  intros Hh Hmaj Hm k r. subst r.
  destruct (majority_row Hmaj) as [Hne Hin].
  pose proof (preamble_found _ _ Hin) as [Hlt Hlen].
  pose proof (preamble_positive Hne Hm) as Hpos.
  fold k in Hlt, Hlen, Hpos.
  unfold resolve_expected.
  assert (Hmaj' : List.length (map (@List.length str) (rows s))
                  < 2 * occ Nat.eqb m (map (@List.length str) (rows s)))
    by (rewrite length_map; exact Hmaj).
  rewrite (most_common_majority _ _ Hmaj').
  rewrite Qltb_half.
  assert (H1 : (List.length (rows s)
                <? 2 * occ Nat.eqb m (map (@List.length str) (rows s))) = true)
    by (apply Nat.ltb_lt; exact Hmaj).
  rewrite H1.
  assert (H2 : (m =? (if negb (is_empty (headers s))
                      then List.length (headers s)
                      else List.length (hd [] (rows s)))) = false).
  { apply Nat.eqb_neq. rewrite Hh.
    destruct (negb (is_empty (hd [] (rows s)))); exact Hm. }
  rewrite H2. cbn [negb andb].
  cbn [rows set_metadata].
  rewrite (find_metadata_end_preamble _ _ 0 Hin). cbn [Nat.add]. fold k.
  assert (H3 : (0 <? k) = true) by (apply Nat.ltb_lt; exact Hpos).
  assert (H4 : (k <? List.length (rows s)) = true) by (apply Nat.ltb_lt; exact Hlt).
  rewrite H3. cbn [rows add_warning set_warnings set_metadata]. rewrite H4.
  repeat split.
Qed.

Lemma same_data_refl s : same_data s s.
Proof. repeat split. Qed.

Lemma same_data_trans s1 s2 s3 :
  same_data s1 s2 -> same_data s2 s3 -> same_data s1 s3.
Proof.
  unfold same_data. intros H1 H2.
  destruct H1 as (A1 & A2 & A3 & A4 & A5 & A6 & A7).
  destruct H2 as (B1 & B2 & B3 & B4 & B5 & B6 & B7).
  repeat split; congruence.
Qed.

Lemma same_data_add_error cat msg ln col ext s :
  same_data s (add_error cat msg ln col ext s).
Proof. repeat split. Qed.

Lemma same_data_add_warning cat msg ln col ext s :
  same_data s (add_warning cat msg ln col ext s).
Proof. repeat split. Qed.

Lemma same_data_fold {A} (f : State -> A -> State) (l : list A) :
  (forall s a, same_data s (f s a)) ->
  forall s, same_data s (fold_left f l s).
Proof.
  intros Hf. induction l as [|a l IH]; intros s; simpl.
  - apply same_data_refl.
  - eapply same_data_trans; [apply Hf | apply IH].
Qed.

Ltac same_step :=
  first [ apply same_data_refl
        | apply same_data_add_error
        | apply same_data_add_warning ].

Ltac same_cases :=
  repeat match goal with
         | |- same_data _ (if ?c then _ else _) => destruct c
         | |- same_data _ (match ?c with _ => _ end) => destruct c
         end;
  try same_step.

Lemma near_duplicates_same all hs normalized s :
  same_data s (near_duplicates all hs normalized s).
Proof.
  revert normalized s. induction hs as [|[i h] hs IH]; intros normalized s; simpl.
  - apply same_data_refl.
  - destruct (dict_get _ _ _).
    + eapply same_data_trans; [|apply IH]. same_step.
    + apply IH.
Qed.

Lemma check_header_issues_same s : same_data s (check_header_issues s).
Proof.
  unfold check_header_issues.
  destruct (is_empty (headers s)); [same_step|].
  set (s1 := if is_empty (empty_cols (headers s)) then s else _).
  assert (H1 : same_data s s1) by (subst s1; same_cases).
  set (s2 := if is_empty (duplicate_headers (headers s1)) then s1 else _).
  assert (H2 : same_data s1 s2) by (subst s2; same_cases).
  set (s3 := near_duplicates _ _ _ s2).
  assert (H3 : same_data s2 s3) by (subst s3; apply near_duplicates_same).
  eapply same_data_trans; [exact H1|].
  eapply same_data_trans; [exact H2|].
  eapply same_data_trans; [exact H3|].
  same_cases.
Qed.

(** The errors of the second half of [check_column_consistency] leave
    everything but the error list as it is. *)
Lemma structure_errors_fold expected groups : forall s,
  let s' := fold_left (fun s group => structure_error expected group s) groups s in
  same_data s s' /\ adds_only ["structure"%string] [] s s'.
Proof.
  induction groups as [|g groups IH]; intros s; simpl.
  - split; [apply same_data_refl | apply adds_only_refl].
  - destruct (IH (structure_error expected g s)) as [H1 H2].
    assert (H0 : same_data s (structure_error expected g s)
                 /\ adds_only ["structure"%string] [] s (structure_error expected g s)).
    { unfold structure_error. destruct g. split; [same_step | adds_step]. }
    destruct H0 as [H01 H02]. split.
    + eapply same_data_trans; eassumption.
    + eapply adds_only_trans; eassumption.
Qed.

(** C2, as amended.  When more than half of the parsed rows have [m] fields
    and the first row does not, [check_column_consistency] adds exactly one
    warning, the structure warning that counts the [k] rows before the first
    row of [m] fields, records those [k] rows as metadata, and makes that
    row the header.  The header checks are not recomputed: the findings of
    [check_header_issues] are those it computed on the first row, and what
    [check_column_consistency] adds besides the warning are structure
    errors. *)
Theorem C2_metadata_preamble :
  forall (s : State) (m : nat),
    headers s = hd [] (rows s) ->
    majority_count (rows s) m ->
    m <> List.length (hd [] (rows s)) ->
    let k := preamble m (rows s) in
    let s1 := check_header_issues s in
    let s2 := check_column_consistency s1 in
    0 < k < List.length (rows s)
    /\ List.length (nth k (rows s) []) = m
    /\ warnings s2 = warnings s1 ++ [metadata_warning k m]
    /\ headers s2 = nth k (rows s) []
    /\ metadata_rows_detected s2 = true
    /\ metadata_row_count s2 = k
    /\ exists E, errors s2 = errors s1 ++ E
                 /\ Forall (fun e => category e = "structure"%string) E.
Proof.
  intros s m Hh Hmaj Hm k s1 s2.
  destruct (majority_row Hmaj) as [Hne Hin].
  pose proof (preamble_found _ _ Hin) as [Hlt Hlen].
  pose proof (preamble_positive Hne Hm) as Hpos.
  fold k in Hlt, Hlen, Hpos.
  destruct (check_header_issues_same s) as (_ & _ & Hrows & Hheaders & _).
  fold s1 in Hrows, Hheaders.
  assert (Hh1 : headers s1 = hd [] (rows s1)) by congruence.
  assert (Hmaj1 : majority_count (rows s1) m) by (rewrite Hrows; exact Hmaj).
  assert (Hm1 : m <> List.length (hd [] (rows s1))) by (rewrite Hrows; exact Hm).
  pose proof (resolve_expected_preamble s1 Hh1 Hmaj1 Hm1) as Hres.
  cbv zeta in Hres. rewrite Hrows in Hres. fold k in Hres.
  destruct Hres as (Hfst & Hw & He & Hr & Hhd & Hdet & Hcount).
  subst s2. unfold check_column_consistency.
  assert (Hnonempty : is_empty (rows s1) = false).
  { rewrite Hrows. destruct (rows s); [contradiction | reflexivity]. }
  rewrite Hnonempty.
  destruct (resolve_expected s1) as [expected s'].
  cbn [fst snd] in *.
  destruct (structure_errors_fold expected
              (by_count (inconsistent_rows expected s')) s') as [Hsame Hadds].
  cbv zeta in Hsame, Hadds.
  set (s2 := fold_left _ _ s') in *.
  destruct Hsame as (_ & _ & _ & Hh2 & _ & Hd2 & Hc2).
  repeat split.
  - exact Hpos.
  - exact Hlt.
  - exact Hlen.
  - rewrite (adds_only_warnings Hadds). exact Hw.
  - congruence.
  - congruence.
  - congruence.
  - destruct Hadds as [[E [HE HF]] _]. exists E. split.
    + rewrite HE, He. reflexivity.
    + eapply Forall_impl; [|exact HF]. simpl. intros e [H|[]]. auto.
Qed.

Lemma C2_metadata_preamble_witness :
  headers (parsed_state titled_rows) = hd [] (rows (parsed_state titled_rows))
  /\ majority_count (rows (parsed_state titled_rows)) 2
  /\ 2 <> List.length (hd [] (rows (parsed_state titled_rows)))
  /\ (let k := preamble 2 (rows (parsed_state titled_rows)) in
      let s1 := check_header_issues (parsed_state titled_rows) in
      let s2 := check_column_consistency s1 in
      0 < k < List.length (rows (parsed_state titled_rows))
      /\ List.length (nth k (rows (parsed_state titled_rows)) []) = 2
      /\ warnings s2 = warnings s1 ++ [metadata_warning k 2]
      /\ headers s2 = nth k (rows (parsed_state titled_rows)) []
      /\ metadata_rows_detected s2 = true
      /\ metadata_row_count s2 = k
      /\ exists E, errors s2 = errors s1 ++ E
                   /\ Forall (fun e => category e = "structure"%string) E).
Proof.
  assert (H1 : headers (parsed_state titled_rows)
               = hd [] (rows (parsed_state titled_rows))) by reflexivity.
  assert (H2 : majority_count (rows (parsed_state titled_rows)) 2)
    by (unfold majority_count; vm_compute; lia).
  assert (H3 : 2 <> List.length (hd [] (rows (parsed_state titled_rows))))
    by (vm_compute; lia).
  split; [exact H1|]. split; [exact H2|]. split; [exact H3|].
  exact (C2_metadata_preamble (parsed_state titled_rows) H1 H2 H3).
Defined.

(** C2 as stated fails in its last part.  In the file with the lines
    [Report], [id,id], [1,2], [3,4] the second line is promoted to be the
    header; the header checks run on it would report the duplicate name and
    the reserved name, and the report has no header finding at all. *)
Lemma C2_metadata_preamble_counterexample :
  let r := validate no_sniff (text_file titled_text) some_path in
  let promoted := [of_string "id"; of_string "id"] in
  rows (final_state no_sniff (text_file titled_text) some_path) = titled_rows
  /\ List.length titled_rows = 4
  /\ occ Nat.eqb 2 (map (@List.length str) titled_rows) = 3
  /\ stats_headers (stats r) = promoted
  /\ filter (has_category "header") (report_errors r) = []
  /\ filter (has_category "header") (report_warnings r) = []
  /\ map category
       (errors (check_header_issues (set_headers promoted (init some_path))))
     = ["header"%string]
  /\ map category
       (warnings (check_header_issues (set_headers promoted (init some_path))))
     = ["header"; "header"]%string.
Proof. vm_compute. repeat split. Qed.

(** ** Stripping, counting and splitting *)

Unset Implicit Arguments.

Lemma lstrip_nil_iff (s : str) : lstrip s = [] <-> forallb isspace s = true.
Proof.
  induction s as [|c s IH]; simpl; [tauto|].
  destruct (isspace c); simpl; [exact IH|]. split; discriminate.
Qed.

Lemma rstrip_nil_iff (s : str) : rstrip s = [] <-> forallb isspace s = true.
Proof.
  unfold rstrip. split.
  - intros H. apply (f_equal (@rev char)) in H. rewrite rev_involutive in H.
    simpl in H. apply lstrip_nil_iff in H.
    rewrite forallb_forall in *. intros x Hx. apply H. apply in_rev in Hx.
    exact Hx.
  - intros H. replace (lstrip (rev s)) with (@nil char); [reflexivity|].
    symmetry. apply lstrip_nil_iff. rewrite forallb_forall in *.
    intros x Hx. apply H. apply in_rev. exact Hx.
Qed.

Lemma not_blank_lstrip (f : str) : not_blank f = true -> lstrip f <> [].
Proof.
  unfold not_blank. rewrite negb_true_iff. intros H E.
  apply lstrip_nil_iff in E. congruence.
Qed.

Lemma not_blank_rstrip (f : str) : not_blank f = true -> rstrip f <> [].
Proof.
  unfold not_blank. rewrite negb_true_iff. intros H E.
  apply rstrip_nil_iff in E. congruence.
Qed.

(** Stripping stops at the first character that is not white space. *)
Lemma lstrip_app_stop (a : str) (x : char) (b : str) :
  lstrip a <> [] \/ isspace x = false ->
  lstrip (a ++ x :: b) = lstrip a ++ x :: b.
Proof.
  induction a as [|c a IH]; simpl; intros Hc.
  - destruct Hc as [Hc|Hc]; [contradiction|]. rewrite Hc. reflexivity.
  - destruct (isspace c); [apply IH; exact Hc | reflexivity].
Qed.

Lemma rstrip_app_stop (a : str) (x : char) (b : str) :
  rstrip b <> [] \/ isspace x = false ->
  rstrip (a ++ x :: b) = a ++ x :: rstrip b.
Proof.
  intros Hc. unfold rstrip.
  replace (rev (a ++ x :: b)) with (rev b ++ x :: rev a).
  - rewrite lstrip_app_stop.
    + rewrite rev_app_distr. simpl. rewrite rev_involutive, <- app_assoc.
      reflexivity.
    + destruct Hc as [Hc|Hc]; [left | right; exact Hc].
      intros E. apply Hc. unfold rstrip. rewrite E. reflexivity.
  - rewrite rev_app_distr. simpl. rewrite <- app_assoc. reflexivity.
Qed.

Lemma count_char_app d (a b : str) :
  count_char d (a ++ b) = count_char d a + count_char d b.
Proof. unfold count_char. rewrite filter_app, length_app. reflexivity. Qed.

Lemma count_char_cons d (c : char) (s : str) :
  count_char d (c :: s) = (if (d =? c)%N then 1 else 0) + count_char d s.
Proof. unfold count_char. simpl. destruct (d =? c)%N; reflexivity. Qed.

Lemma count_char_zero d (s : str) :
  count_char d s = 0 <-> ~ In d s.
Proof.
  induction s as [|c s IH]; [unfold count_char; simpl; tauto|].
  rewrite count_char_cons. simpl. destruct (N.eqb_spec d c).
  - subst. split; [discriminate | intros H; exfalso; auto].
  - simpl. rewrite IH. split; [intros H [E|E]; [congruence | auto] | auto].
Qed.

Lemma contains_in d (s : str) : contains d s = true <-> In d s.
Proof.
  unfold contains. rewrite existsb_exists. split.
  - intros [x [Hx E]]. apply N.eqb_eq in E. subst. exact Hx.
  - intros H. exists d. split; [exact H | apply N.eqb_refl].
Qed.


Lemma lstrip_incl (s : str) : incl (lstrip s) s.
Proof.
  induction s as [|c s IH]; simpl; [apply incl_refl|].
  destruct (isspace c); [apply incl_tl; exact IH | apply incl_refl].
Qed.

Lemma rstrip_incl (s : str) : incl (rstrip s) s.
Proof.
  unfold rstrip. intros x Hx. apply in_rev in Hx.
  apply lstrip_incl in Hx. apply in_rev in Hx. exact Hx.
Qed.

Lemma strip_incl (s : str) : incl (strip s) s.
Proof.
  unfold strip. intros x Hx. apply lstrip_incl in Hx.
  apply rstrip_incl in Hx. exact Hx.
Qed.

(** A line that is a first field, a delimiter, a middle, a delimiter-led
    last field: stripping it does not change how often a character occurs
    that the two outer fields do not contain. *)
Lemma count_strip_between d (f1 : str) (x : char) (mid fC : str) :
  (lstrip f1 <> [] /\ rstrip fC <> []) \/ isspace x = false ->
  ~ In d f1 -> ~ In d fC ->
  count_char d (strip (f1 ++ x :: mid ++ x :: fC))
  = count_char d (f1 ++ x :: mid ++ x :: fC)
  /\ count_char d (strip (f1 ++ x :: fC)) = count_char d (f1 ++ x :: fC).
Proof.
  intros Hc H1 HC.
  assert (Hl : lstrip f1 <> [] \/ isspace x = false) by tauto.
  assert (Hr : rstrip fC <> [] \/ isspace x = false) by tauto.
  assert (Z1 : count_char d (lstrip f1) = 0).
  { apply count_char_zero. intros H. apply H1. apply lstrip_incl. exact H. }
  assert (ZC : count_char d (rstrip fC) = 0).
  { apply count_char_zero. intros H. apply HC. apply rstrip_incl. exact H. }
  apply count_char_zero in H1, HC.
  unfold strip. split.
  - replace (f1 ++ x :: mid ++ x :: fC) with ((f1 ++ x :: mid) ++ x :: fC)
      by (rewrite <- app_assoc; reflexivity).
    rewrite (rstrip_app_stop _ _ _ Hr), <- app_assoc. simpl.
    rewrite (lstrip_app_stop _ _ _ Hl).
    repeat (rewrite ?count_char_app, ?count_char_cons). lia.
  - rewrite (rstrip_app_stop _ _ _ Hr), (lstrip_app_stop _ _ _ Hl).
    repeat (rewrite ?count_char_app, ?count_char_cons). lia.
Qed.

(** [split] at line feeds, and [io_lines], on a text made of lines. *)
Lemma split_line (l rest : str) :
  ~ In LF l -> split LF (l ++ LF :: rest) = l :: split LF rest.
Proof.
  induction l as [|c l IH]; simpl; intros H.
  - reflexivity.
  - destruct (N.eqb_spec c LF) as [E|E]; [exfalso; auto|].
    rewrite IH by tauto. reflexivity.
Qed.

Lemma io_lines_line (l rest : str) :
  ~ In LF l -> io_lines (l ++ LF :: rest) = (l ++ [LF]) :: io_lines rest.
Proof.
  induction l as [|c l IH]; simpl; intros H.
  - reflexivity.
  - destruct (N.eqb_spec c LF) as [E|E]; [exfalso; auto|].
    rewrite IH by tauto. reflexivity.
Qed.

Lemma join_cons (D : char) (f : str) (r : list str) :
  r <> [] -> join [D] (f :: r) = f ++ D :: join [D] r.
Proof. destruct r; [contradiction | reflexivity]. Qed.

Lemma join_snoc (D : char) (r : list str) (f : str) :
  r <> [] -> join [D] (r ++ [f]) = join [D] r ++ D :: f.
Proof.
  induction r as [|g r IH]; [contradiction|]. intros _.
  destruct r as [|h r].
  - reflexivity.
  - change ((g :: h :: r) ++ [f]) with (g :: (h :: r) ++ [f]).
    rewrite join_cons by (destruct r; discriminate).
    rewrite IH by discriminate.
    rewrite (@join_cons D g (h :: r)) by discriminate.
    rewrite <- app_assoc. reflexivity.
Qed.

(** How often a character occurs in a joined row. *)
Lemma count_char_join d (D : char) (r : list str) :
  Forall (fun f => ~ In d f) r ->
  count_char d (join [D] r)
  = if (d =? D)%N then List.length r - 1 else 0.
Proof.
  induction r as [|f r IH]; intros Hf.
  - simpl. destruct (d =? D)%N; reflexivity.
  - inversion Hf as [|? ? H1 H2]; subst.
    apply count_char_zero in H1.
    destruct r as [|g r].
    + simpl. rewrite H1. destruct (d =? D)%N; reflexivity.
    + rewrite join_cons by discriminate.
      rewrite count_char_app, count_char_cons, (IH H2), H1.
      simpl. destruct (d =? D)%N; lia.
Qed.

Lemma in_join (D : char) (r : list str) (c : char) :
  In c (join [D] r) -> c = D \/ exists f, In f r /\ In c f.
Proof.
  induction r as [|f r IH]; [simpl; tauto|].
  destruct r as [|g r].
  - simpl. intros H. right. exists f. auto.
  - rewrite join_cons by discriminate. rewrite in_app_iff. simpl.
    intros [H|[H|H]].
    + right. exists f. auto.
    + auto.
    + destruct (IH H) as [E|[f' [Hf Hc]]]; [auto|].
      right. exists f'. split; [right; exact Hf | exact Hc].
Qed.

(** ** Detecting the delimiter of a rendered table *)

Lemma delimiter_free_spec (f : str) (c : char) :
  delimiter_free f = true -> In c f -> ~ In c delimiters /\ c <> LF.
Proof.
  unfold delimiter_free. rewrite forallb_forall. intros H Hc.
  specialize (H c Hc). apply andb_true_iff in H. destruct H as [H1 H2].
  apply negb_true_iff in H1, H2. split.
  - intros Hin. assert (E : existsb (N.eqb c) delimiters = true).
    { apply existsb_exists. exists c. split; [exact Hin | apply N.eqb_refl]. }
    congruence.
  - apply N.eqb_neq. exact H2.
Qed.

Lemma delimiter_not_LF (D : char) : In D delimiters -> D <> LF.
Proof.
  unfold delimiters. simpl. intros [H|[H|[H|[H|[]]]]]; subst; discriminate.
Qed.

Lemma delimiter_not_space (D : char) :
  In D delimiters -> D <> TAB -> isspace D = false.
Proof.
  unfold delimiters. simpl.
  intros [H|[H|[H|[H|[]]]]] Ht; subst; try reflexivity. contradiction.
Qed.

(** A row of at least two fields has a first field, fields in the middle
    and a last field. *)
Lemma row_shape (r : list str) :
  2 <= List.length r ->
  exists f1 mid fC, r = f1 :: mid ++ [fC].
Proof.
  destruct r as [|f1 r]; simpl; [lia|]. intros H.
  destruct (@exists_last _ r) as [mid [fC E]].
  - intros ->. simpl in H. lia.
  - exists f1, mid, fC. rewrite E. reflexivity.
Qed.

Lemma last_snoc {A} (l : list A) (x d : A) : last (l ++ [x]) d = x.
Proof.
  induction l as [|y l IH]; [reflexivity|].
  simpl. destruct (l ++ [x]) eqn:E; [destruct l; discriminate | exact IH].
Qed.

(** The stripped line of a row holds the delimiter once between any two
    fields, and no other candidate delimiter. *)
Lemma stripped_row_count (D d : char) (r : list str) :
  In D delimiters -> In d delimiters -> 2 <= List.length r ->
  Forall (fun f => delimiter_free f = true) r ->
  (D = TAB -> edges_not_blank r = true) ->
  count_char d (strip (render_row D r))
  = if (d =? D)%N then List.length r - 1 else 0.
Proof.
  intros HD Hd Hlen Hfree Hedge.
  assert (Hnot : Forall (fun f => ~ In d f) r).
  { eapply Forall_impl; [|exact Hfree]. intros f Hf Hin.
    destruct (delimiter_free_spec f d Hf Hin) as [H _]. apply H. exact Hd. }
  rewrite <- (count_char_join d D _ Hnot). unfold render_row.
  destruct (row_shape r Hlen) as [f1 [mid [fC E]]]. subst r.
  assert (H1 : ~ In d f1) by (inversion Hnot; assumption).
  assert (HC : ~ In d fC).
  { rewrite Forall_forall in Hnot. apply Hnot. right.
    apply in_or_app. right. left. reflexivity. }
  assert (Hcond : (lstrip f1 <> [] /\ rstrip fC <> []) \/ isspace D = false).
  { destruct (N.eq_dec D TAB) as [Ht|Ht].
    - left. specialize (Hedge Ht). unfold edges_not_blank in Hedge.
      change (f1 :: mid ++ [fC]) with ((f1 :: mid) ++ [fC]) in Hedge.
      rewrite last_snoc in Hedge.
      apply andb_true_iff in Hedge. destruct Hedge as [Ha Hb].
      cbn [hd app] in Ha.
      split; [apply not_blank_lstrip | apply not_blank_rstrip]; assumption.
    - right. apply delimiter_not_space; assumption. }
  destruct mid as [|g mid].
  - simpl. apply (count_strip_between d f1 D [] fC Hcond H1 HC).
  - rewrite join_cons by discriminate.
    rewrite join_snoc by discriminate.
    apply (count_strip_between d f1 D (join [D] (g :: mid)) fC Hcond H1 HC).
Qed.

Lemma rendered_row_no_LF (D : char) (r : list str) :
  In D delimiters -> Forall (fun f => delimiter_free f = true) r ->
  ~ In LF (render_row D r).
Proof.
  intros HD Hfree Hin. apply in_join in Hin.
  destruct Hin as [E|[f [Hf Hc]]].
  - symmetry in E. revert E. apply delimiter_not_LF. exact HD.
  - rewrite Forall_forall in Hfree.
    destruct (delimiter_free_spec f LF (Hfree f Hf) Hc) as [_ H]. auto.
Qed.

Lemma split_render (D : char) (rws : list (list str)) :
  In D delimiters ->
  Forall (Forall (fun f => delimiter_free f = true)) rws ->
  split LF (render D rws) = map (render_row D) rws ++ [[]].
Proof.
  intros HD. induction rws as [|r rws IH]; intros Hfree; [reflexivity|].
  inversion Hfree as [|? ? H1 H2]; subst.
  unfold render. simpl. rewrite <- app_assoc. simpl.
  rewrite split_line by (apply rendered_row_no_LF; assumption).
  f_equal. apply IH. exact H2.
Qed.

Lemma io_lines_render (D : char) (rws : list (list str)) :
  In D delimiters ->
  Forall (Forall (fun f => delimiter_free f = true)) rws ->
  io_lines (render D rws) = map (fun r => render_row D r ++ [LF]) rws.
Proof.
  intros HD. induction rws as [|r rws IH]; intros Hfree; [reflexivity|].
  inversion Hfree as [|? ? H1 H2]; subst.
  unfold render. simpl. rewrite <- app_assoc. simpl.
  rewrite io_lines_line by (apply rendered_row_no_LF; assumption).
  f_equal. apply IH. exact H2.
Qed.

(** The first loop keeps the first 30 lines when every line is a candidate. *)
Lemma collect_all_candidates (L : list str) : forall acc,
  Forall (fun l => strip l <> [] /\ has_delimiter (strip l) = true) L ->
  List.length acc < 30 ->
  collect_candidates (L ++ [[]]) acc = firstn 30 (acc ++ map strip L).
Proof.
  induction L as [|l L IH]; intros acc HL Hacc.
  - change (collect_candidates ([] ++ [[]]) acc) with acc.
    cbn [map]. rewrite app_nil_r. symmetry. apply firstn_all2. lia.
  - inversion HL as [|? ? [Hne Hdel] HL']; subst.
    cbn [app collect_candidates map].
    assert (Hem : is_empty (strip l) = false)
      by (destruct (strip l); [contradiction | reflexivity]).
    rewrite Hem, Hdel.
    replace (acc ++ strip l :: map strip L)
      with ((acc ++ [strip l]) ++ map strip L)
      by (rewrite <- app_assoc; reflexivity).
    assert (Hlen : List.length (acc ++ [strip l]) = S (List.length acc))
      by (rewrite length_app; cbn [List.length]; lia).
    destruct (30 <=? List.length (acc ++ [strip l])) eqn:H30.
    + apply Nat.leb_le in H30.
      rewrite firstn_app.
      replace (30 - List.length (acc ++ [strip l])) with 0 by lia.
      rewrite firstn_O, app_nil_r. symmetry. apply firstn_all2. lia.
    + apply Nat.leb_gt in H30. apply IH; [exact HL' | lia].
Qed.

Lemma map_constant {A B} (f : A -> B) (l : list A) (v : B) :
  (forall x, In x l -> f x = v) -> map f l = repeat v (List.length l).
Proof.
  induction l as [|x l IH]; intros H; [reflexivity|].
  simpl. rewrite (H x) by (left; reflexivity).
  rewrite IH by (intros y Hy; apply H; right; exact Hy). reflexivity.
Qed.

Lemma forallb_repeat_zero (n : nat) : forallb (Nat.eqb 0) (repeat 0 n) = true.
Proof. induction n; simpl; auto. Qed.

Lemma filter_repeat_positive (v n : nat) :
  0 < v -> filter (fun c => 0 <? c) (repeat v n) = repeat v n.
Proof.
  intros Hv. induction n as [|n IH]; [reflexivity|].
  simpl. destruct (Nat.ltb_spec 0 v); [|lia]. rewrite IH. reflexivity.
Qed.

Lemma distinct_repeat (v n : nat) : 0 < n -> distinct (repeat v n) = 1.
Proof.
  unfold distinct. destruct n as [|n]; [lia|]. intros _.
  induction n as [|n IH]; [reflexivity|].
  change (repeat v (S (S n))) with (v :: repeat v (S n)).
  cbn [nodup]. destruct (in_dec Nat.eq_dec v (repeat v (S n))) as [H|H].
  - exact IH.
  - exfalso. apply H. left. reflexivity.
Qed.

(** A delimiter that occurs on no candidate line is skipped. *)
Lemma score_absent (d : char) (cl : list str) :
  (forall l, In l cl -> count_char d l = 0) -> delimiter_score d cl = None.
Proof.
  intros H. unfold delimiter_score.
  rewrite (map_constant (count_char d) cl 0 H), forallb_repeat_zero, orb_true_r.
  reflexivity.
Qed.

Lemma Qnat_pos (n : nat) : 0 < n -> ~ (Qnat n == 0)%Q.
Proof.
  intros Hn. unfold Qnat, inject_Z, Qeq. simpl. lia.
Qed.

Lemma Qnat_le (a b : nat) : a <= b -> (Qnat a <= Qnat b)%Q.
Proof. intros H. unfold Qnat, inject_Z, Qle. simpl. lia. Qed.

(** A delimiter that occurs [v >= 1] times on each of at least two candidate
    lines gets a score above 1. *)
Lemma score_uniform (d : char) (cl : list str) (v : nat) :
  1 <= v -> 2 <= List.length cl ->
  (forall l, In l cl -> count_char d l = v) ->
  exists sc, delimiter_score d cl = Some sc /\ (1 < sc)%Q.
Proof.
  intros Hv Hn H. unfold delimiter_score.
  rewrite (map_constant (count_char d) cl v H).
  set (n := List.length cl) in *.
  assert (Hne : is_empty (repeat v n) = false)
    by (destruct n; [lia | reflexivity]).
  assert (Hnz : forallb (Nat.eqb 0) (repeat v n) = false).
  { destruct n as [|n']; [lia|]. destruct v; [lia | reflexivity]. }
  rewrite Hne, Hnz. cbn [orb].
  rewrite filter_repeat_positive by lia.
  rewrite repeat_length.
  destruct (Nat.ltb_spec n 2) as [Hlt|_]; [lia|].
  rewrite distinct_repeat by lia. cbn [Nat.eqb].
  assert (Hhd : hd 0 (repeat v n) = v) by (destruct n; [lia | reflexivity]).
  rewrite Hhd.
  destruct (Nat.ltb_spec 0 v) as [_|Hlt]; [|lia]. cbn [andb].
  set (base := (Qnat (v * 100) * (Qnat n / Qnat n))%Q).
  assert (Hbase : (100 <= base)%Q).
  { assert (E : (base == Qnat (v * 100))%Q).
    { subst base. unfold Qdiv. rewrite Qmult_inv_r by (apply Qnat_pos; lia).
      apply Qmult_1_r. }
    rewrite E. apply (Qnat_le 100). lia. }
  destruct (d =? TAB)%N.
  - destruct (Qle_bool 3 _).
    + exists (base * 2)%Q. split; [reflexivity | lra].
    + exists base. split; [reflexivity | lra].
  - exists base. split; [reflexivity | lra].
Qed.

(** The loop over the four candidates keeps the one delimiter that has a
    score. *)
Lemma best_of_delimiters (cl : list str) (D : char) (sc : Q) :
  In D delimiters -> delimiter_score D cl = Some sc -> (1 < sc)%Q ->
  (forall d, In d delimiters -> d <> D -> delimiter_score d cl = None) ->
  fold_left (best_step cl) delimiters (None, (-1)%Q) = (Some D, sc).
Proof.
  intros HD Hsc H1 Hnone.
  assert (Hb : Qltb (-1) sc = true) by (apply Qltb_lt; lra).
  assert (Hc : Hnone = Hnone) by reflexivity.
  unfold delimiters in *. simpl in HD.
  destruct HD as [E|[E|[E|[E|[]]]]]; subst D; cbn [fold_left];
    unfold best_step;
    repeat match goal with
           | |- context [delimiter_score ?d cl] =>
               first [ rewrite Hsc
                     | rewrite (Hnone d) by (first [simpl; tauto | discriminate]) ]
           end;
    cbn [snd]; rewrite ?Hb; reflexivity.
Qed.

Lemma has_delimiter_count (D : char) (l : str) :
  In D delimiters -> 0 < count_char D l -> has_delimiter l = true.
Proof.
  intros HD Hc. unfold has_delimiter. apply existsb_exists. exists D.
  split; [exact HD|]. apply contains_in.
  destruct (in_dec N.eq_dec D l) as [H|H]; [exact H|].
  apply count_char_zero in H. lia.
Qed.

(** What stripping a rendered row leaves: see [stripped_row_count]. *)
Lemma stripped_rows_count (D : char) (rws : list (list str)) (C : nat) :
  In D delimiters -> 2 <= C ->
  Forall (fun r => List.length r = C) rws ->
  Forall (Forall (fun f => delimiter_free f = true)) rws ->
  (D = TAB -> Forall (fun r => edges_not_blank r = true) rws) ->
  forall d r, In d delimiters -> In r rws ->
    count_char d (strip (render_row D r)) = if (d =? D)%N then C - 1 else 0.
Proof.
  intros HD HC Hrect Hfree Hedge d r Hd Hr.
  rewrite Forall_forall in Hrect, Hfree.
  rewrite <- (Hrect r Hr).
  apply stripped_row_count; auto.
  - rewrite (Hrect r Hr). exact HC.
  - intros Ht. specialize (Hedge Ht). rewrite Forall_forall in Hedge. auto.
Qed.

Lemma rendered_rows_good (D : char) (rws : list (list str)) (C : nat) :
  In D delimiters -> 2 <= C ->
  Forall (fun r => List.length r = C) rws ->
  Forall (Forall (fun f => delimiter_free f = true)) rws ->
  (D = TAB -> Forall (fun r => edges_not_blank r = true) rws) ->
  Forall (fun l => strip l <> [] /\ has_delimiter (strip l) = true)
    (map (render_row D) rws).
Proof.
  intros HD HC Hrect Hfree Hedge.
  apply Forall_forall. intros l Hl. apply in_map_iff in Hl.
  destruct Hl as [r [<- Hr]].
  pose proof (stripped_rows_count D rws C HD HC Hrect Hfree Hedge D r HD Hr) as Hc.
  rewrite N.eqb_refl in Hc. split.
  - intros E. rewrite E in Hc. unfold count_char in Hc. simpl in Hc. lia.
  - apply (has_delimiter_count D _ HD). lia.
Qed.

(** When the candidate lines are stripped rows of the table, at least two of
    them, the delimiter of the table is detected. *)
Lemma detect_by_candidates (sample : str) (D : char) (rws : list (list str))
  (C : nat) (cl : list str) :
  In D delimiters -> 2 <= C ->
  Forall (fun r => List.length r = C) rws ->
  Forall (Forall (fun f => delimiter_free f = true)) rws ->
  (D = TAB -> Forall (fun r => edges_not_blank r = true) rws) ->
  collect_candidates (split LF sample) [] = cl ->
  2 <= List.length cl ->
  (forall l, In l cl -> exists r, In r rws /\ l = strip (render_row D r)) ->
  _detect_delimiter sample = Some D.
Proof.
  intros HD HC Hrect Hfree Hedge Hcl Hlen Hin.
  pose proof (stripped_rows_count D rws C HD HC Hrect Hfree Hedge) as Hcount.
  unfold _detect_delimiter. rewrite Hcl.
  assert (Hltb : (List.length cl <? 2) = false) by (apply Nat.ltb_ge; exact Hlen).
  assert (Hltb' : (@List.length (list char) cl <? 2) = false) by exact Hltb.
  rewrite Hltb. cbv iota. rewrite Hltb'. cbv iota zeta.
  destruct (score_uniform D cl (C - 1)) as [sc [Hsc H1]]; [lia | exact Hlen | |].
  { intros l Hl. destruct (Hin l Hl) as [r [Hr ->]].
    rewrite (Hcount D r HD Hr), N.eqb_refl. reflexivity. }
  rewrite (best_of_delimiters cl D sc HD Hsc H1).
  - cbn [fst snd]. assert (Hb : Qltb 1 sc = true) by (apply Qltb_lt; exact H1).
    rewrite Hb. reflexivity.
  - intros d Hd Hne. apply score_absent. intros l Hl.
    destruct (Hin l Hl) as [r [Hr ->]].
    rewrite (Hcount d r Hd Hr).
    destruct (N.eqb_spec d D); [contradiction | reflexivity].
Qed.

Lemma in_firstn {A} (n : nat) (l : list A) (x : A) : In x (firstn n l) -> In x l.
Proof.
  intros H. rewrite <- (firstn_skipn n l). apply in_or_app. left. exact H.
Qed.

Lemma render_app (D : char) (P Q : list (list str)) :
  render D (P ++ Q) = render D P ++ render D Q.
Proof. unfold render. apply flat_map_app. Qed.

Lemma split_render_app (D : char) (P : list (list str)) (tail : str) :
  In D delimiters ->
  Forall (Forall (fun f => delimiter_free f = true)) P ->
  split LF (render D P ++ tail) = map (render_row D) P ++ split LF tail.
Proof.
  intros HD. induction P as [|r P IH]; intros Hfree; [reflexivity|].
  inversion Hfree as [|? ? H1 H2]; subst.
  unfold render. cbn [flat_map map app]. rewrite <- !app_assoc. cbn [app].
  rewrite split_line by (apply rendered_row_no_LF; assumption).
  f_equal. apply IH. exact H2.
Qed.

(** The first loop stops at 30 candidates, whatever follows. *)
Lemma collect_thirty (L T : list str) : forall acc,
  Forall (fun l => strip l <> [] /\ has_delimiter (strip l) = true) L ->
  List.length acc < 30 -> 30 <= List.length acc + List.length L ->
  collect_candidates (L ++ T) acc = firstn 30 (acc ++ map strip L).
Proof.
  induction L as [|l L IH]; intros acc HL Hacc Hfull.
  - cbn [List.length] in Hfull. lia.
  - inversion HL as [|? ? [Hne Hdel] HL']; subst.
    cbn [app collect_candidates map].
    assert (Hem : is_empty (strip l) = false)
      by (destruct (strip l); [contradiction | reflexivity]).
    rewrite Hem, Hdel.
    replace (acc ++ strip l :: map strip L)
      with ((acc ++ [strip l]) ++ map strip L)
      by (rewrite <- app_assoc; reflexivity).
    assert (Hlen : List.length (acc ++ [strip l]) = S (List.length acc))
      by (rewrite length_app; cbn [List.length]; lia).
    destruct (30 <=? List.length (acc ++ [strip l])) eqn:H30.
    + apply Nat.leb_le in H30.
      rewrite firstn_app.
      replace (30 - List.length (acc ++ [strip l])) with 0 by lia.
      rewrite firstn_O, app_nil_r. symmetry. apply firstn_all2. lia.
    + apply Nat.leb_gt in H30. cbn [List.length] in Hfull.
      apply IH; [exact HL' | lia | lia].
Qed.

(** The candidate lines of the sample of a rendered table. *)
Lemma candidates_of_sample (D : char) (rws : list (list str)) (C : nat) :
  In D delimiters -> 2 <= List.length rws -> 2 <= C ->
  Forall (fun r => List.length r = C) rws ->
  Forall (Forall (fun f => delimiter_free f = true)) rws ->
  (D = TAB -> Forall (fun r => edges_not_blank r = true) rws) ->
  sample_holds D rws ->
  collect_candidates (split LF (firstn sample_size (render D rws))) []
  = firstn 30 (map strip (map (render_row D) rws)).
Proof.
  intros HD HR HC Hrect Hfree Hedge [Hall|[H30 Hfit]].
  - rewrite firstn_all2 by exact Hall.
    rewrite (split_render D rws HD Hfree).
    rewrite collect_all_candidates.
    + reflexivity.
    + apply (rendered_rows_good D rws C); assumption.
    + cbn [List.length]. lia.
  - set (P := firstn 30 rws) in *. set (Q := skipn 30 rws).
    assert (E : rws = P ++ Q) by (symmetry; apply firstn_skipn).
    assert (HP : List.length P = 30) by (subst P; rewrite length_firstn; lia).
    assert (HfreeP : Forall (Forall (fun f => delimiter_free f = true)) P).
    { apply Forall_forall. intros r Hr. rewrite Forall_forall in Hfree.
      apply Hfree. apply (in_firstn 30). exact Hr. }
    assert (Hgood : Forall (fun l => strip l <> [] /\ has_delimiter (strip l) = true)
                      (map (render_row D) P)).
    { pose proof (rendered_rows_good D rws C HD HC Hrect Hfree Hedge) as G.
      rewrite Forall_forall in *. intros l Hl. apply G.
      apply in_map_iff in Hl. destruct Hl as [r [<- Hr]].
      apply in_map. apply (in_firstn 30). exact Hr. }
    rewrite E at 1. rewrite render_app, firstn_app.
    rewrite (@firstn_all2 _ sample_size (render D P)) by exact Hfit.
    rewrite (split_render_app D P _ HD HfreeP).
    rewrite (collect_thirty _ _ [] Hgood)
      by (cbn [List.length]; rewrite ?length_map; lia).
    cbn [app]. subst P.
    rewrite <- !firstn_map, firstn_firstn, Nat.min_id. reflexivity.
Qed.

Lemma detect_rendered (D : char) (rws : list (list str)) (C : nat) :
  In D delimiters -> 2 <= List.length rws -> 2 <= C ->
  Forall (fun r => List.length r = C) rws ->
  Forall (Forall (fun f => delimiter_free f = true)) rws ->
  (D = TAB -> Forall (fun r => edges_not_blank r = true) rws) ->
  sample_holds D rws ->
  _detect_delimiter (firstn sample_size (render D rws)) = Some D.
Proof.
  intros HD HR HC Hrect Hfree Hedge Hfit.
  apply (detect_by_candidates _ D rws C
           (firstn 30 (map strip (map (render_row D) rws)))); auto.
  - apply candidates_of_sample with (C := C); assumption.
  - rewrite length_firstn, !length_map. lia.
  - intros l Hl. apply in_firstn in Hl.
    apply in_map_iff in Hl. destruct Hl as [x [<- Hx]].
    apply in_map_iff in Hx. destruct Hx as [r [<- Hr]]. eauto.
Qed.

(** C4, as amended.  A table of at least two rows, each of the same number
    [C >= 2] of fields, is written with a delimiter [D] among comma, tab,
    semicolon and pipe between the fields and a line feed after each row.
    When no field contains a candidate delimiter or a line feed, when for
    the tab the first and the last field of every row are not blank, and
    when the first 8192 characters hold the whole text or its first 30 rows,
    the detector returns [D], and [detect_dialect] sets the dialect to
    [csv.excel] with the delimiter [D]. *)
Theorem C4_delimiter_round_trip :
  forall (sniff : str -> option Csv.Dialect) (D : char)
         (rws : list (list str)) (C : nat) (s : State),
    In D delimiters -> 2 <= List.length rws -> 2 <= C ->
    Forall (fun r => List.length r = C) rws ->
    Forall (Forall (fun f => delimiter_free f = true)) rws ->
    (D = TAB -> Forall (fun r => edges_not_blank r = true) rws) ->
    sample_holds D rws ->
    raw_content s = render D rws ->
    _detect_delimiter (firstn sample_size (raw_content s)) = Some D
    /\ detected_dialect (detect_dialect sniff s) = Some (Csv.excel D).
Proof.
  intros sniff D rws C s HD HR HC Hrect Hfree Hedge Hfit Hraw.
  pose proof (detect_rendered D rws C HD HR HC Hrect Hfree Hedge Hfit) as Hdet.
  rewrite Hraw. split; [exact Hdet|].
  unfold detect_dialect. rewrite Hraw, Hdet. reflexivity.
Qed.

Lemma C4_delimiter_round_trip_witness :
  In SEMICOLON delimiters
  /\ 2 <= List.length people_rows
  /\ Forall (fun r => List.length r = 2) people_rows
  /\ Forall (Forall (fun f => delimiter_free f = true)) people_rows
  /\ sample_holds SEMICOLON people_rows
  /\ _detect_delimiter
       (firstn sample_size (raw_content (read_state (render SEMICOLON people_rows))))
     = Some SEMICOLON
  /\ detected_dialect
       (detect_dialect no_sniff (read_state (render SEMICOLON people_rows)))
     = Some (Csv.excel SEMICOLON).
Proof.
  assert (H1 : In SEMICOLON delimiters) by (simpl; tauto).
  assert (H2 : 2 <= List.length people_rows) by (simpl; lia).
  assert (H3 : Forall (fun r => List.length r = 2) people_rows)
    by (repeat constructor).
  assert (H4 : Forall (Forall (fun f => delimiter_free f = true)) people_rows)
    by (repeat constructor).
  assert (H5 : SEMICOLON = TAB ->
               Forall (fun r => edges_not_blank r = true) people_rows)
    by (intros E; discriminate E).
  assert (H6 : sample_holds SEMICOLON people_rows)
    by (left; apply Nat.leb_le; vm_compute; reflexivity).
  destruct (C4_delimiter_round_trip no_sniff SEMICOLON people_rows 2
              (read_state (render SEMICOLON people_rows))
              H1 H2 (le_n 2) H3 H4 H5 H6 eq_refl) as [Ha Hb].
  repeat split; assumption.
Defined.

(** C4 as stated fails on semicolon-separated decimal numbers: the two rows
    [1,5;2,5] and [3,5;4,5] have one comma and one semicolon on every line,
    both candidates score 100, and the comma, which is tried first, wins. *)
Lemma C4_delimiter_round_trip_counterexample :
  List.length decimal_rows = 2
  /\ map (@List.length str) decimal_rows = [2; 2]
  /\ _detect_delimiter
       (firstn sample_size (render SEMICOLON decimal_rows))
     = Some COMMA
  /\ detected_dialect
       (detect_dialect no_sniff (read_state (render SEMICOLON decimal_rows)))
     = Some (Csv.excel COMMA).
Proof. vm_compute. repeat split. Qed.

(** ** Reading an ASCII file *)












(** ** Plain fields and the text of a table *)

Ltac cmp_false :=
  unfold between; unfold char in *;
  repeat apply orb_false_intro;
  first [ apply N.eqb_neq; lia
        | apply andb_false_iff; left; apply N.leb_gt; lia
        | apply andb_false_iff; right; apply N.leb_gt; lia ].

Lemma isspace_printable (c : char) :
  (32 <= c <= 126)%N -> c <> SPACE -> isspace c = false.
Proof. intros H Hs. unfold isspace, SPACE in *. cmp_false. Qed.

Lemma plain_char_spec (c : char) :
  plain_char c = true ->
  (32 <= c <= 126)%N /\ c <> QUOTE /\ ~ In c delimiters.
Proof.
  unfold plain_char, between. intros H.
  apply andb_true_iff in H. destruct H as [H Hd].
  apply andb_true_iff in H. destruct H as [H Hq].
  apply andb_true_iff in H. destruct H as [Hlo Hhi].
  apply N.leb_le in Hlo, Hhi. apply negb_true_iff in Hq, Hd.
  apply N.eqb_neq in Hq. repeat split; try assumption.
  intros Hin. assert (E : existsb (N.eqb c) delimiters = true).
  { apply existsb_exists. exists c. split; [exact Hin | apply N.eqb_refl]. }
  congruence.
Qed.

Lemma plain_field_parts (f : str) :
  plain_field f = true ->
  f <> [] /\ Forall (fun c => plain_char c = true) f
  /\ hd SPACE f <> SPACE /\ last f SPACE <> SPACE
  /\ List.length f <= max_reasonable_length.
Proof.
  unfold plain_field. intros H.
  apply andb_true_iff in H. destruct H as [H Hlen].
  apply andb_true_iff in H. destruct H as [H Hlast].
  apply andb_true_iff in H. destruct H as [H Hhd].
  apply andb_true_iff in H. destruct H as [Hne Hall].
  apply negb_true_iff in Hne, Hhd, Hlast.
  apply N.eqb_neq in Hhd, Hlast. apply Nat.leb_le in Hlen.
  repeat split; try assumption.
  - intros ->. discriminate Hne.
  - apply Forall_forall. apply forallb_forall. exact Hall.
Qed.

Lemma plain_field_chars (f : str) (c : char) :
  plain_field f = true -> In c f ->
  (32 <= c <= 126)%N /\ c <> QUOTE /\ ~ In c delimiters.
Proof.
  intros H Hin. apply plain_field_parts in H.
  destruct H as [_ [Hall _]]. rewrite Forall_forall in Hall.
  apply plain_char_spec. auto.
Qed.




Lemma plain_delimiter_free (f : str) :
  plain_field f = true -> delimiter_free f = true.
Proof.
  intros H. unfold delimiter_free. apply forallb_forall. intros c Hc.
  destruct (plain_field_chars f c H Hc) as [Hr [_ Hd]].
  apply andb_true_iff. split; apply negb_true_iff.
  - destruct (existsb (N.eqb c) delimiters) eqn:E; [|reflexivity].
    apply existsb_exists in E. destruct E as [d [Hin Hd']].
    apply N.eqb_eq in Hd'. subst d. contradiction.
  - apply N.eqb_neq. unfold LF, char in *. lia.
Qed.

Lemma plain_fields_free (rws : list (list str)) :
  Forall (Forall (fun f => plain_field f = true)) rws ->
  Forall (Forall (fun f => delimiter_free f = true)) rws.
Proof.
  intros H. eapply Forall_impl; [|exact H]. cbv beta. intros r Hr.
  eapply Forall_impl; [|exact Hr]. exact plain_delimiter_free.
Qed.

(** The characters of a rendered table. *)
Lemma in_render (D : char) (rws : list (list str)) (c : char) :
  In c (render D rws) ->
  c = LF \/ c = D \/ exists r f, In r rws /\ In f r /\ In c f.
Proof.
  unfold render. intros H. apply in_flat_map in H.
  destruct H as [r [Hr Hc]]. apply in_app_or in Hc. destruct Hc as [Hc|Hc].
  - apply in_join in Hc. destruct Hc as [->|[f [Hf Hc]]]; [tauto|].
    right. right. exists r, f. tauto.
  - destruct Hc as [<-|[]]. tauto.
Qed.

Lemma join_in (D : char) (r : list str) (f : str) (c : char) :
  In f r -> In c f -> In c (join [D] r).
Proof.
  induction r as [|g r IH]; [intros []|].
  intros Hf Hc. destruct r as [|g' r'].
  - destruct Hf as [->|[]]. exact Hc.
  - change (join [D] (g :: g' :: r')) with (g ++ [D] ++ join [D] (g' :: r')).
    apply in_or_app. destruct Hf as [->|Hf]; [left; exact Hc|].
    right. apply in_or_app. right. apply IH; assumption.
Qed.

Lemma render_in (D : char) (rws : list (list str)) (r : list str) (f : str)
  (c : char) :
  In r rws -> In f r -> In c f -> In c (render D rws).
Proof.
  intros Hr Hf Hc. unfold render. apply in_flat_map. exists r.
  split; [exact Hr|]. apply in_or_app. left. unfold render_row.
  apply (join_in D r f c); assumption.
Qed.

(** A table of plain fields written with a comma, a semicolon or a pipe is
    made of line feeds and printable characters other than the quote. *)
Lemma render_plain (D : char) (rws : list (list str)) (c : char) :
  In D [COMMA; SEMICOLON; PIPE] ->
  Forall (Forall (fun f => plain_field f = true)) rws ->
  In c (render D rws) ->
  c = LF \/ ((32 <= c <= 126)%N /\ c <> QUOTE).
Proof.
  intros HD Hp Hc. apply in_render in Hc.
  destruct Hc as [->|[->|[r [f [Hr [Hf Hc]]]]]]; [tauto| |].
  - right. unfold COMMA, SEMICOLON, PIPE, QUOTE in *. cbn [In] in HD.
    destruct HD as [<-|[<-|[<-|[]]]]; split; (lia || discriminate).
  - right. rewrite Forall_forall in Hp. specialize (Hp r Hr).
    rewrite Forall_forall in Hp. specialize (Hp f Hf).
    destruct (plain_field_chars f c Hp Hc) as [H1 [H2 _]]. tauto.
Qed.

Lemma render_ascii (D : char) (rws : list (list str)) :
  In D [COMMA; SEMICOLON; PIPE] ->
  Forall (Forall (fun f => plain_field f = true)) rws ->
  ascii_text (render D rws).
Proof.
  intros HD Hp. apply Forall_forall. intros c Hc.
  destruct (render_plain D rws c HD Hp Hc) as [->|[H _]].
  - unfold LF. lia.
  - unfold char in *. lia.
Qed.

Lemma render_without (D : char) (rws : list (list str)) (x : char) :
  In D [COMMA; SEMICOLON; PIPE] ->
  Forall (Forall (fun f => plain_field f = true)) rws ->
  x <> LF -> ((x < 32)%N \/ (126 < x)%N \/ x = QUOTE) ->
  ~ In x (render D rws).
Proof.
  intros HD Hp HL Hx Hin.
  destruct (render_plain D rws x HD Hp Hin) as [E|[H Hq]]; [contradiction|].
  unfold char in *. destruct Hx as [Hx|[Hx|Hx]]; [lia | lia | contradiction].
Qed.

(** ** The checks on the text add nothing to a clean text *)




Lemma count_pair_absent (a b : char) (t : str) :
  ~ In a t -> count_pair a b t = 0.
Proof.
  induction t as [|x r IH]; [reflexivity|].
  intros H. cbn [count_pair]. destruct r as [|y r']; [reflexivity|].
  destruct (N.eqb_spec x a) as [E|E].
  - exfalso. apply H. left. exact E.
  - cbn [andb]. apply IH. intros Hin. apply H. right. exact Hin.
Qed.

Lemma check_line_endings_clean (s : State) :
  ~ In CR (raw_content s) -> check_line_endings s = s.
Proof.
  intros H. unfold check_line_endings, line_endings.
  rewrite (count_pair_absent CR LF _ H).
  apply count_char_zero in H. rewrite H.
  cbn [Nat.ltb Nat.leb Nat.sub app].
  destruct (count_char LF (raw_content s) - 0) as [|n]; reflexivity.
Qed.

Lemma forallb_lstrip (x : str) :
  forallb isspace (lstrip x) = true -> forallb isspace x = true.
Proof.
  induction x as [|c r IH]; [reflexivity|].
  cbn [lstrip]. destruct (isspace c) eqn:E.
  - intros H. cbn [forallb]. rewrite E. apply IH. exact H.
  - cbn [forallb]. rewrite E. discriminate.
Qed.

Lemma strip_nil_blank (t : str) :
  strip t = [] -> forallb isspace t = true.
Proof.
  unfold strip. intros H. apply lstrip_nil_iff in H.
  assert (E : rstrip (rstrip t) = []) by (apply rstrip_nil_iff; exact H).
  apply rstrip_nil_iff.
  unfold rstrip in E |- *. rewrite rev_involutive in E.
  apply (f_equal (@rev char)) in E. rewrite rev_involutive in E.
  cbn [rev] in E. apply lstrip_nil_iff in E. apply forallb_lstrip in E.
  apply lstrip_nil_iff in E. rewrite E. reflexivity.
Qed.


(** A table with a plain field is not blank. *)
Lemma render_not_blank (D : char) (rws : list (list str)) (C : nat) :
  1 <= List.length rws -> 1 <= C ->
  Forall (fun r => List.length r = C) rws ->
  Forall (Forall (fun f => plain_field f = true)) rws ->
  strip (render D rws) <> [].
Proof.
  intros HR HC Hrect Hp Hs. apply strip_nil_blank in Hs.
  destruct rws as [|r rws]; [cbn in HR; lia|].
  inversion Hrect as [|? ? Hlen _]; subst.
  inversion Hp as [|? ? Hr _]; subst.
  destruct r as [|f r]; [cbn in HC; lia|].
  inversion Hr as [|? ? Hf _]; subst.
  destruct (plain_field_parts f Hf) as [Hne [Hall [Hhd _]]].
  destruct f as [|c f]; [congruence|]. cbn [hd] in Hhd.
  inversion Hall as [|? ? Hc _]; subst.
  apply plain_char_spec in Hc. destruct Hc as [Hrange _].
  pose proof (isspace_printable c Hrange Hhd) as E.
  rewrite forallb_forall in Hs.
  rewrite (Hs c) in E; [discriminate|].
  apply (render_in D _ ((c :: f) :: r) (c :: f) c); left; reflexivity.
Qed.


(** ** The reader gives back the rows of a rendered table *)

Lemma ordinary_tests (D c : char) :
  ordinary D c ->
  Csv.is_newline c = false /\ (c =? QUOTE)%N = false /\ (c =? D)%N = false.
Proof.
  intros [H1 [H2 [H3 H4]]]. unfold Csv.is_newline.
  apply N.eqb_neq in H1, H2, H3, H4. rewrite H1, H2, H3, H4. auto.
Qed.

Lemma add_char_fits (rd : Csv.Reader) (c : char) :
  List.length (Csv.field rd) <= max_reasonable_length ->
  Csv.parse_add_char rd c
  = inl {| Csv.state := Csv.state rd; Csv.field := Csv.field rd ++ [c];
           Csv.fields := Csv.fields rd |}.
Proof.
  intros H. unfold Csv.parse_add_char.
  destruct (N.leb_spec Csv.field_limit (N.of_nat (List.length (Csv.field rd))))
    as [L|_]; [|reflexivity].
  exfalso. unfold Csv.field_limit, max_reasonable_length in *. lia.
Qed.

(** Inside a field, ordinary characters are appended to it. *)
Lemma feed_in_field (D : char) (g : str) : forall (pre : str) (fs : list str)
  (rest : str),
  Forall (ordinary D) g ->
  List.length pre + List.length g <= S max_reasonable_length ->
  Csv.feed (Csv.excel D)
    {| Csv.state := Csv.IN_FIELD; Csv.field := pre; Csv.fields := fs |}
    (g ++ rest)
  = Csv.feed (Csv.excel D)
      {| Csv.state := Csv.IN_FIELD; Csv.field := pre ++ g; Csv.fields := fs |}
      rest.
Proof.
  induction g as [|c g IH]; intros pre fs rest Hg Hlen.
  - rewrite app_nil_r. reflexivity.
  - inversion Hg as [|? ? Hc Hg']; subst.
    destruct (ordinary_tests D c Hc) as [Hn [_ Hd]].
    cbn [app Csv.feed]. unfold Csv.parse_process_char.
    cbn [Csv.state Csv.excel Csv.delimiter]. rewrite Hn, Hd.
    rewrite add_char_fits by (cbn [Csv.field List.length] in *; lia).
    cbn [Csv.state Csv.field Csv.fields].
    rewrite IH; [|exact Hg'|].
    + rewrite <- app_assoc. reflexivity.
    + rewrite length_app. cbn [List.length] in *. lia.
Qed.

(** At the start of a record or of a field, a non-empty field of ordinary
    characters is read up to its end. *)
Lemma feed_field (D : char) (f : str) (rd : Csv.Reader) (rest : str) :
  Csv.state rd = Csv.START_RECORD \/ Csv.state rd = Csv.START_FIELD ->
  Csv.field rd = [] ->
  f <> [] -> Forall (ordinary D) f ->
  List.length f <= max_reasonable_length ->
  Csv.feed (Csv.excel D) rd (f ++ rest)
  = Csv.feed (Csv.excel D)
      {| Csv.state := Csv.IN_FIELD; Csv.field := f;
         Csv.fields := Csv.fields rd |}
      rest.
Proof.
  intros Hst Hfield Hne Hf Hlen.
  destruct f as [|c g]; [congruence|].
  inversion Hf as [|? ? Hc Hg]; subst.
  destruct (ordinary_tests D c Hc) as [Hn [Hq Hd]].
  destruct rd as [st fl fs]. cbn [Csv.state Csv.field Csv.fields] in *. subst fl.
  assert (E : Csv.parse_process_char (Csv.excel D)
                {| Csv.state := st; Csv.field := []; Csv.fields := fs |} (Csv.Ch c)
              = inl {| Csv.state := Csv.IN_FIELD; Csv.field := [c];
                       Csv.fields := fs |}).
  { unfold Csv.parse_process_char, Csv.start_field.
    destruct Hst as [->| ->]; cbn [Csv.state Csv.set_state Csv.field Csv.fields];
      rewrite Hn; cbn [Csv.excel Csv.quotechar Csv.skipinitialspace Csv.delimiter];
      rewrite Hq, Hd, andb_false_r;
      rewrite add_char_fits
        by (cbn [Csv.field Csv.set_state List.length]; lia);
      reflexivity. }
  change ((c :: g) ++ rest) with (c :: (g ++ rest)).
  cbn [Csv.feed]. rewrite E.
  rewrite (feed_in_field D g [c] fs rest Hg)
    by (cbn [List.length] in *; lia).
  reflexivity.
Qed.

(** A row and its line feed leave the automaton waiting for the end of the
    line, with the fields of the row added. *)
Lemma feed_row (D : char) (r : list str) : forall (rd : Csv.Reader),
  Csv.is_newline D = false ->
  r <> [] ->
  Csv.state rd = Csv.START_RECORD \/ Csv.state rd = Csv.START_FIELD ->
  Csv.field rd = [] ->
  Forall (fun f => f <> [] /\ Forall (ordinary D) f
                   /\ List.length f <= max_reasonable_length) r ->
  Csv.feed (Csv.excel D) rd (render_row D r ++ [LF])
  = inl {| Csv.state := Csv.EAT_CRNL; Csv.field := [];
           Csv.fields := Csv.fields rd ++ r |}.
Proof.
  unfold render_row. intros rd HD.
  revert rd. induction r as [|f r IH]; intros rd Hne Hst Hfield Hr; [congruence|].
  inversion Hr as [|? ? [Hf [Hord Hlen]] Hr']; subst.
  destruct r as [|f' r'].
  - cbn [join]. rewrite (feed_field D f rd [LF] Hst Hfield Hf Hord Hlen).
    reflexivity.
  - rewrite join_cons by discriminate. rewrite <- app_assoc.
    rewrite (feed_field D f rd _ Hst Hfield Hf Hord Hlen).
    cbn [app Csv.feed]. unfold Csv.parse_process_char.
    cbn [Csv.state Csv.excel Csv.delimiter].
    rewrite HD, N.eqb_refl.
    rewrite IH; [|discriminate|right; reflexivity|reflexivity|exact Hr'].
    cbn [Csv.fields Csv.set_state Csv.parse_save_field Csv.field].
    rewrite <- app_assoc. reflexivity.
Qed.

Lemma feed_line_row (D : char) (r : list str) :
  Csv.is_newline D = false ->
  r <> [] ->
  Forall (fun f => f <> [] /\ Forall (ordinary D) f
                   /\ List.length f <= max_reasonable_length) r ->
  Csv.feed_line (Csv.excel D) Csv.parse_reset (render_row D r ++ [LF])
  = inl {| Csv.state := Csv.START_RECORD; Csv.field := []; Csv.fields := r |}.
Proof.
  intros HD Hne Hr. unfold Csv.feed_line.
  rewrite (feed_row D r Csv.parse_reset HD Hne (or_introl eq_refl) eq_refl Hr).
  reflexivity.
Qed.

Lemma records_rows (D : char) (rws : list (list str)) :
  Csv.is_newline D = false ->
  Forall (fun r => r <> []
                   /\ Forall (fun f => f <> [] /\ Forall (ordinary D) f
                                       /\ List.length f <= max_reasonable_length)
                        r) rws ->
  Csv.records (Csv.excel D) Csv.parse_reset
    (map (fun r => render_row D r ++ [LF]) rws)
  = (rws, None).
Proof.
  intros HD. induction 1 as [|r rws [Hne Hr] _ IH]; [reflexivity|].
  cbn [map Csv.records]. rewrite (feed_line_row D r HD Hne Hr).
  cbn [Csv.state Csv.state_eqb Csv.fields]. rewrite IH. reflexivity.
Qed.

Lemma plain_ordinary (D : char) (f : str) :
  In D delimiters -> plain_field f = true -> Forall (ordinary D) f.
Proof.
  intros HD Hf. apply Forall_forall. intros c Hc.
  destruct (plain_field_chars f c Hf Hc) as [Hr [Hq Hd]].
  unfold ordinary, LF, CR, char in *. repeat split; try lia; try assumption.
  intros ->. contradiction.
Qed.

(** [csv.reader] on a rendered table of plain fields yields its rows. *)
Lemma reader_render (D : char) (rws : list (list str)) (C : nat) :
  In D [COMMA; SEMICOLON; PIPE] -> 1 <= C ->
  Forall (fun r => List.length r = C) rws ->
  Forall (Forall (fun f => plain_field f = true)) rws ->
  Csv.reader (Csv.excel D) (render D rws) = (rws, None).
Proof.
  intros HD HC Hrect Hp.
  assert (HD' : In D delimiters).
  { unfold delimiters. cbn [In] in *. tauto. }
  assert (Hn : Csv.is_newline D = false).
  { cbn [In] in HD. destruct HD as [<-|[<-|[<-|[]]]]; reflexivity. }
  unfold Csv.reader.
  rewrite (io_lines_render D rws HD' (plain_fields_free rws Hp)).
  apply records_rows; [exact Hn|].
  rewrite Forall_forall in *. intros r Hr. split.
  - specialize (Hrect r Hr). intros ->. cbn in Hrect. lia.
  - specialize (Hp r Hr). rewrite Forall_forall in *. intros f Hf.
    specialize (Hp f Hf). destruct (plain_field_parts f Hp) as [H1 [_ [_ [_ H5]]]].
    split; [exact H1|]. split; [|exact H5].
    apply plain_ordinary; assumption.
Qed.

(** ** The header checks on distinct, unreserved names *)

Lemma filter_none {A} (p : A -> bool) (l : list A) :
  (forall x, In x l -> p x = false) -> filter p l = [].
Proof.
  induction l as [|x l IH]; [reflexivity|].
  intros H. cbn [filter]. rewrite (H x (or_introl eq_refl)).
  apply IH. intros y Hy. apply H. right. exact Hy.
Qed.


Lemma occ_nodup {A} (eqb : A -> A -> bool) :
  (forall x y, eqb x y = true <-> x = y) ->
  forall (k : A) (l : list A), NoDup l -> occ eqb k l <= 1.
Proof.
  intros Hspec k l. induction 1 as [|x l Hx _ IH]; [cbn; lia|].
  rewrite occ_cons. destruct (eqb k x) eqn:E; [|exact IH].
  apply Hspec in E. subst x.
  destruct (occ eqb k l) as [|n] eqn:En; [lia|].
  exfalso. apply Hx. apply (occ_pos_in eqb Hspec). lia.
Qed.

(** Without a repeated key, a [Counter] counts one of each. *)
Lemma Counter_nodup_counts {A} (eqb : A -> A -> bool) :
  (forall x y, eqb x y = true <-> x = y) ->
  forall (l : list A) (kv : A * nat),
    NoDup l -> In kv (Counter eqb l) -> (1 <? snd kv) = false.
Proof.
  intros Hspec l [k n] Hl Hin. cbn [snd].
  apply (Counter_entry eqb Hspec) in Hin. subst n.
  apply Nat.ltb_ge. apply occ_nodup; assumption.
Qed.







(** ** The structure and cell checks on a rectangular table of plain fields *)











(** ** The content checks on plain, uniform, duplicate-free data *)





Lemma classify_values (c : str) :
  In (classify c) ["empty"; "numeric"; "date"; "boolean"; "text"]%string.
Proof.
  unfold classify.
  destruct (is_empty c); [cbn; tauto|].
  destruct (_is_numeric c); [cbn; tauto|].
  destruct (_is_date c); [cbn; tauto|].
  destruct (_is_boolean c); cbn; tauto.
Qed.







Lemma check_duplicate_rows_clean (s : State) :
  NoDup (tl (rows s)) -> check_duplicate_rows s = s.
Proof.
  intros H. unfold check_duplicate_rows.
  destruct (List.length (rows s) <? 2); [reflexivity|].
  cbv zeta. rewrite filter_none; [reflexivity|].
  intros kv Hkv.
  apply (Counter_nodup_counts row_eqb row_eqb_spec (tl (rows s)) kv H Hkv).
Qed.

(** ** The checks on a clean table *)





(* ================================================================== *)
(** * Further properties of the validator *)
(* ================================================================== *)

Import Extra.

(** ** Fatal findings and the categories of the findings *)

(** A file that does not exist, is not a regular file, is not readable or
    cannot be opened ends the run at once: the report has exactly one
    error, of category [file], naming the test that failed; it has no
    warning, no row, no header and no encoding. *)
Theorem unusable_file_report :
  forall (sniff : str -> option Csv.Dialect) (f : File) (path : str),
    usable f = false ->
    report_errors (validate sniff f path) = [fatal_file_error f path]
    /\ report_warnings (validate sniff f path) = []
    /\ valid (validate sniff f path) = false
    /\ total_rows (stats (validate sniff f path)) = 0
    /\ total_columns (stats (validate sniff f path)) = 0
    /\ encoding (stats (validate sniff f path)) = None.
Proof.
  intros sniff [ex isf rd [content|]] path; unfold usable; cbn [os_path_exists
    os_path_isfile os_access_R_OK data]; intros H.
  - rewrite andb_true_r in H.
    destruct ex, isf, rd; try discriminate H; repeat split.
  - destruct ex, isf, rd; repeat split.
Qed.

Lemma unusable_file_report_witness :
  report_errors (validate no_sniff a_directory some_path)
  = [fatal_file_error a_directory some_path]
  /\ report_warnings (validate no_sniff a_directory some_path) = [].
Proof.
  destruct (unusable_file_report no_sniff a_directory some_path eq_refl)
    as [H1 [H2 _]].
  split; assumption.
Defined.

Lemma accept_encoding_adds ecats e text s :
  adds_only ecats ["encoding"%string] s (accept_encoding e text s).
Proof.
  unfold accept_encoding.
  destruct (is_utf8 e); [apply adds_only_same; reflexivity|].
  destruct (is_utf16 e).
  - eapply adds_only_trans;
      [apply add_warning_adds; left; reflexivity
      | apply adds_only_same; reflexivity].
  - eapply adds_only_trans;
      [apply add_warning_adds; left; reflexivity
      | apply adds_only_same; reflexivity].
Qed.

Lemma try_encodings_adds encodings content s :
  adds_only ["encoding"%string] ["encoding"%string] s
    (fst (try_encodings encodings content s)).
Proof.
  induction encodings as [|e rest IH]; cbn [try_encodings].
  - cbn [fst]. apply add_error_adds. left. reflexivity.
  - destruct (Codec.decode e content); [|exact IH].
    cbn [fst]. apply accept_encoding_adds.
Qed.

Lemma adds_only_incl ecats wcats ecats' wcats' s s' :
  adds_only ecats wcats s s' ->
  incl ecats ecats' -> incl wcats wcats' ->
  adds_only ecats' wcats' s s'.
Proof. intros H He Hw. eapply adds_only_weaken; eassumption. Qed.

Ltac incl_cats :=
  unfold error_categories, warning_categories, later_error_categories,
    later_warning_categories, content_categories;
  intros ? ?; simpl in *; tauto.

Ltac adds_into H := eapply adds_only_incl; [apply H | incl_cats | incl_cats].

Lemma final_state_adds sniff f path :
  adds_only error_categories warning_categories (init path)
    (final_state sniff f path).
Proof.
  unfold final_state, check_file_exists.
  destruct (negb (os_path_exists f));
    [cbn [negb]; apply add_error_adds; left; reflexivity|].
  destruct (negb (os_path_isfile f));
    [cbn [negb]; apply add_error_adds; left; reflexivity|].
  destruct (negb (os_access_R_OK f));
    [cbn [negb]; apply add_error_adds; left; reflexivity|].
  cbn [negb]. unfold read_file.
  destruct (data f) as [content|];
    [|cbn [negb]; apply add_error_adds; left; reflexivity].
  pose proof (try_encodings_adds
                (match _detect_encoding_from_bytes (firstn detection_bytes content)
                 with Some e => [e] | None => [] end ++ fallback_encodings)
                content (init path)) as Hread.
  destruct (try_encodings _ content (init path)) as [s decoded].
  cbn [fst] in Hread.
  assert (Hread' : adds_only error_categories warning_categories (init path) s)
    by (adds_into Hread).
  destruct decoded; cbn [negb]; [|exact Hread'].
  rewrite run_checks_later.
  eapply adds_only_trans; [exact Hread'|].
  eapply adds_only_trans; [adds_into check_encoding_issues_adds|].
  eapply adds_only_trans; [adds_into check_bom_adds|].
  adds_into later_checks_adds.
Qed.

(** The severity of a finding is fixed by its category: whatever the file
    and the sniffer, the errors of a report are of the categories [file],
    [encoding], [content], [parsing], [header] and [structure], and its
    warnings are of the twelve categories other than [file] and [parsing]. *)
Theorem findings_categories :
  forall (sniff : str -> option Csv.Dialect) (f : File) (path : str),
    Forall (fun e => In (category e) error_categories)
      (report_errors (validate sniff f path))
    /\ Forall (fun w => In (category w) warning_categories)
         (report_warnings (validate sniff f path)).
Proof.
  intros sniff f path.
  destruct (final_state_adds sniff f path) as [[E [HE HEc]] [W [HW HWc]]].
  unfold validate. cbn [report_errors report_warnings get_results].
  rewrite HE, HW. cbn [errors warnings init app]. split; assumption.
Qed.

(** ** What the checks leave alone *)

(** The checks change the state only through the setters; a relation that
    every setter a check uses respects is respected by the check. *)
Section Frame.

Variable R : State -> State -> Prop.
Hypothesis R_refl : forall s, R s s.
Hypothesis R_trans : forall s1 s2 s3, R s1 s2 -> R s2 s3 -> R s1 s3.
Hypothesis R_errors : forall v s, R s (set_errors v s).
Hypothesis R_warnings : forall v s, R s (set_warnings v s).
Hypothesis R_metadata : forall d c s, R s (set_metadata d c s).
Hypothesis R_headers : forall h s, R s (set_headers h s).
Hypothesis R_rows : forall v s, R s (set_rows v s).
Hypothesis R_dialect : forall d s, R s (set_dialect d s).
Hypothesis R_is_tsv : forall b s, R s (set_is_tsv b s).

Lemma frame_add_error cat msg ln col ext s : R s (add_error cat msg ln col ext s).
Proof. unfold add_error. apply R_errors. Qed.

Lemma frame_add_warning cat msg ln col ext s :
  R s (add_warning cat msg ln col ext s).
Proof. unfold add_warning. apply R_warnings. Qed.

Lemma frame_fold {A} (f : State -> A -> State) (l : list A) :
  (forall s a, R s (f s a)) -> forall s, R s (fold_left f l s).
Proof.
  intros Hf. induction l as [|a l IH]; intros s; cbn [fold_left].
  - apply R_refl.
  - eapply R_trans; [apply Hf | apply IH].
Qed.

Ltac frame_step :=
  first [ apply R_refl | apply frame_add_error | apply frame_add_warning ].

Ltac frame_cases :=
  repeat match goal with
         | |- R _ (if ?c then _ else _) => destruct c
         | |- R _ (match ?c with _ => _ end) => destruct c
         end;
  try frame_step.

Lemma frame_check_encoding_issues s : R s (check_encoding_issues s).
Proof.
  unfold check_encoding_issues.
  set (s1 := if contains NUL (raw_content s) then _ else _).
  assert (H1 : R s s1) by (subst s1; frame_cases).
  eapply R_trans; [exact H1|]. frame_cases.
Qed.

Lemma frame_check_bom s : R s (check_bom s).
Proof. unfold check_bom. frame_cases. Qed.

Lemma frame_check_line_endings s : R s (check_line_endings s).
Proof. unfold check_line_endings. frame_cases. Qed.

Lemma frame_check_empty_file s : R s (check_empty_file s).
Proof. unfold check_empty_file. frame_cases. Qed.

Lemma frame_tsv_warning s : R s (tsv_warning s).
Proof.
  unfold tsv_warning. eapply R_trans; [apply R_is_tsv | apply frame_add_warning].
Qed.

Lemma frame_detect_dialect sniff s : R s (detect_dialect sniff s).
Proof.
  unfold detect_dialect.
  destruct (_detect_delimiter _) as [d|].
  - eapply R_trans; [|apply R_dialect].
    destruct (d =? TAB)%N; [apply frame_tsv_warning | apply R_refl].
  - destruct (sniff _) as [d|].
    + eapply R_trans; [apply R_dialect|].
      destruct (Csv.delimiter d =? TAB)%N;
        [apply frame_tsv_warning | apply R_refl].
    + eapply R_trans; [apply frame_add_warning | apply R_dialect].
Qed.

Lemma frame_parse_csv s : R s (parse_csv s).
Proof.
  unfold parse_csv. destruct (Csv.reader _ _) as [new_rows err].
  set (s1 := set_rows _ s).
  set (s2 := match new_rows with [] => s1 | _ => _ end).
  assert (H2 : R s s2).
  { subst s2 s1. destruct new_rows; [apply R_rows|].
    eapply R_trans; [apply R_rows | apply R_headers]. }
  eapply R_trans; [exact H2|]. frame_cases.
Qed.

Lemma frame_near_duplicates all hs normalized s :
  R s (near_duplicates all hs normalized s).
Proof.
  revert normalized s.
  induction hs as [|[i h] hs IH]; intros normalized s; cbn [near_duplicates].
  - apply R_refl.
  - cbv zeta. destruct (dict_get _ _ _).
    + eapply R_trans; [|apply IH]. frame_step.
    + apply IH.
Qed.

Lemma frame_check_header_issues s : R s (check_header_issues s).
Proof.
  unfold check_header_issues.
  destruct (is_empty (headers s)); [frame_step|].
  set (s1 := if is_empty (empty_cols (headers s)) then s else _).
  assert (H1 : R s s1) by (subst s1; frame_cases).
  set (s2 := if is_empty (duplicate_headers (headers s1)) then s1 else _).
  assert (H2 : R s1 s2) by (subst s2; frame_cases).
  set (s3 := near_duplicates _ _ _ s2).
  assert (H3 : R s2 s3) by (subst s3; apply frame_near_duplicates).
  eapply R_trans; [exact H1|].
  eapply R_trans; [exact H2|].
  eapply R_trans; [exact H3|].
  frame_cases.
Qed.

Lemma frame_resolve_expected s : R s (snd (resolve_expected s)).
Proof.
  unfold resolve_expected.
  destruct (match most_common_1 _ with Some p => p | None => (0, 0) end)
    as [most_common_count most_common_freq].
  destruct (Qltb _ _ && negb _); [|cbn [snd]; apply R_metadata].
  destruct (0 <? _); [|cbn [snd]; apply R_metadata].
  set (s1 := add_warning _ _ _ _ _ _).
  assert (H1 : R s s1).
  { subst s1. eapply R_trans; [apply R_metadata|].
    eapply R_trans; [apply R_metadata | apply frame_add_warning]. }
  destruct (_ <? _); cbn [snd]; [|exact H1].
  eapply R_trans; [exact H1 | apply R_headers].
Qed.

Lemma frame_check_column_consistency s : R s (check_column_consistency s).
Proof.
  unfold check_column_consistency.
  destruct (is_empty (rows s)); [apply R_refl|].
  pose proof (frame_resolve_expected s) as H.
  destruct (resolve_expected s) as [expected s1]. cbn [snd] in H.
  eapply R_trans; [exact H|].
  apply frame_fold. intros s0 [count lns]. unfold structure_error.
  apply frame_add_error.
Qed.

Lemma frame_content_checks s : R s (content_checks s).
Proof.
  unfold content_checks.
  assert (H1 : forall s, R s (check_empty_rows s))
    by (intros s0; unfold check_empty_rows; frame_cases).
  assert (H2 : forall s, R s (check_whitespace_issues s)).
  { intros s0. unfold check_whitespace_issues.
    set (s1 := if is_empty (cells_where _ (rows s0)) then s0 else _).
    assert (Ha : R s0 s1) by (subst s1; frame_cases).
    eapply R_trans; [exact Ha|]. frame_cases. }
  assert (H3 : forall s, R s (check_quoting_issues s)).
  { intros s0. unfold check_quoting_issues. eapply R_trans.
    - apply frame_fold with (f := odd_quotes).
      intros s1 [n l]. unfold odd_quotes. frame_cases.
    - apply frame_fold. intros s1 [n l]. unfold unescaped_quote. frame_cases. }
  assert (H4 : forall s, R s (check_data_type_consistency s)).
  { intros s0. unfold check_data_type_consistency.
    destruct (_ <? 2); [apply R_refl|].
    apply frame_fold. intros s1 c. unfold check_column_types. frame_cases. }
  assert (H5 : forall s, R s (check_missing_values s)).
  { intros s0. unfold check_missing_values.
    destruct (_ <? 2); [apply R_refl|].
    destruct (is_empty _); [apply R_refl|].
    set (s1 := if 1 <? _ then _ else s0).
    assert (Ha : R s0 s1) by (subst s1; frame_cases).
    eapply R_trans; [exact Ha|].
    apply frame_fold. intros s2 kv. unfold high_missing_rate. frame_cases. }
  assert (H6 : forall s, R s (check_duplicate_rows s))
    by (intros s0; unfold check_duplicate_rows; frame_cases).
  assert (H7 : forall s, R s (check_special_characters s)).
  { intros s0. unfold check_special_characters.
    apply frame_fold. intros s1 [name locations]. frame_step. }
  assert (H8 : forall s, R s (check_field_length s))
    by (intros s0; unfold check_field_length; frame_cases).
  eapply R_trans; [apply H1|]. eapply R_trans; [apply H2|].
  eapply R_trans; [apply H3|]. eapply R_trans; [apply H4|].
  eapply R_trans; [apply H5|]. eapply R_trans; [apply H6|].
  eapply R_trans; [apply H7|]. apply H8.
Qed.

(** The checks that follow [parse_csv]. *)
Lemma frame_after_parse s :
  R s (content_checks (check_column_consistency (check_header_issues s))).
Proof.
  eapply R_trans; [apply frame_check_header_issues|].
  eapply R_trans; [apply frame_check_column_consistency|].
  apply frame_content_checks.
Qed.

Lemma frame_run_checks sniff s : R s (run_checks sniff s).
Proof.
  rewrite run_checks_unfold.
  eapply R_trans; [apply frame_check_encoding_issues|].
  eapply R_trans; [apply frame_check_bom|].
  eapply R_trans; [apply frame_check_line_endings|].
  eapply R_trans; [apply frame_check_empty_file|].
  eapply R_trans; [apply frame_detect_dialect|].
  eapply R_trans; [apply frame_parse_csv|].
  apply frame_after_parse.
Qed.

End Frame.

(** ** What a run on a usable file always ends with *)

Lemma usable_parts (f : File) :
  usable f = true ->
  os_path_exists f = true /\ os_path_isfile f = true
  /\ os_access_R_OK f = true /\ exists content, data f = Some content.
Proof.
  unfold usable. intros H.
  apply andb_true_iff in H. destruct H as [H Hd].
  apply andb_true_iff in H. destruct H as [H Hr].
  apply andb_true_iff in H. destruct H as [He Hi].
  repeat split; try assumption.
  destruct (data f) as [content|]; [exists content; reflexivity | discriminate].
Qed.

Lemma encodings_for_decode (content : Codec.bytes) :
  exists e text, first_decoding (encodings_for content) content = Some (e, text).
Proof.
  unfold encodings_for, fallback_encodings.
  destruct (first_decoding_stops
              (match _detect_encoding_from_bytes (firstn detection_bytes content)
               with Some e => [e] | None => [] end
               ++ [Codec.UTF_8; Codec.UTF_8_SIG])
              [Codec.CP1252; Codec.ISO_8859_1] content)
    as [e [text [_ [_ H]]]].
  exists e, text. rewrite <- app_assoc in H. exact H.
Qed.

Lemma read_file_tries (f : File) (content : Codec.bytes) (s : State) :
  data f = Some content ->
  read_file f s = try_encodings (encodings_for content) content s.
Proof.
  intros Hd. unfold read_file, encodings_for. rewrite Hd. reflexivity.
Qed.

(** A run on a usable file is the checks on the first decoding. *)
Lemma usable_final_state sniff (f : File) (path : str) (content : Codec.bytes)
  (e : Codec.Encoding) (text : str) :
  usable f = true -> data f = Some content ->
  first_decoding (encodings_for content) content = Some (e, text) ->
  final_state sniff f path
  = run_checks sniff (accept_encoding e text (init path)).
Proof.
  intros Hu Hd Hfirst.
  destruct (usable_parts f Hu) as [He [Hi [Hr _]]].
  unfold final_state, check_file_exists. rewrite He, Hi, Hr. cbn [negb].
  rewrite (read_file_tries f content (init path) Hd).
  rewrite try_encodings_first, Hfirst. reflexivity.
Qed.

Lemma same_source_run_checks sniff (s : State) :
  same_source s (run_checks sniff s).
Proof.
  apply frame_run_checks; unfold same_source; try (intros; cbn; tauto).
  intros s1 s2 s3 H1 H2. intuition congruence.
Qed.

Lemma reported_encoding_of sniff (f : File) (path : str)
  (content : Codec.bytes) (e : Codec.Encoding) (text : str) :
  usable f = true -> data f = Some content ->
  first_decoding (encodings_for content) content = Some (e, text) ->
  encoding (stats (validate sniff f path)) = Some e.
Proof.
  intros Hu Hd Hfirst. unfold validate.
  rewrite (usable_final_state sniff f path content e text Hu Hd Hfirst).
  destruct (same_source_run_checks sniff (accept_encoding e text (init path)))
    as [_ [_ [_ He]]].
  cbn [encoding stats get_results]. rewrite He.
  unfold accept_encoding.
  destruct (is_utf8 e); [reflexivity|].
  destruct (is_utf16 e); reflexivity.
Qed.

(** The encoding in the statistics of a report on a usable file is the
    first of the encodings tried, the detected one and then utf-8,
    utf-8-sig, latin-1, cp1252 and iso-8859-1, that decodes the whole file;
    the report names the path it was asked about. *)
Theorem reported_encoding :
  forall (sniff : str -> option Csv.Dialect) (f : File) (path : str)
         (content : Codec.bytes) (e : Codec.Encoding) (text : str),
    usable f = true -> data f = Some content ->
    first_decoding (encodings_for content) content = Some (e, text) ->
    encoding (stats (validate sniff f path)) = Some e
    /\ file (validate sniff f path) = path.
Proof.
  intros sniff f path content e text Hu Hd Hfirst.
  split;
    [exact (reported_encoding_of sniff f path content e text Hu Hd Hfirst)|].
  unfold validate.
  rewrite (usable_final_state sniff f path content e text Hu Hd Hfirst).
  destruct (same_source_run_checks sniff (accept_encoding e text (init path)))
    as [Hp _].
  cbn [file get_results]. rewrite Hp.
  unfold accept_encoding.
  destruct (is_utf8 e); [reflexivity|].
  destruct (is_utf16 e); reflexivity.
Qed.

Lemma reported_encoding_witness :
  first_decoding (encodings_for bom_first_byte) bom_first_byte
  = Some (Codec.UTF_8_SIG, [])
  /\ encoding (stats (validate no_sniff (regular_file bom_first_byte) some_path))
     = Some Codec.UTF_8_SIG
  /\ file (validate no_sniff (regular_file bom_first_byte) some_path)
     = some_path.
Proof.
  assert (H : first_decoding (encodings_for bom_first_byte) bom_first_byte
              = Some (Codec.UTF_8_SIG, [])) by (vm_compute; reflexivity).
  split; [exact H|].
  apply (reported_encoding no_sniff (regular_file bom_first_byte) some_path
           bom_first_byte Codec.UTF_8_SIG []).
  - reflexivity.
  - reflexivity.
  - exact H.
Defined.

Lemma same_table_refl (s : State) : same_table s s.
Proof. unfold same_table. tauto. Qed.

Lemma same_table_trans (s1 s2 s3 : State) :
  same_table s1 s2 -> same_table s2 s3 -> same_table s1 s3.
Proof. unfold same_table. intuition congruence. Qed.

Lemma same_table_before_detect (s : State) :
  same_table s
    (check_empty_file (check_line_endings (check_bom (check_encoding_issues s)))).
Proof.
  eapply same_table_trans;
    [apply (frame_check_encoding_issues same_table same_table_refl
              same_table_trans); intros; unfold same_table; cbn; tauto|].
  eapply same_table_trans;
    [apply (frame_check_bom same_table same_table_refl);
     intros; unfold same_table; cbn; tauto|].
  eapply same_table_trans;
    [apply (frame_check_line_endings same_table same_table_refl);
     intros; unfold same_table; cbn; tauto|].
  apply (frame_check_empty_file same_table same_table_refl);
    intros; unfold same_table; cbn; tauto.
Qed.

Lemma same_table_after_parse (s : State) :
  same_table s (content_checks (check_column_consistency (check_header_issues s))).
Proof.
  apply (frame_after_parse same_table same_table_refl same_table_trans);
    intros; unfold same_table; cbn; tauto.
Qed.

(** [parse_csv] appends the records of the reader and changes nothing else
    of the table. *)
Lemma parse_csv_rows (s : State) :
  rows (parse_csv s)
  = rows s ++ fst (Csv.reader (the_dialect s) (raw_content s))
  /\ raw_content (parse_csv s) = raw_content s
  /\ detected_dialect (parse_csv s) = detected_dialect s
  /\ is_tsv (parse_csv s) = is_tsv s
  /\ warnings (parse_csv s) = warnings s.
Proof.
  unfold parse_csv.
  destruct (Csv.reader (the_dialect s) (raw_content s)) as [new_rows err].
  cbn [fst]. destruct new_rows, err; repeat split.
Qed.

(** [detect_dialect] always settles on a dialect; it flags the file as TSV
    and warns about it exactly when the delimiter of that dialect is the
    tab. *)
Lemma detect_dialect_sets sniff (s : State) :
  is_tsv s = false -> ~ In tsv_finding (warnings s) ->
  exists d,
    detected_dialect (detect_dialect sniff s) = Some d
    /\ is_tsv (detect_dialect sniff s) = (Csv.delimiter d =? TAB)%N
    /\ (In tsv_finding (warnings (detect_dialect sniff s))
        <-> Csv.delimiter d = TAB)
    /\ rows (detect_dialect sniff s) = rows s
    /\ raw_content (detect_dialect sniff s) = raw_content s.
Proof.
  intros Htsv Hw. unfold detect_dialect.
  assert (Hyes : forall s', warnings s' = warnings (tsv_warning s) ->
                            In tsv_finding (warnings s')).
  { intros s' ->. cbn. apply in_or_app. right. left. reflexivity. }
  destruct (_detect_delimiter _) as [c|].
  - exists (Csv.excel c). cbn [Csv.delimiter Csv.excel].
    destruct (N.eqb_spec c TAB) as [E|E].
    + split; [reflexivity|]. split; [reflexivity|].
      split; [|split; reflexivity].
      split; [intros _; exact E | intros _; apply Hyes; reflexivity].
    + split; [reflexivity|]. split; [exact Htsv|].
      split; [|split; reflexivity].
      split; [intros H; contradiction | intros H; contradiction].
  - destruct (sniff _) as [d|].
    + exists d. destruct (N.eqb_spec (Csv.delimiter d) TAB) as [E|E].
      * split; [reflexivity|]. split; [reflexivity|].
        split; [|split; reflexivity].
        split; [intros _; exact E | intros _; apply Hyes; reflexivity].
      * split; [reflexivity|]. split; [exact Htsv|].
        split; [|split; reflexivity].
        split; [intros H; contradiction | intros H; contradiction].
    + exists (Csv.excel COMMA).
      split; [reflexivity|]. split; [exact Htsv|].
      split; [|split; reflexivity].
      split.
      * intros H. cbn in H. apply in_app_or in H.
        destruct H as [H|[H|[]]]; [contradiction | discriminate H].
      * intros H. discriminate H.
Qed.

(** Before the dialect is detected there is no row, no TSV flag and no TSV
    warning. *)
Lemma before_detect (e : Codec.Encoding) (text : str) (path : str) :
  let s := check_empty_file
             (check_line_endings
                (check_bom
                   (check_encoding_issues (accept_encoding e text (init path))))) in
  rows s = [] /\ raw_content s = text /\ is_tsv s = false
  /\ ~ In tsv_finding (warnings s).
Proof.
  cbv zeta. set (s0 := accept_encoding e text (init path)).
  destruct (same_table_before_detect s0) as [Hr [Ht [_ Hi]]].
  rewrite Hr, Ht, Hi.
  assert (H0 : rows s0 = [] /\ raw_content s0 = text /\ is_tsv s0 = false
               /\ ~ In tsv_finding (warnings s0)).
  { subst s0. unfold accept_encoding.
    destruct (is_utf8 e); [cbn; tauto|].
    destruct (is_utf16 e); cbn; repeat split; try reflexivity;
      intros [H|[]]; discriminate H. }
  destruct H0 as [H1 [H2 [H3 H4]]]. repeat split; try assumption.
  set (s1 := check_encoding_issues s0).
  assert (W1 : warnings s1 = warnings s0).
  { apply (adds_only_warnings (ecats := ["encoding"%string])).
    apply check_encoding_issues_adds. }
  set (s2 := check_bom s1).
  assert (W2 : ~ In tsv_finding (warnings s2)).
  { subst s2. unfold check_bom. destruct (startswith _ _); rewrite ?W1; auto.
    cbn [warnings add_warning set_warnings]. rewrite W1. intros H.
    apply in_app_or in H. destruct H as [H|[H|[]]];
      [contradiction | discriminate H]. }
  set (s3 := check_line_endings s2).
  assert (W3 : ~ In tsv_finding (warnings s3)).
  { subst s3. unfold check_line_endings. destruct (1 <? _); auto.
    cbn [warnings add_warning set_warnings]. intros H.
    apply in_app_or in H. destruct H as [H|[H|[]]];
      [contradiction | discriminate H]. }
  rewrite (adds_only_warnings (ecats := ["content"%string])
             (check_empty_file_adds s3)).
  exact W3.
Qed.

Lemma after_parse_adds (s : State) :
  adds_only later_error_categories
    (["header"; "structure"]%string ++ content_categories) s
    (content_checks (check_column_consistency (check_header_issues s))).
Proof.
  eapply adds_only_trans;
    [eapply adds_only_incl;
     [apply check_header_issues_adds | incl_cats | incl_cats]|].
  eapply adds_only_trans;
    [eapply adds_only_incl;
     [apply check_column_consistency_adds | incl_cats | incl_cats]|].
  eapply adds_only_incl; [apply content_checks_adds | incl_cats | incl_cats].
Qed.

(** The state after a run on a usable file, as far as the dialect and the
    rows go. *)
Lemma usable_table sniff (f : File) (path : str) :
  usable f = true ->
  exists d,
    detected_dialect (final_state sniff f path) = Some d
    /\ rows (final_state sniff f path)
       = fst (Csv.reader d (raw_content (final_state sniff f path)))
    /\ is_tsv (final_state sniff f path) = (Csv.delimiter d =? TAB)%N
    /\ (In tsv_finding (warnings (final_state sniff f path))
        <-> Csv.delimiter d = TAB).
Proof.
  intros Hu. destruct (usable_parts f Hu) as [_ [_ [_ [content Hd]]]].
  destruct (encodings_for_decode content) as [e [text Hfirst]].
  rewrite (usable_final_state sniff f path content e text Hu Hd Hfirst).
  rewrite run_checks_unfold.
  destruct (before_detect e text path) as [Hr4 [Ht4 [Hi4 Hw4]]].
  set (s4 := check_empty_file _) in *.
  destruct (detect_dialect_sets sniff s4 Hi4 Hw4)
    as [d [Hd5 [Hi5 [Hw5 [Hr5 Ht5]]]]].
  set (s5 := detect_dialect sniff s4) in *.
  destruct (parse_csv_rows s5) as [Hr6 [Ht6 [Hd6 [Hi6 Hw6]]]].
  set (s6 := parse_csv s5) in *.
  destruct (same_table_after_parse s6) as [Hr7 [Ht7 [Hd7 Hi7]]].
  exists d. rewrite Hr7, Ht7, Hd7, Hi7, Hr6, Ht6, Hd6, Hi6, Hr5, Hr4.
  unfold the_dialect. rewrite Hd5.
  split; [reflexivity|]. split; [reflexivity|]. split; [exact Hi5|].
  rewrite <- Hw5, <- Hw6.
  destruct (after_parse_adds s6) as [_ [W [HW Hcats]]].
  rewrite HW. split.
  - intros H. apply in_app_or in H. destruct H as [H|H]; [exact H|].
    rewrite Forall_forall in Hcats. specialize (Hcats _ H).
    unfold content_categories in Hcats. cbn in Hcats.
    repeat (destruct Hcats as [Hcats|Hcats]; [discriminate Hcats|]).
    contradiction.
  - intros H. apply in_or_app. left. exact H.
Qed.

(** On a usable file the rows of the final state are the records that
    [csv.reader] yields for the decoded text under the dialect that was
    settled on (up to the error, if the reader raises one): no check drops,
    adds or reorders a row, and [total_rows] counts them. *)
Theorem rows_are_reader_records :
  forall (sniff : str -> option Csv.Dialect) (f : File) (path : str),
    usable f = true ->
    exists d,
      detected_dialect (final_state sniff f path) = Some d
      /\ rows (final_state sniff f path)
         = fst (Csv.reader d (raw_content (final_state sniff f path)))
      /\ total_rows (stats (validate sniff f path))
         = List.length
             (fst (Csv.reader d (raw_content (final_state sniff f path)))).
Proof.
  intros sniff f path Hu.
  destruct (usable_table sniff f path Hu) as [d [Hd [Hr _]]].
  exists d. split; [exact Hd|]. split; [exact Hr|].
  unfold validate. cbn [total_rows stats get_results]. rewrite <- Hr.
  reflexivity.
Qed.

Lemma rows_are_reader_records_witness :
  exists d,
    detected_dialect (final_state no_sniff (text_file ragged_text) some_path)
    = Some d
    /\ rows (final_state no_sniff (text_file ragged_text) some_path)
       = fst (Csv.reader d
                (raw_content
                   (final_state no_sniff (text_file ragged_text) some_path)))
    /\ total_rows (stats (validate no_sniff (text_file ragged_text) some_path))
       = List.length
           (fst (Csv.reader d
                   (raw_content
                      (final_state no_sniff (text_file ragged_text) some_path)))).
Proof.
  apply (rows_are_reader_records no_sniff (text_file ragged_text) some_path).
  reflexivity.
Defined.

Lemma name_of_delimiter_spec (s : State) (d : Csv.Dialect) :
  detected_dialect s = Some d ->
  is_tsv s = (Csv.delimiter d =? TAB)%N ->
  delimiter_name s = name_of_delimiter (Csv.delimiter d).
Proof.
  intros Hd Hi. unfold delimiter_name, name_of_delimiter. rewrite Hd, Hi.
  destruct (N.eqb_spec (Csv.delimiter d) TAB) as [E|E]; [reflexivity|].
  unfold str_eqb. cbn [eqb_list]. rewrite !andb_true_r.
  destruct (Csv.delimiter d =? COMMA)%N; [reflexivity|].
  destruct (Csv.delimiter d =? SEMICOLON)%N; [reflexivity|].
  destruct (Csv.delimiter d =? PIPE)%N; reflexivity.
Qed.

(** On a usable file the statistics, the TSV flag and the TSV warning agree
    with the delimiter of the dialect that was settled on: the delimiter is
    reported as tab, comma, semicolon, pipe or, for another delimiter of the
    sniffer, as that character, never as unknown; the format is TSV exactly
    when the delimiter is the tab, and exactly then the report has the
    warning "Detected tab-separated values (TSV) format". *)
Theorem tsv_agreement :
  forall (sniff : str -> option Csv.Dialect) (f : File) (path : str),
    usable f = true ->
    exists d,
      detected_dialect (final_state sniff f path) = Some d
      /\ delimiter (stats (validate sniff f path))
         = name_of_delimiter (Csv.delimiter d)
      /\ delimiter (stats (validate sniff f path)) <> of_string "unknown"
      /\ (format (stats (validate sniff f path)) = "TSV"%string
          <-> Csv.delimiter d = TAB)
      /\ (In tsv_finding (report_warnings (validate sniff f path))
          <-> Csv.delimiter d = TAB).
Proof.
  intros sniff f path Hu.
  destruct (usable_table sniff f path Hu) as [d [Hd [_ [Hi Hw]]]].
  exists d. split; [exact Hd|].
  unfold validate. cbn [delimiter format stats report_warnings get_results].
  rewrite (name_of_delimiter_spec _ d Hd Hi), Hi.
  split; [reflexivity|]. split; [|split; [|exact Hw]].
  - unfold name_of_delimiter.
    destruct (Csv.delimiter d =? TAB)%N; [discriminate|].
    destruct (Csv.delimiter d =? COMMA)%N; [discriminate|].
    destruct (Csv.delimiter d =? SEMICOLON)%N; [discriminate|].
    destruct (Csv.delimiter d =? PIPE)%N; discriminate.
  - destruct (N.eqb_spec (Csv.delimiter d) TAB) as [E|E].
    + split; [intros _; exact E | reflexivity].
    + split; [discriminate | contradiction].
Qed.

Lemma tsv_agreement_witness :
  exists d,
    detected_dialect (final_state no_sniff (text_file ragged_text) some_path)
    = Some d
    /\ delimiter (stats (validate no_sniff (text_file ragged_text) some_path))
       = name_of_delimiter (Csv.delimiter d)
    /\ delimiter (stats (validate no_sniff (text_file ragged_text) some_path))
       <> of_string "unknown"
    /\ (format (stats (validate no_sniff (text_file ragged_text) some_path))
        = "TSV"%string
        <-> Csv.delimiter d = TAB)
    /\ (In tsv_finding
          (report_warnings
             (validate no_sniff (text_file ragged_text) some_path))
        <-> Csv.delimiter d = TAB).
Proof.
  apply (tsv_agreement no_sniff (text_file ragged_text) some_path).
  reflexivity.
Defined.

(** ** What the hook prints *)

Lemma report_lines_text (r : Report) (a : bool) :
  exists rest,
    Format.join_text [Lit Format.newline] (Format.report_lines r a)
    = Lit Format.newline :: rest.
Proof.
  unfold Format.report_lines, Format.banner.
  cbn [app Format.join_text]. eexists. reflexivity.
Qed.

(** [format_results] returns the empty string exactly in the silent case. *)
Lemma format_results_empty (r : Report) (a : bool) :
  Format.format_results r a = []
  <-> valid r && (warning_count r =? 0) && negb a = true.
Proof.
  unfold Format.format_results.
  destruct (valid r && (warning_count r =? 0) && negb a).
  - split; reflexivity.
  - destruct (report_lines_text r a) as [rest E]. rewrite E.
    split; discriminate.
Qed.

(** When an invocation triggers validation, the hook writes nothing to
    [stderr] exactly when the report has no error and no warning and the
    tool is not Read; for Read it always writes the report and exits
    with 0. *)
Theorem hook_output :
  forall (sniff : str -> option Csv.Dialect) (fs : str -> File)
         (i : Hook.HookInput),
    triggers i = true ->
    (Format.printed (Hook.main sniff fs (Some i)) = None
     <-> report_errors
           (validate sniff (fs (Hook.file_path i)) (Hook.file_path i)) = []
         /\ report_warnings
              (validate sniff (fs (Hook.file_path i)) (Hook.file_path i)) = []
         /\ Hook.tool_name i <> of_string "Read")
    /\ (Hook.tool_name i = of_string "Read" ->
        Format.printed (Hook.main sniff fs (Some i)) <> None
        /\ Hook.exit_code (Hook.main sniff fs (Some i)) = 0).
Proof.
  intros sniff fs i Ht. unfold triggers in Ht.
  apply andb_true_iff in Ht. destruct Ht as [Htool Hext].
  unfold Hook.main. rewrite Htool, Hext. cbn [negb].
  unfold Format.printed. cbn [Hook.validated Hook.always_show Hook.exit_code].
  unfold validate.
  set (s := final_state sniff (fs (Hook.file_path i)) (Hook.file_path i)).
  cbn [report_errors report_warnings get_results].
  assert (E : Format.format_results (get_results s)
                (Hook.is_tool "Read" (Hook.tool_name i)) = []
              <-> errors s = [] /\ warnings s = []
                  /\ Hook.tool_name i <> of_string "Read").
  { rewrite format_results_empty. cbn [valid warning_count get_results].
    rewrite !andb_true_iff, !Nat.eqb_eq, negb_true_iff.
    rewrite !length_zero_iff_nil.
    assert (Hr : Hook.is_tool "Read" (Hook.tool_name i) = false
                 <-> Hook.tool_name i <> of_string "Read").
    { rewrite <- is_tool_spec.
      destruct (Hook.is_tool "Read" (Hook.tool_name i)); split; congruence. }
    rewrite Hr. tauto. }
  split.
  - rewrite <- E.
    destruct (Format.format_results (get_results s) _); cbn [is_empty];
      split; intros H; congruence.
  - intros Hread. apply is_tool_spec in Hread. rewrite Hread.
    cbn [negb andb]. split.
    + destruct (Format.format_results (get_results s) true) eqn:F.
      * apply format_results_empty in F. rewrite andb_false_r in F.
        discriminate F.
      * cbn [is_empty]. discriminate.
    + destruct (negb (is_empty (errors s))); reflexivity.
Qed.

Lemma hook_output_witness :
  triggers write_request = true
  /\ (Format.printed
        (Hook.main no_sniff (fun _ => text_file ragged_text) (Some write_request))
      = None
      <-> report_errors
            (validate no_sniff (text_file ragged_text)
               (Hook.file_path write_request)) = []
          /\ report_warnings
               (validate no_sniff (text_file ragged_text)
                  (Hook.file_path write_request)) = []
          /\ Hook.tool_name write_request <> of_string "Read").
Proof.
  split; [reflexivity|].
  apply (hook_output no_sniff (fun _ => text_file ragged_text) write_request
           eq_refl).
Defined.

(** ** Byte-order marks and the Latin-1 fallback *)

Lemma detection_bytes_ge (n : nat) :
  (n <=? 4096) = true -> n <= detection_bytes.
Proof.
  intros H. apply Nat.leb_le in H.
  assert (E : detection_bytes = 4096)
    by (unfold detection_bytes; apply Nat.eqb_eq; vm_compute; reflexivity).
  rewrite E. exact H.
Qed.

(** The tests on the first bytes see the same on the detection sample as on
    the whole content. *)
Lemma bytes_startswith_sample (p : list N) (content : Codec.bytes) :
  (List.length p <=? 4096) = true ->
  bytes_startswith p (firstn detection_bytes content)
  = bytes_startswith p content.
Proof.
  intros H. apply detection_bytes_ge in H. unfold bytes_startswith.
  rewrite <- firstn_map, firstn_firstn, Nat.min_l by exact H. reflexivity.
Qed.

Lemma detect_by_bom (content : Codec.bytes) (e : Codec.Encoding) :
  (if bytes_startswith [255; 254; 0; 0]%N content then Some Codec.UTF_32_LE
   else if bytes_startswith [0; 0; 254; 255]%N content then Some Codec.UTF_32_BE
   else if bytes_startswith [255; 254]%N content then Some Codec.UTF_16_LE
   else if bytes_startswith [254; 255]%N content then Some Codec.UTF_16_BE
   else if bytes_startswith [239; 187; 191]%N content then Some Codec.UTF_8_SIG
   else None) = Some e ->
  _detect_encoding_from_bytes (firstn detection_bytes content) = Some e.
Proof.
  unfold _detect_encoding_from_bytes.
  rewrite !bytes_startswith_sample by reflexivity.
  destruct (bytes_startswith [255; 254; 0; 0]%N content); [auto|].
  destruct (bytes_startswith [0; 0; 254; 255]%N content); [auto|].
  destruct (bytes_startswith [255; 254]%N content); [auto|].
  destruct (bytes_startswith [254; 255]%N content); [auto|].
  destruct (bytes_startswith [239; 187; 191]%N content); [auto|].
  discriminate.
Qed.

Lemma first_decoding_detected (content : Codec.bytes) (e : Codec.Encoding)
  (text : str) :
  _detect_encoding_from_bytes (firstn detection_bytes content) = Some e ->
  Codec.decode e content = Some text ->
  first_decoding (encodings_for content) content = Some (e, text).
Proof.
  intros Hdet Hdec. unfold encodings_for. rewrite Hdet.
  cbn [app first_decoding]. rewrite Hdec. reflexivity.
Qed.

Lemma utf16_with_bom (little : bool) (payload : Codec.bytes) (text : str) :
  Codec.decode (utf16_encoding little) payload = Some text ->
  Codec.decode (utf16_encoding little) (utf16_bom little ++ payload)
  = Some (BOM_CHAR :: text).
Proof.
  destruct little; cbn [utf16_encoding utf16_bom Codec.decode app map];
    unfold Codec.utf16; cbn [Codec.units16];
    destruct (Codec.units16 _ (map Codec.ord payload)) as [us|];
    try discriminate; intros H; cbn [option_map];
    change (Codec.ord xff) with 255%N; change (Codec.ord xfe) with 254%N;
    change (255 + 256 * 254)%N with BOM_CHAR;
    change (256 * 254 + 255)%N with BOM_CHAR;
    change (Codec.combine16 (BOM_CHAR :: us))
      with (option_map (cons BOM_CHAR) (Codec.combine16 us));
    rewrite H; reflexivity.
Qed.

Lemma detect_utf16_bom (little : bool) (payload : Codec.bytes) :
  (little = true -> bytes_startswith [0; 0]%N payload = false) ->
  _detect_encoding_from_bytes
    (firstn detection_bytes (utf16_bom little ++ payload))
  = Some (utf16_encoding little).
Proof.
  intros H. apply detect_by_bom. destruct little.
  - specialize (H eq_refl).
    change (bytes_startswith [255; 254; 0; 0]%N (utf16_bom true ++ payload))
      with (bytes_startswith [0; 0]%N payload).
    rewrite H. reflexivity.
  - reflexivity.
Qed.

Lemma encoding_category_kept sniff (s : State) :
  filter (has_category "encoding") (warnings (later_checks sniff s))
  = filter (has_category "encoding") (warnings s)
  /\ filter (has_category "encoding") (errors (later_checks sniff s))
     = filter (has_category "encoding") (errors s).
Proof.
  destruct (later_checks_adds sniff s) as [[E [HE HEc]] [W [HW HWc]]].
  rewrite HE, HW, !filter_app.
  assert (N : forall cats l,
             ~ In "encoding"%string cats ->
             Forall (fun f : Finding => In (category f) cats) l ->
             filter (has_category "encoding") l = []).
  { intros cats l Hc Hl. apply filter_none. intros f Hf.
    rewrite Forall_forall in Hl. specialize (Hl f Hf).
    unfold has_category. apply String.eqb_neq. intros Eq.
    rewrite Eq in Hl. contradiction. }
  rewrite (N later_warning_categories W), (N later_error_categories E),
    !app_nil_r; try assumption; try (split; reflexivity).
  - unfold later_error_categories. cbn.
    intros H; repeat (destruct H as [H|H]; [discriminate H|]); exact H.
  - unfold later_warning_categories, content_categories. cbn.
    intros H; repeat (destruct H as [H|H]; [discriminate H|]); exact H.
Qed.

(** A UTF-16 file that starts with its byte-order mark (and, if little
    endian, does not go on with two null bytes, which would make it the
    mark of UTF-32) is read in the UTF-16 encoding of that byte order, with
    the mark kept as the first character of the text.  The report then has
    two warnings of category [encoding]: the one naming the encoding and
    the one of [check_bom], whose message speaks of a UTF-8 BOM. *)
Theorem utf16_bom_warnings :
  forall (sniff : str -> option Csv.Dialect) (little : bool)
         (payload : Codec.bytes) (text : str) (path : str),
    (little = true -> bytes_startswith [0; 0]%N payload = false) ->
    Codec.decode (utf16_encoding little) payload = Some text ->
    encoding
      (stats (validate sniff (regular_file (utf16_bom little ++ payload)) path))
    = Some (utf16_encoding little)
    /\ filter (has_category "encoding")
         (report_warnings
            (validate sniff (regular_file (utf16_bom little ++ payload)) path))
       = [utf16_warning little; bom_warning].
Proof.
  intros sniff little payload text path Hnot32 Hdec.
  set (content := utf16_bom little ++ payload).
  pose proof (first_decoding_detected content (utf16_encoding little)
                (BOM_CHAR :: text) (detect_utf16_bom little payload Hnot32)
                (utf16_with_bom little payload text Hdec)) as Hfirst.
  split.
  - apply (reported_encoding_of sniff (regular_file content) path content
             (utf16_encoding little) (BOM_CHAR :: text));
      [reflexivity | reflexivity | exact Hfirst].
  - unfold validate.
    rewrite (usable_final_state sniff (regular_file content) path content
               (utf16_encoding little) (BOM_CHAR :: text) eq_refl eq_refl Hfirst).
    rewrite run_checks_later.
    set (s0 := accept_encoding (utf16_encoding little) (BOM_CHAR :: text)
                 (init path)).
    destruct (accept_utf16 little (BOM_CHAR :: text) (init path))
      as [Hw0 [_ [Ht0 [H16 _]]]].
    fold s0 in Hw0, Ht0, H16.
    destruct (check_encoding_issues_utf16 s0 H16) as [_ [Hw1 [Ht1 _]]].
    set (s1 := check_encoding_issues s0) in *.
    cbn [report_warnings get_results].
    destruct (encoding_category_kept sniff (check_bom s1)) as [Hk _].
    rewrite Hk. unfold check_bom. rewrite Ht1, Ht0.
    change (startswith [BOM_CHAR] (BOM_CHAR :: text)) with true.
    cbn [warnings add_warning set_warnings]. rewrite Hw1, Hw0.
    destruct little; reflexivity.
Qed.

Lemma utf16_bom_warnings_witness :
  bytes_startswith [0; 0]%N plain_utf16 = false
  /\ Codec.decode Codec.UTF_16_LE plain_utf16
     = Some (of_string "a,b" ++ [LF] ++ of_string "1,2")
  /\ encoding
       (stats (validate no_sniff (regular_file (utf16_bom true ++ plain_utf16))
                 some_path))
     = Some Codec.UTF_16_LE
  /\ filter (has_category "encoding")
       (report_warnings
          (validate no_sniff (regular_file (utf16_bom true ++ plain_utf16))
             some_path))
     = [utf16_warning true; bom_warning].
Proof.
  assert (H1 : bytes_startswith [0; 0]%N plain_utf16 = false) by reflexivity.
  assert (H2 : Codec.decode Codec.UTF_16_LE plain_utf16
               = Some (of_string "a,b" ++ [LF] ++ of_string "1,2"))
    by reflexivity.
  split; [exact H1|]. split; [exact H2|].
  apply (utf16_bom_warnings no_sniff true plain_utf16
           (of_string "a,b" ++ [LF] ++ of_string "1,2") some_path
           (fun _ => H1) H2).
Defined.

Ltac other_byte b Hne :=
  unfold Codec.utf8_sig; destruct b as [|p]; [reflexivity|];
  do 8 (try (destruct p as [p|p|]; try reflexivity));
  exfalso; apply Hne; reflexivity.

Lemma utf8_sig_without_bom (bs : list N) :
  eqb_list N.eqb (firstn 3 bs) [239; 187; 191]%N = false ->
  bs <> [239]%N -> bs <> [239; 187]%N ->
  Codec.utf8_sig bs = Codec.utf8 bs.
Proof.
  intros H H1 H2. destruct bs as [|b0 r]; [reflexivity|].
  destruct (N.eq_dec b0 239) as [->|N0]; [|other_byte b0 N0].
  destruct r as [|b1 r]; [exfalso; apply H1; reflexivity|].
  destruct (N.eq_dec b1 187) as [->|N1]; [|other_byte b1 N1].
  destruct r as [|b2 r]; [exfalso; apply H2; reflexivity|].
  destruct (N.eq_dec b2 191) as [->|N2]; [discriminate H|other_byte b2 N2].
Qed.

Lemma accept_plain (e : Codec.Encoding) (text : str) (s : State) :
  is_utf8 e = true ->
  warnings (accept_encoding e text s) = warnings s
  /\ errors (accept_encoding e text s) = errors s
  /\ raw_content (accept_encoding e text s) = text.
Proof.
  intros H. unfold accept_encoding. rewrite H. repeat split.
Qed.

Lemma raw_content_run_checks sniff (s : State) :
  raw_content (run_checks sniff s) = raw_content s.
Proof. apply (same_source_run_checks sniff s). Qed.

(** A UTF-8 file that starts with the byte-order mark is read as utf-8-sig:
    the mark is not part of the text, and unless the text itself starts
    with a second mark the report has no warning of category [encoding],
    neither about the encoding nor about the mark. *)
Theorem utf8_bom_is_dropped :
  forall (sniff : str -> option Csv.Dialect) (payload : Codec.bytes)
         (text : str) (path : str),
    Codec.decode Codec.UTF_8 payload = Some text ->
    startswith [BOM_CHAR] text = false ->
    encoding (stats (validate sniff (regular_file (utf8_bom ++ payload)) path))
    = Some Codec.UTF_8_SIG
    /\ raw_content (final_state sniff (regular_file (utf8_bom ++ payload)) path)
       = text
    /\ filter (has_category "encoding")
         (report_warnings
            (validate sniff (regular_file (utf8_bom ++ payload)) path))
       = [].
Proof.
  intros sniff payload text path Hdec Hbom.
  set (content := utf8_bom ++ payload).
  assert (Hfirst : first_decoding (encodings_for content) content
                   = Some (Codec.UTF_8_SIG, text)).
  { apply first_decoding_detected.
    - apply detect_by_bom. reflexivity.
    - exact Hdec. }
  split; [|split].
  - apply (reported_encoding_of sniff (regular_file content) path content
             Codec.UTF_8_SIG text); [reflexivity | reflexivity | exact Hfirst].
  - rewrite (usable_final_state sniff (regular_file content) path content
               Codec.UTF_8_SIG text eq_refl eq_refl Hfirst).
    rewrite raw_content_run_checks. reflexivity.
  - unfold validate.
    rewrite (usable_final_state sniff (regular_file content) path content
               Codec.UTF_8_SIG text eq_refl eq_refl Hfirst).
    rewrite run_checks_later. cbn [report_warnings get_results].
    destruct (encoding_category_kept sniff
                (check_bom
                   (check_encoding_issues
                      (accept_encoding Codec.UTF_8_SIG text (init path)))))
      as [Hk _].
    rewrite Hk.
    set (s0 := accept_encoding Codec.UTF_8_SIG text (init path)).
    assert (W1 : warnings (check_encoding_issues s0) = [])
      by (apply (adds_only_warnings (check_encoding_issues_adds s0))).
    assert (T1 : raw_content (check_encoding_issues s0) = text).
    { apply (frame_check_encoding_issues
               (fun s s' => raw_content s' = raw_content s)); intros;
        cbn; congruence. }
    unfold check_bom. rewrite T1, Hbom, W1. reflexivity.
Qed.

Lemma utf8_bom_is_dropped_witness :
  Codec.decode Codec.UTF_8 (encode_latin1 ragged_text) = Some ragged_text
  /\ encoding
       (stats (validate no_sniff
                 (regular_file (utf8_bom ++ encode_latin1 ragged_text))
                 some_path))
     = Some Codec.UTF_8_SIG
  /\ raw_content
       (final_state no_sniff
          (regular_file (utf8_bom ++ encode_latin1 ragged_text)) some_path)
     = ragged_text
  /\ filter (has_category "encoding")
       (report_warnings
          (validate no_sniff
             (regular_file (utf8_bom ++ encode_latin1 ragged_text)) some_path))
     = [].
Proof.
  assert (H : Codec.decode Codec.UTF_8 (encode_latin1 ragged_text)
              = Some ragged_text) by reflexivity.
  split; [exact H|].
  apply (utf8_bom_is_dropped no_sniff (encode_latin1 ragged_text) ragged_text
           some_path H eq_refl).
Defined.

Lemma detect_none_no_bom (raw : Codec.bytes) :
  _detect_encoding_from_bytes raw = None ->
  bytes_startswith [239; 187; 191]%N raw = false.
Proof.
  unfold _detect_encoding_from_bytes.
  destruct (bytes_startswith [255; 254; 0; 0]%N raw); [discriminate|].
  destruct (bytes_startswith [0; 0; 254; 255]%N raw); [discriminate|].
  destruct (bytes_startswith [255; 254]%N raw); [discriminate|].
  destruct (bytes_startswith [254; 255]%N raw); [discriminate|].
  destruct (bytes_startswith [239; 187; 191]%N raw); [discriminate|].
  reflexivity.
Qed.

Lemma latin1_no_bom_char (content : Codec.bytes) :
  startswith [BOM_CHAR] (map Codec.ord content) = false.
Proof.
  destruct content as [|b r]; [reflexivity|].
  unfold startswith, str_eqb. cbn [List.length map firstn eqb_list].
  pose proof (ord_bound b) as Hb.
  destruct (N.eqb_spec (Codec.ord b) BOM_CHAR) as [E|E]; [|reflexivity].
  exfalso. unfold BOM_CHAR in E. lia.
Qed.

(** When no encoding is detected from the first bytes, the file is not
    valid UTF-8 and it is not the lone byte EF or the two bytes EF BB (the
    start of a BOM, which utf-8-sig reads as an empty text), it is read as
    Latin-1, each byte becoming the character of the same code: the report
    names latin-1 and has exactly one warning of category [encoding], "File
    not in UTF-8 encoding, detected: latin-1". *)
Theorem latin1_fallback :
  forall (sniff : str -> option Csv.Dialect) (content : Codec.bytes)
         (path : str),
    _detect_encoding_from_bytes (firstn detection_bytes content) = None ->
    Codec.decode Codec.UTF_8 content = None ->
    map Codec.ord content <> [239]%N ->
    map Codec.ord content <> [239; 187]%N ->
    encoding (stats (validate sniff (regular_file content) path))
    = Some Codec.LATIN_1
    /\ raw_content (final_state sniff (regular_file content) path)
       = map Codec.ord content
    /\ filter (has_category "encoding")
         (report_warnings (validate sniff (regular_file content) path))
       = [not_utf8_warning Codec.LATIN_1].
Proof.
  intros sniff content path Hdet Hdec Hb1 Hb2.
  set (text := map Codec.ord content).
  assert (Hfirst : first_decoding (encodings_for content) content
                   = Some (Codec.LATIN_1, text)).
  { unfold encodings_for. rewrite Hdet.
    cbn [app fallback_encodings first_decoding]. rewrite Hdec.
    assert (Hsig : Codec.decode Codec.UTF_8_SIG content = None).
    { unfold Codec.decode in *.
      rewrite utf8_sig_without_bom; [exact Hdec| |exact Hb1|exact Hb2].
      apply detect_none_no_bom in Hdet.
      rewrite bytes_startswith_sample in Hdet by reflexivity. exact Hdet. }
    rewrite Hsig. reflexivity. }
  split; [|split].
  - apply (reported_encoding_of sniff (regular_file content) path content
             Codec.LATIN_1 text); [reflexivity | reflexivity | exact Hfirst].
  - rewrite (usable_final_state sniff (regular_file content) path content
               Codec.LATIN_1 text eq_refl eq_refl Hfirst).
    rewrite raw_content_run_checks. reflexivity.
  - unfold validate.
    rewrite (usable_final_state sniff (regular_file content) path content
               Codec.LATIN_1 text eq_refl eq_refl Hfirst).
    rewrite run_checks_later. cbn [report_warnings get_results].
    destruct (encoding_category_kept sniff
                (check_bom
                   (check_encoding_issues
                      (accept_encoding Codec.LATIN_1 text (init path)))))
      as [Hk _].
    rewrite Hk.
    set (s0 := accept_encoding Codec.LATIN_1 text (init path)).
    assert (W1 : warnings (check_encoding_issues s0)
                 = [not_utf8_warning Codec.LATIN_1])
      by (apply (adds_only_warnings (check_encoding_issues_adds s0))).
    assert (T1 : raw_content (check_encoding_issues s0) = text).
    { apply (frame_check_encoding_issues
               (fun s s' => raw_content s' = raw_content s)); intros;
        cbn; congruence. }
    unfold check_bom. rewrite T1. unfold text at 1.
    rewrite latin1_no_bom_char, W1. reflexivity.
Qed.

Lemma latin1_fallback_witness :
  _detect_encoding_from_bytes (firstn detection_bytes small_latin1) = None
  /\ Codec.decode Codec.UTF_8 small_latin1 = None
  /\ encoding (stats (validate no_sniff (regular_file small_latin1) some_path))
     = Some Codec.LATIN_1
  /\ raw_content (final_state no_sniff (regular_file small_latin1) some_path)
     = map Codec.ord small_latin1
  /\ filter (has_category "encoding")
       (report_warnings (validate no_sniff (regular_file small_latin1) some_path))
     = [not_utf8_warning Codec.LATIN_1].
Proof.
  assert (H1 : _detect_encoding_from_bytes (firstn detection_bytes small_latin1)
               = None) by (vm_compute; reflexivity).
  assert (H2 : Codec.decode Codec.UTF_8 small_latin1 = None) by reflexivity.
  split; [exact H1|]. split; [exact H2|].
  apply (latin1_fallback no_sniff small_latin1 some_path H1 H2);
    discriminate.
Defined.

(** ** Line endings *)

Lemma count_pair_skip (a b x : char) (r : str) :
  x <> a -> count_pair a b (x :: r) = count_pair a b r.
Proof.
  intros H. cbn [count_pair]. destruct r as [|y r']; [reflexivity|].
  apply N.eqb_neq in H. rewrite H. reflexivity.
Qed.

Lemma count_pair_body (a b : char) (body r : str) :
  ~ In a body -> count_pair a b (body ++ r) = count_pair a b r.
Proof.
  induction body as [|x body IH]; intros H; [reflexivity|].
  cbn [app]. rewrite count_pair_skip.
  - apply IH. intros Hin. apply H. right. exact Hin.
  - intros E. apply H. left. exact E.
Qed.

Lemma count_char_absent (d : char) (s : str) : ~ In d s -> count_char d s = 0.
Proof. apply count_char_zero. Qed.

(** The three counts of [check_line_endings] on a text of CR LF and LF
    lines. *)
Lemma written_counts (ls : list (str * bool)) :
  Forall (fun l => ~ In CR (fst l) /\ ~ In LF (fst l)) ls ->
  count_pair CR LF (written ls) = crlf_lines ls
  /\ count_char LF (written ls) = crlf_lines ls + lf_lines ls
  /\ count_char CR (written ls) = crlf_lines ls.
Proof.
  unfold written, crlf_lines, lf_lines.
  induction 1 as [|[body e] ls [Hcr Hlf] _ [IH1 [IH2 IH3]]];
    [repeat split|].
  cbn [flat_map fst snd filter]. rewrite <- !app_assoc.
  rewrite count_pair_body by exact Hcr.
  rewrite !count_char_app, (count_char_absent LF body Hlf),
    (count_char_absent CR body Hcr).
  destruct e; cbn [negb app List.length].
  - change (count_pair CR LF (CR :: LF :: ?r)) with (S (count_pair CR LF r)).
    rewrite !count_char_cons. cbn [N.eqb]. rewrite IH1, IH2, IH3.
    repeat split; reflexivity.
  - rewrite count_pair_skip by discriminate.
    rewrite !count_char_cons. cbn [N.eqb]. rewrite IH1, IH2, IH3.
    repeat split; try reflexivity. cbn. lia.
Qed.

(** On a text whose lines end with CR LF or with LF, [check_line_endings]
    warns exactly when both kinds occur, and the warning carries the number
    of lines of each kind; a text that uses one kind throughout gets no
    warning. *)
Theorem mixed_line_endings :
  forall (ls : list (str * bool)) (s : State),
    raw_content s = written ls ->
    Forall (fun l => ~ In CR (fst l) /\ ~ In LF (fst l)) ls ->
    warnings (check_line_endings s)
    = warnings s
      ++ (if (0 <? crlf_lines ls) && (0 <? lf_lines ls)
          then [line_endings_warning
                  [("CRLF"%string, crlf_lines ls); ("LF"%string, lf_lines ls)]]
          else [])
    /\ errors (check_line_endings s) = errors s.
Proof.
  intros ls s Hraw Hls.
  destruct (written_counts ls Hls) as [H1 [H2 H3]].
  unfold check_line_endings, line_endings. rewrite Hraw, H1, H2, H3.
  replace (crlf_lines ls + lf_lines ls - crlf_lines ls) with (lf_lines ls)
    by lia.
  rewrite Nat.sub_diag.
  destruct (crlf_lines ls) as [|n], (lf_lines ls) as [|m];
    cbn [Nat.ltb Nat.leb andb app List.length];
    rewrite ?app_nil_r; split; reflexivity.
Qed.

Lemma mixed_line_endings_witness :
  Forall (fun l : str * bool => ~ In CR (fst l) /\ ~ In LF (fst l)) mixed_lines
  /\ warnings (check_line_endings (read_state (written mixed_lines)))
     = [line_endings_warning [("CRLF"%string, 2); ("LF"%string, 1)]].
Proof.
  assert (H : Forall (fun l : str * bool => ~ In CR (fst l) /\ ~ In LF (fst l))
                mixed_lines).
  { repeat constructor; cbn; intros E;
      repeat (destruct E as [E|E]; [discriminate E|]); exact E. }
  split; [exact H|].
  exact (proj1 (mixed_line_endings mixed_lines (read_state (written mixed_lines))
                  eq_refl H)).
Defined.

(** ** What [_detect_delimiter] can answer *)

Lemma filter_length_le {A} (p : A -> bool) (l : list A) :
  List.length (filter p l) <= List.length l.
Proof.
  induction l as [|x l IH]; [cbn; lia|].
  cbn [filter]. destruct (p x); cbn [List.length]; lia.
Qed.

Lemma filter_app_length {A} (p : A -> bool) (a b : list A) :
  List.length (filter p (a ++ b))
  = List.length (filter p a) + List.length (filter p b).
Proof. rewrite filter_app, length_app. reflexivity. Qed.

Lemma filter_firstn_le {A} (p : A -> bool) (n : nat) (l : list A) :
  List.length (filter p (firstn n l)) <= List.length (filter p l).
Proof.
  rewrite <- (firstn_skipn n l) at 2. rewrite filter_app_length. lia.
Qed.

Lemma filter_filter_le {A} (p q : A -> bool) (l : list A) :
  List.length (filter p (filter q l)) <= List.length (filter p l).
Proof.
  induction l as [|x l IH]; [cbn; lia|].
  cbn [filter]. destruct (q x), (p x) eqn:E; cbn [filter List.length];
    rewrite ?E; cbn [List.length]; lia.
Qed.

(** The candidate lines are stripped lines of the sample, each taken at
    most once. *)
Lemma collect_candidates_le (p : str -> bool) (L : list str) :
  forall acc,
    List.length (filter p (collect_candidates L acc))
    <= List.length (filter p acc) + List.length (filter p (map strip L)).
Proof.
  induction L as [|l L IH]; intros acc; cbn [collect_candidates map filter].
  - cbn. lia.
  - cbv zeta. destruct (is_empty (strip l)).
    + specialize (IH acc). destruct (p (strip l)); cbn [List.length]; lia.
    + destruct (has_delimiter (strip l)).
      * destruct (30 <=? _).
        -- rewrite filter_app_length. cbn [filter].
           destruct (p (strip l)); cbn [List.length]; lia.
        -- specialize (IH (acc ++ [strip l])).
           rewrite filter_app_length in IH. cbn [filter] in IH.
           destruct (p (strip l)); cbn [List.length] in *; lia.
      * destruct (30 <=? _).
        -- destruct (p (strip l)); cbn [List.length]; lia.
        -- specialize (IH acc). destruct (p (strip l)); cbn [List.length]; lia.
Qed.

Lemma filter_map_length {A B} (p : B -> bool) (f : A -> B) (l : list A) :
  List.length (filter p (map f l))
  = List.length (filter (fun x => p (f x)) l).
Proof.
  induction l as [|x l IH]; [reflexivity|].
  cbn [map filter]. destruct (p (f x)); cbn [List.length]; rewrite IH;
    reflexivity.
Qed.

Lemma filter_weaken_le {A} (p q : A -> bool) (l : list A) :
  (forall x, p x = true -> q x = true) ->
  List.length (filter p l) <= List.length (filter q l).
Proof.
  intros H. induction l as [|x l IH]; [cbn; lia|].
  cbn [filter]. destruct (p x) eqn:E.
  - rewrite (H x E). cbn [List.length]. lia.
  - destruct (q x); cbn [List.length]; lia.
Qed.

(** A delimiter gets a score only when two candidate lines contain it. *)
Lemma delimiter_score_two (d : char) (cands : list str) (sc : Q) :
  delimiter_score d cands = Some sc ->
  2 <= List.length (filter (fun l => 0 <? count_char d l) cands).
Proof.
  unfold delimiter_score.
  destruct (is_empty _ || forallb _ _); [discriminate|].
  destruct (List.length (filter _ (map (count_char d) cands)) <? 2) eqn:E;
    [discriminate|].
  intros _. apply Nat.ltb_ge in E. rewrite filter_map_length in E. exact E.
Qed.

Lemma best_step_fold (cands : list str) (ds : list char) :
  forall (best : option char * Q) (d : char),
    fst (fold_left (best_step cands) ds best) = Some d ->
    fst best = Some d
    \/ (In d ds /\ exists sc, delimiter_score d cands = Some sc).
Proof.
  induction ds as [|d0 ds IH]; intros best d H; [left; exact H|].
  cbn [fold_left] in H. apply IH in H. destruct H as [H|[Hin Hsc]].
  - unfold best_step in H.
    destruct (delimiter_score d0 cands) as [sc|] eqn:E; [|left; exact H].
    destruct (Qltb (snd best) sc); [|left; exact H].
    cbn [fst] in H. injection H as <-.
    right. split; [left; reflexivity | exists sc; exact E].
  - right. split; [right; exact Hin | exact Hsc].
Qed.

(** Whatever the sample, the detector answers with one of its four
    candidates, and only with one that occurs on at least two lines of the
    sample. *)
Theorem detect_delimiter_sound :
  forall (sample : str) (d : char),
    _detect_delimiter sample = Some d ->
    In d delimiters
    /\ 2 <= List.length (filter (contains d) (split LF sample)).
Proof.
  intros sample d. unfold _detect_delimiter.
  set (L := split LF sample).
  set (c0 := collect_candidates L []).
  set (cands := if List.length c0 <? 2
                then firstn 30
                       (filter (fun l => negb (is_empty l)) (map strip L))
                else c0).
  assert (Hsub : forall p, List.length (filter p cands)
                           <= List.length (filter p (map strip L))).
  { intros p. subst cands. destruct (List.length c0 <? 2).
    - etransitivity; [apply filter_firstn_le | apply filter_filter_le].
    - subst c0. pose proof (collect_candidates_le p L []) as H.
      exact H. }
  destruct (List.length cands <? 2); [discriminate|].
  destruct (Qltb 1 _); [|discriminate].
  intros H. apply best_step_fold in H. cbn [fst] in H.
  destruct H as [H|[Hin [sc Hsc]]]; [discriminate H|].
  split; [exact Hin|].
  apply delimiter_score_two in Hsc.
  specialize (Hsub (fun l => 0 <? count_char d l)).
  rewrite filter_map_length in Hsub.
  etransitivity; [exact Hsc|]. etransitivity; [exact Hsub|].
  apply filter_weaken_le. intros l Hl. apply Nat.ltb_lt in Hl.
  apply contains_in. apply strip_incl.
  destruct (count_char d (strip l)) as [|n] eqn:E; [lia|].
  destruct (in_dec N.eq_dec d (strip l)) as [Hi|Hi]; [exact Hi|].
  apply count_char_zero in Hi. congruence.
Qed.

Lemma detect_delimiter_sound_witness :
  _detect_delimiter (render SEMICOLON people_rows) = Some SEMICOLON
  /\ In SEMICOLON delimiters
  /\ 2 <= List.length
            (filter (contains SEMICOLON)
               (split LF (render SEMICOLON people_rows))).
Proof.
  assert (H : _detect_delimiter (render SEMICOLON people_rows) = Some SEMICOLON)
    by (vm_compute; reflexivity).
  split; [exact H|].
  exact (detect_delimiter_sound (render SEMICOLON people_rows) SEMICOLON H).
Defined.

(** ** A carriage return inside a line *)

Lemma io_lines_first (a r : str) :
  ~ In LF a -> a <> [] ->
  exists t ls, io_lines (a ++ r) = (a ++ t) :: ls.
Proof.
  induction a as [|x a IH]; intros Hlf Hne; [congruence|].
  assert (Hx : (x =? LF)%N = false).
  { apply N.eqb_neq. intros E. apply Hlf. left. exact E. }
  cbn [app io_lines]. rewrite Hx.
  destruct a as [|y a'].
  - cbn [app]. destruct (io_lines r) as [|l ls].
    + exists [], []. reflexivity.
    + exists l, ls. reflexivity.
  - destruct IH as [t [ls E]]; [|discriminate|].
    + intros Hin. apply Hlf. right. exact Hin.
    + rewrite E. exists t, ls. reflexivity.
Qed.

(** After ordinary characters, a carriage return and a character that is
    not a line break, the automaton raises [csv.Error]. *)
Lemma feed_bare_cr (D : char) (f : str) (c : char) (tail : str) :
  Forall (ordinary D) f -> List.length f <= max_reasonable_length ->
  c <> CR -> c <> LF ->
  Csv.feed (Csv.excel D) Csv.parse_reset (f ++ CR :: c :: tail)
  = inr Csv.NewlineInUnquotedField.
Proof.
  intros Hf Hlen Hcr Hlf.
  assert (Hc : Csv.is_newline c = false).
  { unfold Csv.is_newline. apply N.eqb_neq in Hcr, Hlf.
    rewrite Hcr, Hlf. reflexivity. }
  destruct f as [|x f].
  - cbn [app Csv.feed]. unfold Csv.parse_process_char at 1.
    cbn [Csv.state Csv.parse_reset]. change (Csv.is_newline CR) with true.
    cbv iota. unfold Csv.parse_process_char.
    cbn [Csv.state Csv.set_state]. rewrite Hc. reflexivity.
  - rewrite (feed_field D (x :: f) Csv.parse_reset (CR :: c :: tail)
               (or_introl eq_refl) eq_refl ltac:(discriminate) Hf Hlen).
    cbn [Csv.feed]. unfold Csv.parse_process_char at 1.
    cbn [Csv.state]. change (Csv.is_newline CR) with true.
    cbv iota. unfold Csv.parse_process_char.
    cbn [Csv.state Csv.set_state Csv.parse_save_field]. rewrite Hc.
    reflexivity.
Qed.

Lemma reader_bare_cr (D : char) (f : str) (c : char) (rest : str) :
  Forall (ordinary D) f -> List.length f <= max_reasonable_length ->
  c <> CR -> c <> LF ->
  Csv.reader (Csv.excel D) (f ++ CR :: c :: rest)
  = ([], Some Csv.NewlineInUnquotedField).
Proof.
  intros Hf Hlen Hcr Hlf. unfold Csv.reader.
  destruct (io_lines_first (f ++ [CR; c]) rest) as [t [ls E]].
  - intros Hin. apply in_app_or in Hin. destruct Hin as [Hin|Hin].
    + rewrite Forall_forall in Hf. destruct (Hf LF Hin) as [H _].
      apply H. reflexivity.
    + destruct Hin as [H|[H|[]]]; [discriminate H | congruence].
  - destruct f; discriminate.
  - rewrite <- app_assoc in E. cbn [app] in E. rewrite E.
    cbn [Csv.records]. unfold Csv.feed_line.
    rewrite <- !app_assoc. cbn [app].
    rewrite (feed_bare_cr D f c t Hf Hlen Hcr Hlf). reflexivity.
Qed.

(** When the first line of the text has a carriage return that is followed
    by a character other than a line break (before it only characters that
    are not a quote, the delimiter or a line break), [parse_csv] records the
    error of [csv.reader] under [parsing] and parses no row: the rows and
    the headers stay as they were. *)
Theorem bare_carriage_return :
  forall (D : char) (f : str) (c : char) (rest : str) (s : State),
    detected_dialect s = Some (Csv.excel D) ->
    raw_content s = f ++ CR :: c :: rest ->
    Forall (ordinary D) f -> List.length f <= max_reasonable_length ->
    c <> CR -> c <> LF ->
    errors (parse_csv s)
    = errors s ++ [parsing_error Csv.NewlineInUnquotedField]
    /\ rows (parse_csv s) = rows s
    /\ headers (parse_csv s) = headers s
    /\ warnings (parse_csv s) = warnings s.
Proof.
  intros D f c rest s Hd Hraw Hf Hlen Hcr Hlf.
  unfold parse_csv, the_dialect. rewrite Hd, Hraw.
  rewrite (reader_bare_cr D f c rest Hf Hlen Hcr Hlf).
  cbn [errors rows headers warnings add_error set_errors set_rows].
  rewrite app_nil_r. repeat split.
Qed.

Lemma bare_carriage_return_witness :
  Forall (ordinary COMMA) (of_string "a")
  /\ errors (parse_csv (detected_state COMMA (of_string "a" ++ CR :: of_string "b,c")))
     = [parsing_error Csv.NewlineInUnquotedField]
  /\ rows (parse_csv (detected_state COMMA (of_string "a" ++ CR :: of_string "b,c")))
     = [].
Proof.
  assert (H : Forall (ordinary COMMA) (of_string "a")).
  { repeat constructor; discriminate. }
  split; [exact H|].
  destruct (bare_carriage_return COMMA (of_string "a") 98%N (of_string ",c")
              (detected_state COMMA (of_string "a" ++ CR :: of_string "b,c"))
              eq_refl eq_refl H) as [He [Hr _]].
  - apply Nat.leb_le. vm_compute. reflexivity.
  - discriminate.
  - discriminate.
  - split; [exact He | exact Hr].
Defined.

(** ** Repeated header names *)

Lemma dict_get_set_same {V} (k : str) (v : V) (d : list (str * V)) :
  exists v', dict_get str_eqb k (dict_set str_eqb k v d) = Some v'.
Proof.
  induction d as [|[k0 v0] d IH]; cbn [dict_set dict_get].
  - rewrite str_eqb_refl. eexists. reflexivity.
  - destruct (str_eqb k k0) eqn:E; cbn [dict_get]; rewrite E.
    + eexists. reflexivity.
    + exact IH.
Qed.

Lemma dict_get_set_keep {V} (k k' : str) (v : V) (d : list (str * V)) :
  (exists j, dict_get str_eqb k d = Some j) ->
  exists j, dict_get str_eqb k (dict_set str_eqb k' v d) = Some j.
Proof.
  induction d as [|[k0 v0] d IH]; cbn [dict_set dict_get].
  - intros [j H]. discriminate H.
  - intros H. destruct (str_eqb k' k0) eqn:E'; cbn [dict_get].
    + destruct (str_eqb k k0); [eexists; reflexivity | exact H].
    + destruct (str_eqb k k0); [exact H | apply IH; exact H].
Qed.

Lemma near_duplicates_errors (all : list str) (hs : list (nat * str))
  (normalized : list (str * nat)) (s : State) :
  errors (near_duplicates all hs normalized s) = errors s.
Proof.
  apply (frame_near_duplicates (fun s s' => errors s' = errors s));
    intros; cbn; congruence.
Qed.

Lemma near_duplicates_grows (all : list str) (hs : list (nat * str)) :
  forall (normalized : list (str * nat)) (s : State),
    List.length (warnings s)
    <= List.length (warnings (near_duplicates all hs normalized s)).
Proof.
  induction hs as [|[i h] hs IH]; intros normalized s;
    cbn [near_duplicates]; [lia|].
  cbv zeta. destruct (dict_get _ _ _).
  - etransitivity; [|apply IH].
    cbn [warnings add_warning set_warnings]. rewrite length_app. lia.
  - apply IH.
Qed.

(** A header whose normal form is already known raises a warning. *)
Lemma near_duplicates_hit (all : list str) (hs : list str) :
  forall (i : nat) (normalized : list (str * nat)) (s : State),
    (exists h, In h hs
               /\ exists j, dict_get str_eqb (lower (strip h)) normalized = Some j) ->
    List.length (warnings s)
    < List.length (warnings (near_duplicates all (enumerate i hs) normalized s)).
Proof.
  induction hs as [|x hs IH]; intros i normalized s [h [Hin Hj]];
    [destruct Hin|].
  cbn [enumerate near_duplicates]. cbv zeta.
  destruct (dict_get str_eqb (lower (strip x)) normalized) as [j|] eqn:E.
  - eapply Nat.lt_le_trans; [|apply near_duplicates_grows].
    cbn [warnings add_warning set_warnings]. rewrite length_app.
    cbn [List.length]. lia.
  - apply IH. exists h. split.
    + destruct Hin as [->|Hin]; [|exact Hin].
      destruct Hj as [j Hj]. congruence.
    + apply dict_get_set_keep. exact Hj.
Qed.

Lemma near_duplicates_twice (all : list str) (h : str) (l2 l3 : list str)
  (l1 : list str) :
  forall (i : nat) (normalized : list (str * nat)) (s : State),
    List.length (warnings s)
    < List.length
        (warnings
           (near_duplicates all (enumerate i (l1 ++ h :: l2 ++ h :: l3))
              normalized s)).
Proof.
  induction l1 as [|x l1 IH]; intros i normalized s.
  - cbn [app enumerate near_duplicates]. cbv zeta.
    destruct (dict_get str_eqb (lower (strip h)) normalized) as [j|] eqn:E.
    + eapply Nat.lt_le_trans; [|apply near_duplicates_grows].
      cbn [warnings add_warning set_warnings]. rewrite length_app.
      cbn [List.length]. lia.
    + apply near_duplicates_hit. exists h. split.
      * apply in_or_app. right. left. reflexivity.
      * apply dict_get_set_same.
  - cbn [app enumerate near_duplicates]. cbv zeta.
    destruct (dict_get str_eqb (lower (strip x)) normalized) as [j|] eqn:E.
    + eapply Nat.lt_trans; [|apply IH].
      cbn [warnings add_warning set_warnings]. rewrite length_app.
      cbn [List.length]. lia.
    + apply IH.
Qed.

Lemma occ_twice (h : str) (l1 l2 l3 : list str) :
  2 <= occ str_eqb h (l1 ++ h :: l2 ++ h :: l3).
Proof.
  rewrite occ_app, occ_cons, occ_app, occ_cons, str_eqb_refl. lia.
Qed.

(** When a name that is not blank stands at two places of the header, the
    header check records the error "Duplicate headers found" with the
    number of times the name occurs, and the near-duplicate check warns as
    well: it takes the two equal names for names that "differ only by
    whitespace/case". *)
Theorem duplicate_headers_reported :
  forall (s : State) (h : str) (l1 l2 l3 : list str),
    headers s = l1 ++ h :: l2 ++ h :: l3 ->
    strip h <> [] ->
    In (duplicate_error (duplicate_headers (headers s)))
      (errors (check_header_issues s))
    /\ In (h, occ str_eqb h (headers s)) (duplicate_headers (headers s))
    /\ 2 <= occ str_eqb h (headers s)
    /\ List.length (warnings s)
       < List.length (warnings (check_header_issues s)).
Proof.
  intros s h l1 l2 l3 Hh Hstrip.
  assert (Hocc : 2 <= occ str_eqb h (headers s))
    by (rewrite Hh; apply occ_twice).
  assert (Hdup : In (h, occ str_eqb h (headers s))
                   (duplicate_headers (headers s))).
  { unfold duplicate_headers. apply filter_In. split.
    - apply (Counter_has str_eqb str_eqb_spec). rewrite Hh.
      apply in_or_app. right. left. reflexivity.
    - cbn [fst snd]. apply andb_true_iff. split.
      + apply Nat.ltb_lt. lia.
      + apply negb_true_iff. apply is_empty_false. exact Hstrip. }
  split; [|split; [exact Hdup|split; [exact Hocc|]]].
  - unfold check_header_issues.
    assert (Hne : is_empty (headers s) = false)
      by (rewrite Hh; destruct l1; reflexivity).
    rewrite Hne.
    set (s1 := if is_empty (empty_cols (headers s)) then s else _).
    assert (H1 : headers s1 = headers s)
      by (subst s1; destruct (is_empty (empty_cols (headers s)));
          reflexivity).
    rewrite H1.
    assert (Hd : is_empty (duplicate_headers (headers s)) = false)
      by (destruct (duplicate_headers (headers s)); [destruct Hdup | reflexivity]).
    rewrite Hd. cbv zeta.
    set (s2 := add_error _ _ _ _ _ s1).
    assert (E2 : In (duplicate_error (duplicate_headers (headers s)))
                   (errors s2)).
    { subst s2. cbn [errors add_error set_errors].
      apply in_or_app. right. left. reflexivity. }
    set (s3 := near_duplicates _ _ _ s2).
    assert (E3 : errors s3 = errors s2)
      by (subst s3; apply near_duplicates_errors).
    destruct (is_empty (problematic (headers s3)));
      cbn [errors add_warning set_warnings]; rewrite E3; exact E2.
  - unfold check_header_issues.
    assert (Hne : is_empty (headers s) = false)
      by (rewrite Hh; destruct l1; reflexivity).
    rewrite Hne.
    set (s1 := if is_empty (empty_cols (headers s)) then s else _).
    assert (H1 : headers s1 = headers s /\ warnings s1 = warnings s)
      by (subst s1; destruct (is_empty (empty_cols (headers s))); split;
          reflexivity).
    destruct H1 as [H1 W1].
    set (s2 := if is_empty (duplicate_headers (headers s1)) then s1 else _).
    assert (H2 : headers s2 = headers s /\ warnings s2 = warnings s).
    { subst s2. destruct (is_empty (duplicate_headers (headers s1)));
        cbn [headers warnings add_error set_errors]; rewrite ?H1, ?W1;
        split; reflexivity. }
    destruct H2 as [H2 W2]. cbv zeta.
    set (s3 := near_duplicates _ _ _ s2).
    assert (W3 : List.length (warnings s) < List.length (warnings s3)).
    { subst s3. rewrite <- W2, H2, Hh. apply near_duplicates_twice. }
    destruct (is_empty (problematic (headers s3)));
      cbn [warnings add_warning set_warnings]; rewrite ?length_app; lia.
Qed.

Lemma duplicate_headers_reported_witness :
  headers (parsed_state (tl titled_rows))
  = [] ++ of_string "id" :: [] ++ of_string "id" :: []
  /\ In (duplicate_error [(of_string "id", 2)])
       (errors (check_header_issues (parsed_state (tl titled_rows))))
  /\ 0 < List.length
           (warnings (check_header_issues (parsed_state (tl titled_rows)))).
Proof.
  split; [reflexivity|].
  destruct (duplicate_headers_reported (parsed_state (tl titled_rows))
              (of_string "id") [] [] [] eq_refl) as [H1 [_ [_ H4]]].
  - discriminate.
  - split; [exact H1 | exact H4].
Defined.

(** ** Columns of mixed types *)

Lemma classify_nil : classify [] = "empty"%string.
Proof. reflexivity. Qed.

Lemma classify_empty_iff (c : str) : classify c = "empty"%string <-> c = [].
Proof.
  split; [|intros ->; reflexivity].
  unfold classify. destruct c as [|x c]; [reflexivity|].
  cbn [is_empty].
  destruct (_is_numeric _); [discriminate|].
  destruct (_is_date _); [discriminate|].
  destruct (_is_boolean _); discriminate.
Qed.

Lemma count_positive (k : string) (cells : list str) (c : str) :
  In c cells -> classify c = k ->
  (0 <? List.length (filter (fun c => String.eqb (classify c) k) cells)) = true.
Proof.
  intros Hin Hk. apply Nat.ltb_lt.
  assert (H : In c (filter (fun c => String.eqb (classify c) k) cells)).
  { apply filter_In. split; [exact Hin|]. apply String.eqb_eq. exact Hk. }
  destruct (filter _ cells); [destruct H | cbn; lia].
Qed.

Lemma positive_cell (k : string) (cells : list str) :
  (0 <? List.length (filter (fun c => String.eqb (classify c) k) cells)) = true ->
  exists c, In c cells /\ classify c = k.
Proof.
  intros H. apply Nat.ltb_lt in H.
  destruct (filter (fun c => String.eqb (classify c) k) cells) as [|c r] eqn:E;
    [cbn in H; lia|].
  assert (Hc : In c (filter (fun c => String.eqb (classify c) k) cells))
    by (rewrite E; left; reflexivity).
  apply filter_In in Hc. destruct Hc as [Hin Hk].
  exists c. split; [exact Hin | apply String.eqb_eq; exact Hk].
Qed.

Ltac two_cells :=
  match goal with
  | Ha : (0 <? List.length (filter (fun c => String.eqb (classify c) ?ka) _))
         = true,
    Hb : (0 <? List.length (filter (fun c => String.eqb (classify c) ?kb) _))
         = true |- _ =>
      let ca := fresh "ca" in let cb := fresh "cb" in
      let Ia := fresh in let Ib := fresh in
      let Ka := fresh in let Kb := fresh in
      destruct (positive_cell _ _ Ha) as [ca [Ia Ka]];
      destruct (positive_cell _ _ Hb) as [cb [Ib Kb]];
      exists ca, cb;
      split; [exact Ia|]; split; [exact Ib|];
      split; [intros ->; discriminate Ka|];
      split; [intros ->; discriminate Kb|];
      rewrite Ka, Kb; discriminate
  end.

(** The summary of a column has two entries exactly when two of its cells
    are filed under different types, none of them empty. *)
Lemma type_summary_mixed (cells : list str) :
  (1 <? List.length (type_summary cells)) = true
  <-> exists c1 c2,
        In c1 cells /\ In c2 cells /\ c1 <> [] /\ c2 <> []
        /\ classify c1 <> classify c2.
Proof.
  unfold type_summary. cbn [map filter snd]. split.
  - destruct (0 <? List.length
                     (filter (fun c => String.eqb (classify c) "numeric") cells))
      eqn:E1;
    destruct (0 <? List.length
                     (filter (fun c => String.eqb (classify c) "date") cells))
      eqn:E2;
    destruct (0 <? List.length
                     (filter (fun c => String.eqb (classify c) "boolean") cells))
      eqn:E3;
    destruct (0 <? List.length
                     (filter (fun c => String.eqb (classify c) "text") cells))
      eqn:E4;
    cbn [List.length Nat.ltb Nat.leb]; intros H; try discriminate H;
    two_cells.
  - intros [c1 [c2 [I1 [I2 [N1 [N2 Hd]]]]]].
    pose proof (count_positive _ cells c1 I1 eq_refl) as P1.
    pose proof (count_positive _ cells c2 I2 eq_refl) as P2.
    assert (V1 := classify_values c1). assert (V2 := classify_values c2).
    assert (M1 : classify c1 <> "empty"%string)
      by (intros E; apply classify_empty_iff in E; contradiction).
    assert (M2 : classify c2 <> "empty"%string)
      by (intros E; apply classify_empty_iff in E; contradiction).
    cbn [In] in V1, V2.
    destruct V1 as [V1|[V1|[V1|[V1|[V1|[]]]]]];
      try (symmetry in V1; contradiction);
    destruct V2 as [V2|[V2|[V2|[V2|[V2|[]]]]]];
      try (symmetry in V2; contradiction);
    try (exfalso; apply Hd; congruence);
    rewrite <- V1 in P1; rewrite <- V2 in P2; rewrite P1, P2;
    repeat match goal with
           | |- context [if (0 <? ?n) then _ else _] => destruct (0 <? n)
           end; reflexivity.
Qed.

Lemma check_column_types_fold (s : State) (cols : list nat) :
  forall s0,
    rows s0 = rows s -> headers s0 = headers s ->
    warnings (fold_left check_column_types cols s0)
    = warnings s0 ++ map (mixed_warning s) (filter (mixed_column s) cols)
    /\ errors (fold_left check_column_types cols s0) = errors s0.
Proof.
  induction cols as [|col cols IH]; intros s0 Hr Hh; cbn [fold_left filter map].
  - rewrite app_nil_r. split; reflexivity.
  - assert (Hstep : rows (check_column_types s0 col) = rows s
                    /\ headers (check_column_types s0 col) = headers s
                    /\ errors (check_column_types s0 col) = errors s0
                    /\ warnings (check_column_types s0 col)
                       = warnings s0
                         ++ (if mixed_column s col
                             then [mixed_warning s col] else [])).
    { unfold check_column_types, mixed_column, mixed_warning, col_name.
      rewrite Hr, Hh.
      destruct (1 <? List.length
                       (type_summary (column_cells col (tl (rows s)))));
        cbn [rows headers errors warnings add_warning set_warnings];
        rewrite ?app_nil_r; auto. }
    destruct Hstep as [Hr' [Hh' [He' Hw']]].
    destruct (IH (check_column_types s0 col) Hr' Hh') as [IHw IHe].
    rewrite IHw, IHe, Hw', He'. split; [|reflexivity].
    destruct (mixed_column s col); cbn [map app]; rewrite <- app_assoc;
      reflexivity.
Qed.

(** With at least one data row, [check_data_type_consistency] adds one
    warning for each column that is mixed, in the order of the columns, and
    nothing else; a column is mixed exactly when two of its data cells,
    stripped, are filed under different types among numeric, date, boolean
    and text.  Empty cells play no part, and the warning carries the column
    but no line. *)
Theorem mixed_columns_flagged :
  forall (s : State),
    2 <= List.length (rows s) ->
    warnings (check_data_type_consistency s)
    = warnings s
      ++ map (mixed_warning s) (filter (mixed_column s) (seq 0 (num_cols s)))
    /\ errors (check_data_type_consistency s) = errors s
    /\ forall col,
         mixed_column s col = true
         <-> exists c1 c2,
               In c1 (column_cells col (tl (rows s)))
               /\ In c2 (column_cells col (tl (rows s)))
               /\ c1 <> [] /\ c2 <> [] /\ classify c1 <> classify c2.
Proof.
  intros s Hlen. unfold check_data_type_consistency.
  apply Nat.ltb_ge in Hlen. rewrite Hlen.
  destruct (check_column_types_fold s (seq 0 (num_cols s)) s eq_refl eq_refl)
    as [Hw He].
  split; [exact Hw|]. split; [exact He|].
  intros col. apply type_summary_mixed.
Qed.

Lemma mixed_columns_flagged_witness :
  2 <= List.length (rows (parsed_state mixed_rows))
  /\ warnings (check_data_type_consistency (parsed_state mixed_rows))
     = [mixed_warning (parsed_state mixed_rows) 1].
Proof.
  assert (H : 2 <= List.length (rows (parsed_state mixed_rows)))
    by (cbn; lia).
  split; [exact H|].
  destruct (mixed_columns_flagged (parsed_state mixed_rows) H) as [Hw _].
  rewrite Hw. vm_compute. reflexivity.
Defined.

(** ** Numbers written with digits and commas *)

Lemma is_digit_tests (c : char) :
  is_digit c = true ->
  (c <? 128)%N = true /\ ascii_isspace c = false /\ is_sign c = false.
Proof.
  unfold is_digit, between. intros H.
  apply andb_true_iff in H. destruct H as [Hlo Hhi].
  apply N.leb_le in Hlo, Hhi.
  split; [apply N.ltb_lt; lia|].
  split; [unfold ascii_isspace, between, SPACE | unfold is_sign]; cmp_false.
Qed.

Lemma float_text_ascii (s : str) :
  forallb (fun c => (c <? 128)%N) s = true -> float_text s = s.
Proof. intros H. unfold float_text. rewrite H. reflexivity. Qed.

Lemma lstrip_ascii_no_space (s : str) :
  forallb (fun c => negb (ascii_isspace c)) s = true -> lstrip_ascii s = s.
Proof.
  destruct s as [|c r]; [reflexivity|].
  cbn [forallb lstrip_ascii]. intros H. apply andb_true_iff in H.
  destruct H as [H _]. apply negb_true_iff in H. rewrite H. reflexivity.
Qed.

Lemma strip_ascii_no_space (s : str) :
  forallb (fun c => negb (ascii_isspace c)) s = true -> strip_ascii s = s.
Proof.
  intros H. unfold strip_ascii.
  rewrite (lstrip_ascii_no_space s H).
  assert (Hrev : forallb (fun c => negb (ascii_isspace c)) (rev s) = true).
  { apply forallb_forall. intros c Hc. apply in_rev in Hc.
    rewrite forallb_forall in H. auto. }
  rewrite (lstrip_ascii_no_space (rev s) Hrev). apply rev_involutive.
Qed.

Lemma more_digits_all (s : str) :
  forallb is_digit s = true -> more_digits s = [].
Proof.
  induction s as [|c r IH]; [reflexivity|].
  cbn [forallb more_digits]. intros H. apply andb_true_iff in H.
  destruct H as [Hc Hr]. rewrite Hc. apply IH. exact Hr.
Qed.

(** [float] accepts a non-empty string of digits. *)
Lemma float_parses_digits (d : str) :
  d <> [] -> forallb is_digit d = true -> float_parses d = true.
Proof.
  intros Hne Hd. unfold float_parses.
  rewrite float_text_ascii, strip_ascii_no_space.
  - destruct d as [|c r]; [congruence|].
    cbn [forallb] in Hd. apply andb_true_iff in Hd. destruct Hd as [Hc Hr].
    destruct (is_digit_tests c Hc) as [_ [_ Hs]].
    cbn [drop_sign]. rewrite Hs.
    apply orb_true_iff. right.
    unfold floatnumber, digitpart. rewrite Hc, (more_digits_all r Hr).
    reflexivity.
  - apply forallb_forall. intros c Hc. rewrite forallb_forall in Hd.
    destruct (is_digit_tests c (Hd c Hc)) as [_ [H _]].
    rewrite H. reflexivity.
  - apply forallb_forall. intros c Hc. rewrite forallb_forall in Hd.
    destruct (is_digit_tests c (Hd c Hc)) as [H _]. exact H.
Qed.

(** A cell made of digits and commas, with at least one digit, is numeric
    wherever the commas stand: [_is_numeric] removes every comma before it
    tries [float]. *)
Theorem digits_and_commas_numeric :
  forall (v : str),
    remove_char COMMA v <> [] ->
    forallb is_digit (remove_char COMMA v) = true ->
    _is_numeric v = true /\ classify v = "numeric"%string.
Proof.
  intros v Hne Hd.
  assert (Hn : _is_numeric v = true)
    by (unfold _is_numeric; apply float_parses_digits; assumption).
  split; [exact Hn|].
  unfold classify. rewrite Hn.
  destruct v as [|c r]; [exfalso; apply Hne; reflexivity | reflexivity].
Qed.

Lemma digits_and_commas_numeric_witness :
  remove_char COMMA (of_string "1,2,34") = of_string "1234"
  /\ _is_numeric (of_string "1,2,34") = true
  /\ classify (of_string "1,2,34") = "numeric"%string.
Proof.
  split; [reflexivity|].
  apply (digits_and_commas_numeric (of_string "1,2,34")).
  - discriminate.
  - reflexivity.
Defined.

(** ** Repeated data rows *)

Lemma sum_init (l : list nat) : forall a, fold_left Nat.add l a = a + sum l.
Proof.
  unfold sum. induction l as [|x l IH]; intros a; cbn [fold_left]; [lia|].
  rewrite (IH (a + x)), (IH (0 + x)). lia.
Qed.

Lemma sum_cons (x : nat) (l : list nat) : sum (x :: l) = x + sum l.
Proof. unfold sum at 1. cbn [fold_left]. rewrite sum_init. lia. Qed.

Section Counts.

Context {A : Type} (eqb : A -> A -> bool).
Hypothesis eqb_spec : forall x y, eqb x y = true <-> x = y.

Lemma counter_add_total (x : A) (c : list (A * nat)) :
  sum (map snd (counter_add eqb x c)) = S (sum (map snd c))
  /\ (Forall (fun kv => 1 <= snd kv) c ->
      Forall (fun kv => 1 <= snd kv) (counter_add eqb x c)).
Proof.
  induction c as [|[y n] c [IH1 IH2]]; cbn [counter_add map snd].
  - split; [reflexivity|]. intros _. repeat constructor.
  - destruct (eqb x y); cbn [map snd]; rewrite !sum_cons.
    + split; [lia|]. intros H. inversion H; subst.
      constructor; [cbn; lia | assumption].
    + rewrite IH1. split; [lia|]. intros H. inversion H; subst.
      constructor; [assumption | auto].
Qed.

Lemma counter_fold_total (l : list A) : forall (c : list (A * nat)),
  sum (map snd (fold_left (fun c x => counter_add eqb x c) l c))
  = List.length l + sum (map snd c)
  /\ (Forall (fun kv => 1 <= snd kv) c ->
      Forall (fun kv => 1 <= snd kv)
        (fold_left (fun c x => counter_add eqb x c) l c)).
Proof.
  induction l as [|x l IH]; intros c; cbn [fold_left].
  - split; [reflexivity | auto].
  - destruct (IH (counter_add eqb x c)) as [H1 H2].
    destruct (counter_add_total x c) as [T1 T2].
    rewrite H1, T1. split; [cbn [List.length]; lia | auto].
Qed.

(** The counts of a [Counter] add up to the length of the list, and each
    is at least one. *)
Lemma Counter_total (l : list A) :
  sum (map snd (Counter eqb l)) = List.length l
  /\ Forall (fun kv => 1 <= snd kv) (Counter eqb l).
Proof.
  unfold Counter. destruct (counter_fold_total l []) as [H1 H2].
  split; [rewrite H1; cbn; lia | apply H2; constructor].
Qed.

Lemma counter_fold_keys (l : list A) : forall (c : list (A * nat)) (k : A),
  In k (map fst (fold_left (fun c x => counter_add eqb x c) l c))
  <-> In k l \/ In k (map fst c).
Proof.
  induction l as [|x l IH]; intros c k; cbn [fold_left].
  - cbn. tauto.
  - rewrite IH, (counter_add_keys eqb eqb_spec). cbn [In].
    intuition congruence.
Qed.

Lemma Counter_keys (l : list A) (k : A) :
  In k (map fst (Counter eqb l)) <-> In k l.
Proof. unfold Counter. rewrite counter_fold_keys. cbn. tauto. Qed.

(** A [Counter] has one entry for each different element. *)
Lemma Counter_length (dec : forall a b : A, {a = b} + {a <> b}) (l : list A) :
  List.length (Counter eqb l) = List.length (nodup dec l).
Proof.
  rewrite <- (length_map fst (Counter eqb l)).
  apply Nat.le_antisymm; apply NoDup_incl_length.
  - apply (Counter_nodup eqb eqb_spec).
  - intros k Hk. apply nodup_In. apply Counter_keys. exact Hk.
  - apply NoDup_nodup.
  - intros k Hk. apply Counter_keys. apply nodup_In in Hk. exact Hk.
Qed.

Lemma occ_one_nodup (l : list A) :
  (forall x, In x l -> occ eqb x l <= 1) -> NoDup l.
Proof.
  induction l as [|x l IH]; intros H; constructor.
  - intros Hin. pose proof (H x (or_introl eq_refl)) as Hx.
    rewrite occ_cons in Hx.
    assert (E : eqb x x = true) by (apply eqb_spec; reflexivity).
    rewrite E in Hx.
    apply (occ_pos_in eqb eqb_spec) in Hin. lia.
  - apply IH. intros y Hy. pose proof (H y (or_intror Hy)) as Hy'.
    rewrite occ_cons in Hy'. lia.
Qed.

Lemma no_repeated_nodup (l : list A) :
  filter (fun kv : A * nat => 1 <? snd kv) (Counter eqb l) = [] -> NoDup l.
Proof.
  intros H. apply occ_one_nodup. intros x Hx.
  pose proof (Counter_has eqb eqb_spec x l Hx) as Hin.
  destruct (1 <? occ eqb x l) eqn:E; [|apply Nat.ltb_ge in E; exact E].
  assert (Hf : In (x, occ eqb x l)
                 (filter (fun kv : A * nat => 1 <? snd kv) (Counter eqb l)))
    by (apply filter_In; split; [exact Hin | exact E]).
  rewrite H in Hf. destruct Hf.
Qed.

End Counts.

Lemma surplus_sum {A} (c : list (A * nat)) :
  Forall (fun kv => 1 <= snd kv) c ->
  sum (map (fun rc => snd rc - 1) (filter (fun rc => 1 <? snd rc) c))
  + List.length c
  = sum (map snd c).
Proof.
  induction 1 as [|[k n] c Hn _ IH]; [reflexivity|].
  cbn [filter snd map List.length] in *. rewrite sum_cons.
  destruct (Nat.ltb_spec 1 n) as [L|L]; cbn [map snd].
  - rewrite sum_cons. lia.
  - lia.
Qed.

(** With at least one data row, [check_duplicate_rows] warns exactly when a
    data row is repeated.  The first number of the warning is the number
    of data rows minus the number of different data rows, that is, how many
    rows would have to go for the rest to be all different; the second is
    the number of rows that are written more than once. *)
Theorem duplicate_rows_counted :
  forall (s : State),
    2 <= List.length (rows s) ->
    (NoDup (tl (rows s)) -> check_duplicate_rows s = s)
    /\ (~ NoDup (tl (rows s)) ->
        exists patterns,
          0 < patterns
          /\ warnings (check_duplicate_rows s)
             = warnings s
               ++ [duplicates_warning
                     (List.length (tl (rows s)) - distinct_rows (tl (rows s)))
                     patterns]
          /\ errors (check_duplicate_rows s) = errors s).
Proof.
  intros s Hlen. split; [apply check_duplicate_rows_clean|].
  intros Hdup. unfold check_duplicate_rows.
  apply Nat.ltb_ge in Hlen. rewrite Hlen. cbv zeta.
  set (data := tl (rows s)) in *.
  set (dups := filter (fun rc : list str * nat => 1 <? snd rc)
                 (Counter row_eqb data)).
  destruct dups as [|d dups'] eqn:E.
  - exfalso. apply Hdup.
    apply (no_repeated_nodup row_eqb row_eqb_spec data). exact E.
  - cbn [is_empty]. exists (List.length (d :: dups')).
    split; [cbn; lia|]. split; [|reflexivity].
    cbn [warnings add_warning set_warnings].
    destruct (Counter_total row_eqb data) as [Htot Hpos].
    pose proof (surplus_sum (Counter row_eqb data) Hpos) as Hs.
    fold dups in Hs. rewrite E in Hs. rewrite Htot in Hs.
    unfold distinct_rows, duplicates_warning.
    rewrite <- (Counter_length row_eqb row_eqb_spec row_eq_dec data).
    replace (List.length data - List.length (Counter row_eqb data))
      with (sum (map (fun rc : list str * nat => snd rc - 1) (d :: dups')))
      by lia.
    reflexivity.
Qed.

Lemma duplicate_rows_counted_witness :
  2 <= List.length (rows (parsed_state repeated_rows))
  /\ List.length (tl repeated_rows) - distinct_rows (tl repeated_rows) = 2
  /\ warnings (check_duplicate_rows (parsed_state repeated_rows))
     = [duplicates_warning 2 1].
Proof.
  assert (H : 2 <= List.length (rows (parsed_state repeated_rows)))
    by (cbn; lia).
  split; [exact H|]. split; [vm_compute; reflexivity|].
  destruct (duplicate_rows_counted (parsed_state repeated_rows) H) as [_ Hd].
  destruct Hd as [patterns [_ [Hw _]]].
  - intros Hn. cbn in Hn.
    inversion Hn as [|? ? Hnot _]; subst. apply Hnot.
    right. right. left. reflexivity.
  - vm_compute. reflexivity.
Defined.

(** ** Rows with the wrong number of columns *)

Section Grouping.

Context {K V : Type} (eqb : K -> K -> bool).
Hypothesis eqb_spec : forall x y, eqb x y = true <-> x = y.

Lemma eqb_false_neq (x y : K) : x <> y -> eqb x y = false.
Proof.
  intros H. destruct (eqb x y) eqn:E; [|reflexivity].
  apply eqb_spec in E. contradiction.
Qed.

(** One step of the grouping, on a dict that files the values of each key
    by [f]. *)
Lemma group_add_step (k : K) (v : V) (f f' : K -> list V)
  (c : list (K * nat)) :
  NoDup (map fst c) ->
  (~ In k (map fst c) -> f k = []) ->
  (forall k', f' k' = f k' ++ (if eqb k k' then [v] else [])) ->
  group_add eqb k v (map (fun k' => (k', f k')) (map fst c))
  = map (fun k' => (k', f' k')) (map fst (counter_add eqb k c)).
Proof.
  intros Hnd Hnew Hf'.
  induction c as [|[y n] c IH]; cbn [map fst group_add counter_add].
  - rewrite Hf', Hnew by (intros []).
    assert (E : eqb k k = true) by (apply eqb_spec; reflexivity).
    rewrite E. reflexivity.
  - cbn [map fst] in Hnd. inversion Hnd as [|? ? Hy Hnd']; subst.
    destruct (eqb k y) eqn:E; cbn [map fst].
    + apply eqb_spec in E. subst y. f_equal.
      * rewrite Hf'.
        assert (E : eqb k k = true) by (apply eqb_spec; reflexivity).
        rewrite E. reflexivity.
      * apply map_ext_in. intros k' Hk'. rewrite Hf'.
        rewrite eqb_false_neq; [rewrite app_nil_r; reflexivity|].
        intros ->. contradiction.
    + f_equal.
      * rewrite Hf', E, app_nil_r. reflexivity.
      * apply IH; [exact Hnd'|].
        intros Hk. apply Hnew. cbn [map fst In]. intros [Hy'|Hin].
        -- subst y. assert (E' : eqb k k = true)
             by (apply eqb_spec; reflexivity). congruence.
        -- contradiction.
Qed.

Lemma filed_under_absent (k : K) (items : list (V * K)) :
  ~ In k (map snd items) -> filed_under eqb k items = [].
Proof.
  intros H. unfold filed_under. rewrite filter_none; [reflexivity|].
  intros it Hit. apply eqb_false_neq. intros E. apply H.
  rewrite <- E. apply in_map. exact Hit.
Qed.

(** Grouping the items by their key gives one entry for each key, in the
    order of first occurrence, with the values of that key in order. *)
Lemma group_by (items : list (V * K)) :
  fold_left (fun d (item : V * K) => group_add eqb (snd item) (fst item) d)
    items []
  = map (fun k => (k, filed_under eqb k items))
      (map fst (Counter eqb (map snd items))).
Proof.
  induction items as [|[v k] items IH] using rev_ind; [reflexivity|].
  rewrite fold_left_app. cbn [fold_left fst snd]. rewrite IH.
  rewrite map_app. cbn [map snd]. unfold Counter at 2.
  rewrite fold_left_app. cbn [fold_left]. fold (Counter eqb (map snd items)).
  apply group_add_step.
  - apply (Counter_nodup eqb eqb_spec).
  - intros Hk. apply filed_under_absent. intros Hin. apply Hk.
    apply (Counter_keys eqb eqb_spec). exact Hin.
  - intros k'. unfold filed_under. rewrite filter_app, map_app.
    cbn [filter snd]. destruct (eqb k k'); reflexivity.
Qed.

End Grouping.

Lemma Counter_not_nil {A} (eqb : A -> A -> bool) (x : A) (l : list A) :
  (forall x y, eqb x y = true <-> x = y) -> Counter eqb (x :: l) <> [].
Proof.
  intros Hspec E.
  pose proof (Counter_has eqb Hspec x (x :: l) (or_introl eq_refl)) as H.
  rewrite E in H. destruct H.
Qed.

(** Without a majority of rows of another width, the width of the header is
    the expected one and no metadata is assumed. *)
Lemma resolve_expected_header (s : State) :
  headers s <> [] ->
  (forall m, majority_count (rows s) m -> m = List.length (headers s)) ->
  resolve_expected s = (List.length (headers s), set_metadata false 0 s).
Proof.
  intros Hh Hmaj. unfold resolve_expected.
  apply is_empty_false in Hh. rewrite Hh. cbn [negb].
  set (l := map (@List.length str) (rows s)).
  destruct (most_common_1 (Counter Nat.eqb l)) as [[mcc freq]|] eqn:E.
  - rewrite Qltb_half.
    destruct (Nat.ltb_spec (List.length (rows s)) (2 * freq)) as [L|L];
      [|reflexivity].
    assert (Hin : In (mcc, freq) (Counter Nat.eqb l)).
    { destruct (Counter Nat.eqb l) as [|kv c] eqn:Ec; [discriminate E|].
      destruct (most_common_1_max (c := kv :: c)) as [r [Hr [Hin _]]];
        [discriminate|].
      rewrite E in Hr. injection Hr as <-. exact Hin. }
    apply (Counter_entry Nat.eqb Nat.eqb_eq) in Hin.
    assert (Hm : mcc = List.length (headers s)).
    { apply Hmaj. unfold majority_count. fold l. rewrite <- Hin. exact L. }
    rewrite Hm, Nat.eqb_refl. reflexivity.
  - rewrite Qltb_half. cbn [Nat.mul Nat.add Nat.ltb Nat.leb andb].
    reflexivity.
Qed.

Lemma found_counts (C : nat) (rws : list (list str)) : forall i,
  map snd
    (map (fun p : nat * list str => (fst p, List.length (snd p)))
       (filter (fun p : nat * list str => negb (List.length (snd p) =? C))
          (enumerate i rws)))
  = filter (fun n => negb (n =? C)) (map (@List.length str) rws).
Proof.
  induction rws as [|r rws IH]; intros i; [reflexivity|].
  cbn [enumerate filter map snd].
  destruct (negb (List.length r =? C)); cbn [map snd fst]; rewrite IH;
    reflexivity.
Qed.

Lemma filed_lines (n C : nat) (rws : list (list str)) : forall i,
  n <> C ->
  filed_under Nat.eqb n
    (map (fun p : nat * list str => (fst p, List.length (snd p)))
       (filter (fun p : nat * list str => negb (List.length (snd p) =? C))
          (enumerate i rws)))
  = map fst
      (filter (fun p : nat * list str => List.length (snd p) =? n)
         (enumerate i rws)).
Proof.
  unfold filed_under.
  induction rws as [|r rws IH]; intros i Hn; [reflexivity|].
  cbn [enumerate filter snd].
  destruct (Nat.eqb_spec (List.length r) C) as [E|E]; cbn [negb].
  - destruct (Nat.eqb_spec (List.length r) n) as [E'|E']; [congruence|].
    apply IH. exact Hn.
  - cbn [map filter snd fst].
    destruct (List.length r =? n); cbn [map fst]; rewrite IH by exact Hn;
      reflexivity.
Qed.

Lemma structure_errors_list (expected : nat) (groups : list (nat * list nat)) :
  forall s,
    errors (fold_left (fun s g => structure_error expected g s) groups s)
    = errors s
      ++ map (fun g => columns_error (fst g) expected (snd g)) groups
    /\ warnings (fold_left (fun s g => structure_error expected g s) groups s)
       = warnings s
    /\ headers (fold_left (fun s g => structure_error expected g s) groups s)
       = headers s.
Proof.
  induction groups as [|[n lns] groups IH]; intros s; cbn [fold_left map].
  - rewrite app_nil_r. repeat split.
  - destruct (IH (structure_error expected (n, lns) s)) as [He [Hw Hh]].
    rewrite He, Hw, Hh. unfold structure_error.
    cbn [errors warnings headers add_error set_errors fst snd].
    rewrite <- app_assoc. repeat split.
Qed.

(** When no width other than that of the header is the width of more than
    half of the rows, [check_column_consistency] expects the width of the
    header.  It then records one structure error for each other width that
    occurs, in the order of the first rows that have them; the error lists
    the lines of all the rows of that width (the first 20 in the message,
    their number as [count]).  It adds no warning and keeps the header. *)
Theorem wrong_widths_grouped :
  forall (s : State),
    headers s <> [] ->
    (forall m, majority_count (rows s) m -> m = List.length (headers s)) ->
    errors (check_column_consistency s)
    = errors s
      ++ map (fun n => columns_error n (List.length (headers s))
                         (lines_with n (rows s)))
           (wrong_counts (List.length (headers s)) (rows s))
    /\ warnings (check_column_consistency s) = warnings s
    /\ headers (check_column_consistency s) = headers s.
Proof.
  intros s Hh Hmaj.
  pose proof (resolve_expected_header s Hh Hmaj) as Hres.
  unfold check_column_consistency.
  destruct (is_empty (rows s)) eqn:Hemp.
  - apply is_empty_true in Hemp. unfold wrong_counts. rewrite Hemp.
    cbn. rewrite app_nil_r. repeat split.
  - rewrite Hres.
    set (C := List.length (headers s)).
    destruct (structure_errors_list C
                (by_count (inconsistent_rows C (set_metadata false 0 s)))
                (set_metadata false 0 s)) as [He [Hw Hhd]].
    rewrite He, Hw, Hhd. split; [|split; reflexivity].
    cbn [errors set_metadata]. f_equal.
    unfold by_count, inconsistent_rows.
    cbn [metadata_rows_detected set_metadata andb negb rows].
    rewrite (group_by Nat.eqb Nat.eqb_eq), found_counts, map_map.
    unfold wrong_counts.
    apply map_ext_in. intros n Hn. cbn [fst snd]. f_equal.
    unfold lines_with. apply filed_lines.
    apply (proj1 (Counter_keys Nat.eqb Nat.eqb_eq _ n)) in Hn.
    apply filter_In in Hn. destruct Hn as [_ Hn].
    apply negb_true_iff, Nat.eqb_neq in Hn. exact Hn.
Qed.

Lemma wrong_widths_grouped_witness :
  headers (parsed_state uneven_rows) <> []
  /\ errors (check_column_consistency (parsed_state uneven_rows))
     = [columns_error 2 3 [2; 5]; columns_error 4 3 [4]].
Proof.
  assert (Hh : headers (parsed_state uneven_rows) <> []) by discriminate.
  assert (Hmaj : forall m,
             majority_count (rows (parsed_state uneven_rows)) m ->
             m = List.length (headers (parsed_state uneven_rows))).
  { intros m H. unfold majority_count, occ in H. cbn in H.
    destruct (Nat.eqb_spec m 3) as [E3|E3]; [exact E3|].
    destruct (Nat.eqb_spec m 2) as [E2|E2];
      destruct (Nat.eqb_spec m 4) as [E4|E4]; cbn in H; lia. }
  split; [exact Hh|].
  destruct (wrong_widths_grouped (parsed_state uneven_rows) Hh Hmaj)
    as [He _].
  rewrite He. vm_compute. reflexivity.
Defined.

(** ** A blank first line *)

(** A line that is only a line feed is a record without fields, whatever
    the dialect. *)
Lemma records_blank_line (d : Csv.Dialect) (ls : list str) :
  Csv.records d Csv.parse_reset ([LF] :: ls)
  = ([] :: fst (Csv.records d Csv.parse_reset ls),
     snd (Csv.records d Csv.parse_reset ls)).
Proof.
  cbn [Csv.records]. unfold Csv.feed_line. cbn [Csv.feed].
  unfold Csv.parse_process_char at 2. cbn [Csv.state Csv.parse_reset].
  change (Csv.is_newline LF) with true. cbv iota.
  unfold Csv.parse_process_char.
  cbn [Csv.state Csv.set_state Csv.state_eqb Csv.fields Csv.field].
  destruct (Csv.records d Csv.parse_reset ls) as [rws e]. reflexivity.
Qed.

Lemma parse_csv_blank_first (s : State) (rest : str) :
  raw_content s = LF :: rest -> rows s = [] ->
  headers (parse_csv s) = []
  /\ hd [] (rows (parse_csv s)) = []
  /\ rows (parse_csv s) <> [].
Proof.
  intros Hraw Hrows. unfold parse_csv, Csv.reader. rewrite Hraw, Hrows.
  change (io_lines (LF :: rest)) with ([LF] :: io_lines rest).
  rewrite records_blank_line.
  destruct (Csv.records (the_dialect s) Csv.parse_reset (io_lines rest))
    as [rws e].
  cbn [fst snd app]. destruct e; repeat split; discriminate.
Qed.

(** When the decoded text of a usable file starts with a line feed, the
    reader yields a first record without fields, which becomes the header:
    the report has the error "No headers found (file may be empty)" and is
    not valid, whatever follows the blank line. *)
Theorem leading_blank_line :
  forall (sniff : str -> option Csv.Dialect) (f : File) (path : str)
         (content : Codec.bytes) (e : Codec.Encoding) (rest : str),
    usable f = true -> data f = Some content ->
    first_decoding (encodings_for content) content = Some (e, LF :: rest) ->
    In no_headers_error (report_errors (validate sniff f path))
    /\ valid (validate sniff f path) = false
    /\ hd [] (rows (final_state sniff f path)) = [].
Proof.
  intros sniff f path content e rest Hu Hd Hfirst.
  unfold validate.
  rewrite (usable_final_state sniff f path content e (LF :: rest) Hu Hd Hfirst).
  rewrite run_checks_unfold.
  destruct (before_detect e (LF :: rest) path) as [Hr4 [Ht4 [Hi4 Hw4]]].
  set (s4 := check_empty_file _) in *.
  destruct (detect_dialect_sets sniff s4 Hi4 Hw4)
    as [d [_ [_ [_ [Hr5 Ht5]]]]].
  set (s5 := detect_dialect sniff s4) in *.
  rewrite Ht4 in Ht5. rewrite Hr4 in Hr5.
  destruct (parse_csv_blank_first s5 rest Ht5 Hr5) as [Hh6 [Hhd6 Hne6]].
  set (s6 := parse_csv s5) in *.
  assert (E7 : errors (check_header_issues s6) = errors s6 ++ [no_headers_error]).
  { unfold check_header_issues. rewrite Hh6. reflexivity. }
  set (s7 := check_header_issues s6) in *.
  assert (Hkeep : exists E, errors (content_checks (check_column_consistency s7))
                            = errors s7 ++ E).
  { destruct (check_column_consistency_adds s7) as [[E1 [HE1 _]] _].
    pose proof (content_checks_adds (check_column_consistency s7)) as Hc.
    apply adds_only_errors in Hc. rewrite Hc, HE1. exists E1. reflexivity. }
  destruct Hkeep as [E HE].
  assert (Hin : In no_headers_error
                  (errors (content_checks (check_column_consistency s7)))).
  { rewrite HE, E7. apply in_or_app. left. apply in_or_app. right.
    left. reflexivity. }
  cbn [report_errors valid get_results]. split; [exact Hin|]. split.
  - destruct (errors (content_checks (check_column_consistency s7)));
      [destruct Hin | reflexivity].
  - destruct (same_table_after_parse s6) as [Hr7 _]. fold s7 in Hr7.
    rewrite Hr7. exact Hhd6.
Qed.

Lemma leading_blank_line_witness :
  first_decoding (encodings_for (encode_latin1 (LF :: ragged_text)))
    (encode_latin1 (LF :: ragged_text))
  = Some (Codec.UTF_8, LF :: ragged_text)
  /\ In no_headers_error
       (report_errors
          (validate no_sniff (text_file (LF :: ragged_text)) some_path))
  /\ valid (validate no_sniff (text_file (LF :: ragged_text)) some_path)
     = false.
Proof.
  assert (H : first_decoding (encodings_for (encode_latin1 (LF :: ragged_text)))
                (encode_latin1 (LF :: ragged_text))
              = Some (Codec.UTF_8, LF :: ragged_text))
    by (vm_compute; reflexivity).
  split; [exact H|].
  destruct (leading_blank_line no_sniff (text_file (LF :: ragged_text))
              some_path (encode_latin1 (LF :: ragged_text)) Codec.UTF_8
              ragged_text eq_refl eq_refl H) as [H1 [H2 _]].
  split; [exact H1 | exact H2].
Defined.

(** ** The field size limit of the reader *)

Lemma field_limit_positive : 1 <= N.to_nat Csv.field_limit.
Proof. apply Nat.leb_le. vm_compute. reflexivity. Qed.

(** Inside a field that is at most at the limit, ordinary characters that
    take it beyond the limit raise [csv.Error]. *)
Lemma feed_over_limit (D : char) (g : str) : forall (pre : str)
  (fs : list str) (rest : str),
  Forall (ordinary D) g ->
  List.length pre <= N.to_nat Csv.field_limit ->
  N.to_nat Csv.field_limit < List.length pre + List.length g ->
  Csv.feed (Csv.excel D)
    {| Csv.state := Csv.IN_FIELD; Csv.field := pre; Csv.fields := fs |}
    (g ++ rest)
  = inr Csv.FieldLimit.
Proof.
  induction g as [|c g IH]; intros pre fs rest Hg Hpre Hlen.
  - cbn [List.length] in Hlen. lia.
  - inversion Hg as [|? ? Hc Hg']; subst.
    destruct (ordinary_tests D c Hc) as [Hn [_ Hd]].
    cbn [app Csv.feed]. unfold Csv.parse_process_char.
    cbn [Csv.state Csv.excel Csv.delimiter]. rewrite Hn, Hd.
    unfold Csv.parse_add_char. cbn [Csv.field Csv.state Csv.fields].
    destruct (N.leb_spec Csv.field_limit (N.of_nat (List.length pre)))
      as [L|L]; [reflexivity|].
    apply IH; [exact Hg'| |].
    + rewrite length_app. cbn [List.length]. lia.
    + rewrite length_app. cbn [List.length] in *. lia.
Qed.

Lemma feed_long_field (D : char) (f rest : str) :
  Forall (ordinary D) f ->
  N.to_nat Csv.field_limit < List.length f ->
  Csv.feed (Csv.excel D) Csv.parse_reset (f ++ rest) = inr Csv.FieldLimit.
Proof.
  intros Hf Hlen.
  destruct f as [|c g]; [exfalso; exact (Nat.nlt_0_r _ Hlen)|].
  inversion Hf as [|? ? Hc Hg]; subst.
  destruct (ordinary_tests D c Hc) as [Hn [Hq Hd]].
  cbn [app Csv.feed]. unfold Csv.parse_process_char at 1.
  cbn [Csv.state Csv.parse_reset]. rewrite Hn.
  unfold Csv.start_field. rewrite Hn.
  cbn [Csv.excel Csv.quotechar Csv.skipinitialspace Csv.delimiter].
  rewrite Hq, Hd, andb_false_r.
  unfold Csv.parse_add_char.
  cbn [Csv.field Csv.set_state Csv.state Csv.fields List.length app].
  change (Csv.field_limit <=? N.of_nat 0)%N with false. cbv iota.
  cbn [Csv.set_state Csv.state Csv.field Csv.fields].
  apply feed_over_limit; [exact Hg| |].
  - cbn [Csv.field Csv.parse_reset app List.length].
    exact field_limit_positive.
  - cbn [Csv.field Csv.parse_reset app List.length Nat.add] in *.
    exact Hlen.
Qed.

(** A first field of more than 131072 characters (none of them a quote,
    the delimiter or a line break) is beyond the field size limit of
    [csv.reader]: [parse_csv] records the error under [parsing] and parses
    no row, so that [check_field_length], whose threshold is 10000, never
    sees such a field. *)
Theorem field_beyond_limit :
  forall (D : char) (f rest : str) (s : State),
    detected_dialect s = Some (Csv.excel D) ->
    raw_content s = f ++ rest ->
    Forall (ordinary D) f ->
    N.to_nat Csv.field_limit < List.length f ->
    errors (parse_csv s) = errors s ++ [parsing_error Csv.FieldLimit]
    /\ rows (parse_csv s) = rows s
    /\ headers (parse_csv s) = headers s.
Proof.
  intros D f rest s Hd Hraw Hf Hlen.
  assert (Hne : f <> []) by (intros ->; exact (Nat.nlt_0_r _ Hlen)).
  assert (Hlf : ~ In LF f).
  { intros Hin. rewrite Forall_forall in Hf. destruct (Hf LF Hin) as [H _].
    apply H. reflexivity. }
  unfold parse_csv, the_dialect, Csv.reader. rewrite Hd, Hraw.
  destruct (io_lines_first f rest Hlf Hne) as [t [ls E]]. rewrite E.
  cbn [Csv.records]. unfold Csv.feed_line.
  rewrite (feed_long_field D f t Hf Hlen).
  cbn [errors rows headers add_error set_errors set_rows].
  rewrite app_nil_r. repeat split.
Qed.

Lemma field_beyond_limit_witness :
  Forall (ordinary COMMA) long_field
  /\ N.to_nat Csv.field_limit < List.length long_field
  /\ errors (parse_csv (detected_state COMMA (long_field ++ [LF])))
     = [parsing_error Csv.FieldLimit].
Proof.
  assert (H1 : Forall (ordinary COMMA) long_field).
  { apply Forall_forall. intros c Hc. apply repeat_spec in Hc. subst c.
    repeat split; discriminate. }
  assert (H2 : N.to_nat Csv.field_limit < List.length long_field).
  { unfold long_field. rewrite repeat_length. apply Nat.lt_succ_diag_r. }
  split; [exact H1|]. split; [exact H2|].
  exact (proj1 (field_beyond_limit COMMA long_field [LF]
                  (detected_state COMMA (long_field ++ [LF]))
                  eq_refl eq_refl H1 H2)).
Defined.

(** ** Columns with missing values *)

Lemma Qltb_rate (c t : nat) :
  0 < t -> Qltb (1 # 2) (Qnat c / Qnat t) = (t <? 2 * c).
Proof.
  intros Ht. destruct t as [|t']; [lia|].
  unfold Qltb, Qle_bool, Qdiv, Qmult, Qinv, Qnat, inject_Z.
  cbn [Qnum Qden Z.of_nat].
  destruct (Nat.ltb_spec (S t') (2 * c));
    [apply negb_true_iff | apply negb_false_iff].
  - apply Z.leb_gt. lia.
  - apply Z.leb_le. lia.
Qed.

Lemma missing_step_count (col : nat) (n : nat) (reps : list str)
  (row : list str) :
  exists reps',
    missing_step col (n, reps) row
    = (n + (if missing_cell col row then 1 else 0), reps').
Proof.
  unfold missing_step, missing_cell.
  destruct (nth_error row col) as [c|].
  - cbv zeta. destruct (str_in (strip c) null_representations);
      eexists; [reflexivity|]. rewrite Nat.add_0_r. reflexivity.
  - eexists. reflexivity.
Qed.

Lemma missing_fold (col : nat) (data : list (list str)) :
  forall (n : nat) (reps : list str),
    fst (fold_left (missing_step col) data (n, reps))
    = n + missing_in col data.
Proof.
  unfold missing_in.
  induction data as [|row data IH]; intros n reps; cbn [fold_left filter].
  - cbn. lia.
  - destruct (missing_step_count col n reps row) as [reps' E]. rewrite E, IH.
    destruct (missing_cell col row); cbn [List.length]; lia.
Qed.

(** The missing count of a column is the number of data rows that are too
    short for it or hold a null representation in it. *)
Lemma column_missing_count (col : nat) (data : list (list str)) :
  fst (column_missing col data) = missing_in col data.
Proof. unfold column_missing. rewrite missing_fold. reflexivity. Qed.

Lemma dict_set_new {V} (k : str) (v : V) (d : list (str * V)) :
  ~ In k (map fst d) -> dict_set str_eqb k v d = d ++ [(k, v)].
Proof.
  induction d as [|[k0 v0] d IH]; intros H; [reflexivity|].
  cbn [dict_set]. destruct (str_eqb k k0) eqn:E.
  - apply str_eqb_spec in E. exfalso. apply H. left. symmetry. exact E.
  - cbn [app]. f_equal. apply IH. intros Hin. apply H. right. exact Hin.
Qed.

Lemma filter_of_map {A B} (p : B -> bool) (g : A -> B) (l : list A) :
  filter p (map g l) = map g (filter (fun x => p (g x)) l).
Proof.
  induction l as [|x l IH]; [reflexivity|].
  cbn [map filter]. destruct (p (g x)); cbn [map]; rewrite IH; reflexivity.
Qed.

Lemma filter_twice {A} (p q : A -> bool) (l : list A) :
  (forall x, p x = true -> q x = true) ->
  filter p (filter q l) = filter p l.
Proof.
  intros H. induction l as [|x l IH]; [reflexivity|].
  cbn [filter]. destruct (q x) eqn:Eq; cbn [filter].
  - rewrite IH. reflexivity.
  - destruct (p x) eqn:Ep; [|exact IH].
    rewrite (H x Ep) in Eq. discriminate Eq.
Qed.

(** With different names for the columns, [missing_by_col] has one entry
    for each column that misses a value, in the order of the columns. *)
Lemma missing_by_col_fold (s : State) (cols : list nat) :
  forall (d : list (str * (nat * list str))),
    NoDup (map (col_name s) cols) ->
    (forall col, In col cols -> ~ In (col_name s col) (map fst d)) ->
    fold_left
      (fun (d : list (str * (nat * list str))) col_idx =>
         let info := column_missing col_idx (tl (rows s)) in
         if 0 <? fst info then dict_set str_eqb (col_name s col_idx) info d
         else d)
      cols d
    = d ++ map (fun col => (col_name s col, column_missing col (tl (rows s))))
             (filter (fun col => 0 <? missing_in col (tl (rows s))) cols).
Proof.
  induction cols as [|col cols IH]; intros d Hnd Hfresh;
    cbn [fold_left filter map].
  - rewrite app_nil_r. reflexivity.
  - cbn [map] in Hnd. inversion Hnd as [|? ? Hnot Hnd']; subst.
    cbv zeta. rewrite column_missing_count.
    destruct (0 <? missing_in col (tl (rows s))).
    + rewrite dict_set_new by (apply Hfresh; left; reflexivity).
      rewrite IH; [cbn [map]; rewrite <- app_assoc; reflexivity|exact Hnd'|].
      intros col' Hcol'. rewrite map_app. cbn [map fst]. intros Hin.
      apply in_app_or in Hin. destruct Hin as [Hin|[Hin|[]]].
      * apply (Hfresh col' (or_intror Hcol')). exact Hin.
      * apply Hnot. rewrite Hin. apply in_map. exact Hcol'.
    + apply IH; [exact Hnd'|].
      intros col' Hcol'. apply Hfresh. right. exact Hcol'.
Qed.

Lemma high_missing_fold (total : nat) (d : list (str * (nat * list str))) :
  forall s,
    warnings (fold_left (high_missing_rate total) d s)
    = warnings s
      ++ map (fun kv => missing_rate_warning (fst kv) (fst (snd kv)) total)
           (filter (fun kv : str * (nat * list str) =>
                      (0 <? total)
                      && Qltb (1 # 2) (Qnat (fst (snd kv)) / Qnat total))
              d)
    /\ errors (fold_left (high_missing_rate total) d s) = errors s.
Proof.
  induction d as [|kv d IH]; intros s; cbn [fold_left filter map].
  - rewrite app_nil_r. split; reflexivity.
  - destruct (IH (high_missing_rate total s kv)) as [Hw He].
    rewrite Hw, He. unfold high_missing_rate.
    destruct (0 <? total); cbn [andb];
      [|rewrite ?app_nil_r; split; reflexivity].
    destruct (Qltb (1 # 2) (Qnat (fst (snd kv)) / Qnat total));
      cbn [warnings errors add_warning set_warnings map];
      [rewrite <- app_assoc|]; split; reflexivity.
Qed.

(** With at least one data row and different names for the columns,
    [check_missing_values] adds, after at most one warning about
    inconsistent null representations, one warning for each column in which
    more than half of the data rows have no value, in the order of the
    columns, with the number of such rows; a row has no value in a column
    when it is too short for it or its cell, stripped, is a null
    representation.  No other column is reported, and no error is added. *)
Theorem missing_columns_reported :
  forall (s : State),
    2 <= List.length (rows s) ->
    NoDup (map (col_name s) (seq 0 (num_cols s))) ->
    exists W,
      (W = [] \/ exists reps cols, W = [representations_warning reps cols])
      /\ warnings (check_missing_values s)
         = warnings s ++ W
           ++ map (fun col =>
                     missing_rate_warning (col_name s col)
                       (missing_in col (tl (rows s)))
                       (List.length (rows s) - 1))
                (filter (fun col =>
                           List.length (rows s) - 1
                           <? 2 * missing_in col (tl (rows s)))
                   (seq 0 (num_cols s)))
      /\ errors (check_missing_values s) = errors s.
Proof.
  intros s Hlen Hnd. unfold check_missing_values.
  pose proof Hlen as Hlen'. apply Nat.ltb_ge in Hlen'. rewrite Hlen'.
  set (data := tl (rows s)). set (total := List.length (rows s) - 1).
  assert (Htotal : 0 < total) by (subst total; lia).
  assert (Hd : missing_by_col s
               = map (fun col => (col_name s col, column_missing col data))
                   (filter (fun col => 0 <? missing_in col data)
                      (seq 0 (num_cols s)))).
  { exact (missing_by_col_fold s (seq 0 (num_cols s)) [] Hnd
             (fun col _ H => H)). }
  assert (Hhigh : forall d0,
             d0 = missing_by_col s ->
             map (fun kv : str * (nat * list str) =>
                    missing_rate_warning (fst kv) (fst (snd kv)) total)
               (filter (fun kv : str * (nat * list str) =>
                          (0 <? total)
                          && Qltb (1 # 2) (Qnat (fst (snd kv)) / Qnat total))
                  d0)
             = map (fun col =>
                      missing_rate_warning (col_name s col)
                        (missing_in col data) total)
                 (filter (fun col => total <? 2 * missing_in col data)
                    (seq 0 (num_cols s)))).
  { intros d0 ->. rewrite Hd, filter_of_map, map_map. cbn [fst snd].
    rewrite (filter_ext
               (fun col =>
                  (0 <? total)
                  && Qltb (1 # 2)
                       (Qnat (fst (column_missing col data)) / Qnat total))
               (fun col => total <? 2 * missing_in col data)).
    - rewrite filter_twice.
      + apply map_ext. intros col. rewrite column_missing_count. reflexivity.
      + intros col H. apply Nat.ltb_lt in H. apply Nat.ltb_lt. lia.
    - intros col. rewrite column_missing_count, (Qltb_rate _ _ Htotal).
      apply Nat.ltb_lt in Htotal. rewrite Htotal. reflexivity. }
  destruct (missing_by_col s) as [|kv d] eqn:Ed.
  - cbn [is_empty]. exists []. split; [left; reflexivity|].
    rewrite <- (Hhigh [] eq_refl). cbn. rewrite app_nil_r.
    split; reflexivity.
  - cbn [is_empty].
    set (s1 := if 1 <? List.length (all_representations (kv :: d))
               then add_warning "missing_values"
                      [Lit "Inconsistent null value representations used: ";
                       Val (VStrs (all_representations (kv :: d)))]
                      None None
                      [("columns"%string, [Val (VStrs (map fst (kv :: d)))])] s
               else s).
    destruct (high_missing_fold (List.length (rows s1) - 1) (kv :: d) s1)
      as [Hw He].
    assert (Hr1 : rows s1 = rows s)
      by (subst s1; destruct (1 <? _); reflexivity).
    rewrite Hr1 in Hw, He. fold total in Hw, He.
    rewrite (Hhigh (kv :: d) eq_refl) in Hw.
    exists (if 1 <? List.length (all_representations (kv :: d))
            then [representations_warning (all_representations (kv :: d))
                    (map fst (kv :: d))]
            else []).
    split; [destruct (1 <? _); [right; eauto | left; reflexivity]|].
    rewrite Hr1. fold total. rewrite Hw, He. subst s1.
    destruct (1 <? List.length (all_representations (kv :: d)));
      cbn [warnings errors add_warning set_warnings];
      rewrite <- ?app_assoc; split; reflexivity.
Qed.

Lemma missing_columns_reported_witness :
  2 <= List.length (rows (parsed_state sparse_rows))
  /\ NoDup (map (col_name (parsed_state sparse_rows))
              (seq 0 (num_cols (parsed_state sparse_rows))))
  /\ exists W,
      (W = [] \/ exists reps cols, W = [representations_warning reps cols])
      /\ warnings (check_missing_values (parsed_state sparse_rows))
         = warnings (parsed_state sparse_rows) ++ W
           ++ map (fun col =>
                     missing_rate_warning
                       (col_name (parsed_state sparse_rows) col)
                       (missing_in col (tl (rows (parsed_state sparse_rows))))
                       (List.length (rows (parsed_state sparse_rows)) - 1))
                (filter (fun col =>
                           List.length (rows (parsed_state sparse_rows)) - 1
                           <? 2 * missing_in col
                                  (tl (rows (parsed_state sparse_rows))))
                   (seq 0 (num_cols (parsed_state sparse_rows))))
      /\ errors (check_missing_values (parsed_state sparse_rows))
         = errors (parsed_state sparse_rows).
Proof.
  assert (H1 : 2 <= List.length (rows (parsed_state sparse_rows)))
    by (cbn; lia).
  assert (H2 : NoDup (map (col_name (parsed_state sparse_rows))
                        (seq 0 (num_cols (parsed_state sparse_rows))))).
  { vm_compute. constructor; [intros [E|[]]; discriminate E|].
    constructor; [intros []|constructor]. }
  split; [exact H1|]. split; [exact H2|].
  exact (missing_columns_reported (parsed_state sparse_rows) H1 H2).
Defined.

(** ** Cells with leading or trailing whitespace *)

Lemma lstrip_length (c : str) : List.length (lstrip c) <= List.length c.
Proof.
  induction c as [|x c IH]; [apply Nat.le_refl|].
  cbn [lstrip]. destruct (isspace x); cbn [List.length]; lia.
Qed.

Lemma str_eqb_eq (a b : str) : str_eqb a b = true <-> a = b.
Proof.
  unfold str_eqb. revert b.
  induction a as [|x a IH]; intros [|y b]; cbn [eqb_list];
    try (split; [discriminate | discriminate]);
    [split; reflexivity|].
  rewrite Bool.andb_true_iff, N.eqb_eq, IH.
  split; [intros [-> ->]; reflexivity | intros E; inversion E; split; reflexivity].
Qed.

Lemma differs_from_lstrip (cell : str) :
  negb (str_eqb cell (lstrip cell)) = starts_blank cell.
Proof.
  destruct cell as [|c r]; [reflexivity|].
  cbn [lstrip starts_blank]. destruct (isspace c) eqn:Ec.
  - destruct (str_eqb (c :: r) (lstrip r)) eqn:E; [|reflexivity].
    apply str_eqb_eq in E. pose proof (lstrip_length r) as H.
    rewrite <- E in H. cbn [List.length] in H. lia.
  - rewrite (proj2 (str_eqb_eq (c :: r) (c :: r)) eq_refl). reflexivity.
Qed.

Lemma differs_from_rstrip (cell : str) :
  negb (str_eqb cell (rstrip cell)) = ends_blank cell.
Proof.
  unfold ends_blank, rstrip. rewrite <- differs_from_lstrip. f_equal.
  destruct (str_eqb cell (rev (lstrip (rev cell)))) eqn:E.
  - apply str_eqb_eq in E. symmetry. apply str_eqb_eq.
    rewrite E at 1. rewrite rev_involutive. reflexivity.
  - destruct (str_eqb (rev cell) (lstrip (rev cell))) eqn:E'; [|reflexivity].
    apply str_eqb_eq in E'. rewrite <- E', rev_involutive in E.
    rewrite (proj2 (str_eqb_eq cell cell) eq_refl) in E. discriminate E.
Qed.

Lemma cells_where_ext (p q : str -> bool) (rws : list (list str)) :
  (forall c, p c = q c) -> cells_where p rws = cells_where q rws.
Proof.
  intros H. unfold cells_where. apply flat_map_ext. intros r.
  f_equal. apply filter_ext. intros c. apply H.
Qed.

Lemma enumerate_filter_length {A} (p : A -> bool) (l : list A) :
  forall k,
    List.length (filter (fun c => p (snd c)) (enumerate k l))
    = List.length (filter p l).
Proof.
  induction l as [|x l IH]; intros k; [reflexivity|].
  cbn [enumerate filter snd]. destruct (p x); cbn [List.length];
    rewrite IH; reflexivity.
Qed.

(** [cells_where] has one place for each cell that satisfies the test. *)
Lemma cells_where_length (p : str -> bool) (rws : list (list str)) :
  List.length (cells_where p rws) = List.length (filter p (List.concat rws)).
Proof.
  unfold cells_where. generalize 1 at 2.
  induction rws as [|r rws IH]; intros k; [reflexivity|].
  cbn [enumerate flat_map List.concat fst snd].
  rewrite filter_app, !length_app, length_map, enumerate_filter_length, IH.
  reflexivity.
Qed.

(** [check_whitespace_issues] adds at most two warnings and no error: one
    about leading whitespace exactly when some cell starts with a
    whitespace character, then one about trailing whitespace exactly when
    some cell ends with one.  The number each of them reports is the number
    of such cells of the whole table, the header included, so that a cell
    made of whitespace only is counted by both and an empty cell by
    neither. *)
Theorem whitespace_cells_counted :
  forall (s : State),
    exists leading trailing,
      List.length leading
      = List.length (filter starts_blank (List.concat (rows s)))
      /\ List.length trailing
         = List.length (filter ends_blank (List.concat (rows s)))
      /\ warnings (check_whitespace_issues s)
         = warnings s
           ++ (if is_empty leading then []
               else [whitespace_warning "leading" leading])
           ++ (if is_empty trailing then []
               else [whitespace_warning "trailing" trailing])
      /\ errors (check_whitespace_issues s) = errors s.
Proof.
  intros s.
  exists (cells_where (fun cell => negb (str_eqb cell (lstrip cell))) (rows s)),
         (cells_where (fun cell => negb (str_eqb cell (rstrip cell))) (rows s)).
  split; [|split].
  - rewrite (cells_where_ext _ starts_blank (rows s) differs_from_lstrip).
    apply cells_where_length.
  - rewrite (cells_where_ext _ ends_blank (rows s) differs_from_rstrip).
    apply cells_where_length.
  - unfold check_whitespace_issues. cbv zeta.
    destruct (is_empty (cells_where
                          (fun cell => negb (str_eqb cell (lstrip cell)))
                          (rows s)));
      destruct (is_empty (cells_where
                            (fun cell => negb (str_eqb cell (rstrip cell)))
                            (rows s)));
      cbn [warnings errors add_warning set_warnings app];
      rewrite <- ?app_assoc, ?app_nil_r; split; reflexivity.
Qed.

(** ** A quoted field with a line break *)

Lemma quiet_tests (c : char) :
  quiet c -> (c =? QUOTE)%N = false /\ (c =? LF)%N = false.
Proof.
  intros [Hq Hb]. split; [apply N.eqb_neq; exact Hq|].
  destruct (N.eqb_spec c LF) as [E|E]; [|reflexivity].
  rewrite E in Hb. discriminate Hb.
Qed.

Lemma quiet_no_quote (l : str) : Forall quiet l -> ~ In QUOTE l.
Proof.
  intros H Hin. rewrite Forall_forall in H.
  destruct (H QUOTE Hin) as [Hq _]. apply Hq. reflexivity.
Qed.

Lemma quiet_no_lf (l : str) : Forall quiet l -> ~ In LF l.
Proof.
  intros H Hin. rewrite Forall_forall in H.
  destruct (H LF Hin) as [_ Hb]. discriminate Hb.
Qed.

(** Below the field size limit a character is added to the field. *)
Lemma add_char_below (rd : Csv.Reader) (c : char) :
  (N.of_nat (List.length (Csv.field rd)) < Csv.field_limit)%N ->
  Csv.parse_add_char rd c
  = inl {| Csv.state := Csv.state rd; Csv.field := Csv.field rd ++ [c];
           Csv.fields := Csv.fields rd |}.
Proof.
  intros H. unfold Csv.parse_add_char.
  destruct (N.leb_spec Csv.field_limit (N.of_nat (List.length (Csv.field rd))))
    as [L|_]; [|reflexivity].
  exfalso. apply (N.lt_irrefl Csv.field_limit).
  apply (N.le_lt_trans _ _ _ L H).
Qed.

(** Inside a quoted field every character but the quote is appended to the
    field, the delimiter and the line breaks as well. *)
Lemma feed_in_quoted (dq : Csv.Dialect) (g : str) :
  forall (pre : str) (fs : list str) (rest : str),
    Csv.quotechar dq = QUOTE ->
    ~ In QUOTE g ->
    (N.of_nat (List.length pre + List.length g) <= Csv.field_limit)%N ->
    Csv.feed dq
      {| Csv.state := Csv.IN_QUOTED_FIELD; Csv.field := pre;
         Csv.fields := fs |}
      (g ++ rest)
    = Csv.feed dq
        {| Csv.state := Csv.IN_QUOTED_FIELD; Csv.field := pre ++ g;
           Csv.fields := fs |}
        rest.
Proof.
  induction g as [|c g IH]; intros pre fs rest Hq Hg Hlen.
  - rewrite app_nil_r. reflexivity.
  - assert (Hc : (c =? QUOTE)%N = false).
    { apply N.eqb_neq. intros E. apply Hg. left. exact E. }
    cbn [app Csv.feed]. unfold Csv.parse_process_char.
    cbn [Csv.state]. rewrite Hq, Hc.
    rewrite add_char_below.
    2:{ cbn [Csv.field]. cbn [List.length] in Hlen.
        apply (N.lt_le_trans _ (N.of_nat (List.length pre + S (List.length g))));
          [lia | exact Hlen]. }
    cbn [Csv.state Csv.field Csv.fields].
    rewrite IH; [|exact Hq| |].
    + rewrite <- app_assoc. reflexivity.
    + intros Hin. apply Hg. right. exact Hin.
    + rewrite length_app. cbn [List.length] in *.
      replace (List.length pre + 1 + List.length g)
        with (List.length pre + S (List.length g)) by lia.
      exact Hlen.
Qed.

Lemma records_cons (d : Csv.Dialect) (r : Csv.Reader) (l : str)
  (ls : list str) :
  Csv.records d r (l :: ls)
  = match Csv.feed_line d r l with
    | inr e => ([], Some e)
    | inl r' =>
        if Csv.state_eqb (Csv.state r') Csv.START_RECORD
        then let (rows, e) := Csv.records d Csv.parse_reset ls in
             (Csv.fields r' :: rows, e)
        else Csv.records d r' ls
    end.
Proof. reflexivity. Qed.

(** The line that opens the quoted field leaves the record open. *)
Lemma feed_line_open (D : char) (a : str) :
  ~ In QUOTE a -> (N.of_nat (List.length a) < Csv.field_limit)%N ->
  Csv.feed_line (Csv.excel D) Csv.parse_reset (QUOTE :: a ++ [LF])
  = inl {| Csv.state := Csv.IN_QUOTED_FIELD; Csv.field := a ++ [LF];
           Csv.fields := [] |}.
Proof.
  intros Ha Hlen. unfold Csv.feed_line. cbn [Csv.feed].
  unfold Csv.parse_process_char at 1.
  cbn [Csv.state Csv.parse_reset]. change (Csv.is_newline QUOTE) with false.
  cbv iota. unfold Csv.start_field.
  change (Csv.is_newline QUOTE) with false. cbv iota.
  cbn [Csv.excel Csv.quotechar]. change (QUOTE =? QUOTE)%N with true.
  cbv iota. cbn [Csv.set_state Csv.state Csv.field Csv.fields].
  rewrite <- (app_nil_r (a ++ [LF])) at 1.
  change (Csv.set_state Csv.IN_QUOTED_FIELD
            (Csv.set_state Csv.START_FIELD Csv.parse_reset))
    with {| Csv.state := Csv.IN_QUOTED_FIELD; Csv.field := [];
            Csv.fields := [] |}.
  rewrite (feed_in_quoted (Csv.excel D) (a ++ [LF]) [] [] [] eq_refl).
  - reflexivity.
  - intros Hin. apply in_app_or in Hin.
    destruct Hin as [Hin|[E|[]]]; [exact (Ha Hin) | discriminate E].
  - rewrite length_app. cbn [List.length].
    replace (0 + (List.length a + 1)) with (S (List.length a)) by lia.
    rewrite Nat2N.inj_succ. apply N.le_succ_l. exact Hlen.
Qed.

(** The line with the closing quote ends the field and the record. *)
Lemma feed_line_close (D : char) (pre b : str) :
  D <> LF -> ~ In QUOTE b ->
  (N.of_nat (List.length pre + List.length b) <= Csv.field_limit)%N ->
  Csv.feed_line (Csv.excel D)
    {| Csv.state := Csv.IN_QUOTED_FIELD; Csv.field := pre;
       Csv.fields := [] |}
    (b ++ [QUOTE; LF])
  = inl {| Csv.state := Csv.START_RECORD; Csv.field := [];
           Csv.fields := [pre ++ b] |}.
Proof.
  intros HD Hb Hlen. unfold Csv.feed_line.
  rewrite (feed_in_quoted (Csv.excel D) b pre [] [QUOTE; LF] eq_refl Hb Hlen).
  assert (HLD : (LF =? D)%N = false)
    by (apply N.eqb_neq; intros E; apply HD; symmetry; exact E).
  cbn [Csv.feed]. unfold Csv.parse_process_char.
  cbn [Csv.state Csv.excel Csv.quotechar Csv.doublequote Csv.delimiter
       Csv.set_state Csv.field Csv.fields Csv.parse_save_field].
  change (QUOTE =? QUOTE)%N with true. cbv iota.
  cbn [Csv.state Csv.set_state Csv.field Csv.fields].
  change (LF =? QUOTE)%N with false. cbv iota.
  rewrite HLD. change (Csv.is_newline LF) with true. cbv iota.
  cbn [Csv.state Csv.set_state Csv.field Csv.fields Csv.parse_save_field app].
  reflexivity.
Qed.

(** [csv.reader] reads the two lines as one record of one field. *)
Lemma reader_quoted_break (D : char) (a b : str) :
  D <> LF -> Forall quiet a -> Forall quiet b ->
  (N.of_nat (List.length a + List.length b) < Csv.field_limit)%N ->
  Csv.reader (Csv.excel D) (quoted_break a b) = ([[a ++ LF :: b]], None).
Proof.
  intros HD Ha Hb Hlen. unfold Csv.reader, quoted_break.
  change (QUOTE :: a ++ LF :: b ++ [QUOTE; LF])
    with ((QUOTE :: a) ++ LF :: b ++ [QUOTE; LF]).
  rewrite io_lines_line.
  2:{ intros [E|Hin]; [discriminate E | exact (quiet_no_lf a Ha Hin)]. }
  replace (b ++ [QUOTE; LF]) with ((b ++ [QUOTE]) ++ LF :: [])
    by (rewrite <- app_assoc; reflexivity).
  rewrite io_lines_line.
  2:{ intros Hin. apply in_app_or in Hin.
      destruct Hin as [Hin|[E|[]]];
        [exact (quiet_no_lf b Hb Hin) | discriminate E]. }
  cbn [io_lines app]. rewrite <- app_assoc. cbn [app].
  rewrite records_cons, (feed_line_open D a (quiet_no_quote a Ha)).
  2:{ apply (N.le_lt_trans _ (N.of_nat (List.length a + List.length b)));
        [lia | exact Hlen]. }
  cbn [Csv.state Csv.state_eqb]. cbv iota.
  rewrite records_cons, (feed_line_close D (a ++ [LF]) b HD
                           (quiet_no_quote b Hb)).
  2:{ rewrite length_app. cbn [List.length].
      replace (List.length a + 1 + List.length b)
        with (S (List.length a + List.length b)) by lia.
      rewrite Nat2N.inj_succ. apply N.le_succ_l. exact Hlen. }
  cbn [Csv.state Csv.state_eqb Csv.fields Csv.records Csv.parse_reset
       Csv.field List.length Nat.eqb negb orb].
  rewrite <- app_assoc. reflexivity.
Qed.

Lemma splitlines_line (l rest : str) :
  Forall (fun c => is_linebreak c = false) l ->
  splitlines (l ++ LF :: rest) = (l ++ [LF]) :: splitlines rest.
Proof.
  induction l as [|c l IH]; intros H.
  - cbn [app splitlines]. change (is_linebreak LF) with true. cbv iota.
    destruct rest as [|d r]; reflexivity.
  - inversion H as [|? ? Hc Hl]; subst.
    cbn [app splitlines]. rewrite Hc, (IH Hl). reflexivity.
Qed.

(** The second loop of [check_quoting_issues] only adds warnings. *)
Lemma unescaped_quote_fold (ls : list (nat * str)) :
  forall s, exists W,
    warnings (fold_left unescaped_quote ls s) = warnings s ++ W.
Proof.
  induction ls as [|[n l] ls IH]; intros s; cbn [fold_left].
  - exists []. rewrite app_nil_r. reflexivity.
  - destruct (IH (unescaped_quote s (n, l))) as [W HW]. rewrite HW.
    unfold unescaped_quote.
    destruct (negb (contains_pair QUOTE QUOTE l) && contains QUOTE l);
      [|exists W; reflexivity].
    destruct (filter quote_mid_field (map strip (split COMMA l)))
      as [|stripped ?]; [exists W; reflexivity|].
    cbn [warnings add_warning set_warnings]. rewrite <- app_assoc.
    eexists. reflexivity.
Qed.

(** A field in quotes may hold a line break: when the cell [a], line feed,
    [b] is within the field size limit of [csv.reader] (131072 characters),
    the reader reads the text [quoted_break a b] as one record with that one
    cell, and [parse_csv] records no error.  [check_quoting_issues] works on
    the physical lines instead, each of which has one quote: it warns about
    an odd number of quotes on line 1 and on line 2 before any other
    warning. *)
Theorem quoted_line_break :
  forall (D : char) (a b : str) (s : State),
    detected_dialect s = Some (Csv.excel D) ->
    raw_content s = quoted_break a b ->
    lines s = splitlines (raw_content s) ->
    D <> LF -> Forall quiet a -> Forall quiet b ->
    (N.of_nat (List.length a + 1 + List.length b) <= Csv.field_limit)%N ->
    rows (parse_csv s) = rows s ++ [[a ++ LF :: b]]
    /\ errors (parse_csv s) = errors s
    /\ exists W,
        warnings (check_quoting_issues s)
        = warnings s
          ++ odd_quotes_warning 1 1 :: odd_quotes_warning 1 2 :: W.
Proof.
  intros D a b s Hd Hraw Hlines HD Ha Hb Hcell.
  assert (Hlen : (N.of_nat (List.length a + List.length b)
                  < Csv.field_limit)%N).
  { apply N.le_succ_l. rewrite <- Nat2N.inj_succ.
    replace (S (List.length a + List.length b))
      with (List.length a + 1 + List.length b) by lia.
    exact Hcell. }
  split; [|split].
  - unfold parse_csv, the_dialect. rewrite Hd, Hraw.
    rewrite (reader_quoted_break D a b HD Ha Hb Hlen). reflexivity.
  - unfold parse_csv, the_dialect. rewrite Hd, Hraw.
    rewrite (reader_quoted_break D a b HD Ha Hb Hlen). reflexivity.
  - unfold check_quoting_issues. cbv zeta.
    assert (Hl : lines s = [QUOTE :: a ++ [LF]; b ++ [QUOTE; LF]]).
    { rewrite Hlines, Hraw. unfold quoted_break.
      change (QUOTE :: a ++ LF :: b ++ [QUOTE; LF])
        with ((QUOTE :: a) ++ LF :: b ++ [QUOTE; LF]).
      rewrite splitlines_line.
      2:{ constructor; [reflexivity|].
          apply (Forall_impl _ (fun c H => proj2 H) Ha). }
      replace (b ++ [QUOTE; LF]) with ((b ++ [QUOTE]) ++ LF :: [])
        by (rewrite <- app_assoc; reflexivity).
      rewrite splitlines_line.
      2:{ apply Forall_app. split;
            [apply (Forall_impl _ (fun c H => proj2 H) Hb)|].
          constructor; [reflexivity | constructor]. }
      rewrite <- app_assoc. reflexivity. }
    assert (H1 : count_char QUOTE (QUOTE :: a ++ [LF]) = 1).
    { rewrite count_char_cons, count_char_app.
      rewrite (proj2 (count_char_zero QUOTE a) (quiet_no_quote a Ha)).
      reflexivity. }
    assert (H2 : count_char QUOTE (b ++ [QUOTE; LF]) = 1).
    { rewrite count_char_app.
      rewrite (proj2 (count_char_zero QUOTE b) (quiet_no_quote b Hb)).
      reflexivity. }
    set (s1 := fold_left odd_quotes (enumerate 1 (lines s)) s).
    assert (Hw1 : warnings s1
                  = warnings s
                    ++ [odd_quotes_warning 1 1; odd_quotes_warning 1 2]).
    { subst s1. rewrite Hl. cbn [enumerate fold_left]. unfold odd_quotes.
      rewrite H1, H2. cbn [Nat.modulo Nat.divmod Nat.eqb negb fst snd Nat.sub].
      cbn [warnings add_warning set_warnings]. rewrite <- app_assoc.
      reflexivity. }
    destruct (unescaped_quote_fold (enumerate 1 (lines s1)) s1) as [W HW].
    exists W. rewrite HW, Hw1, <- app_assoc. reflexivity.
Qed.

Lemma quoted_line_break_witness :
  Forall quiet (of_string "a,b")
  /\ Forall quiet (of_string "c")
  /\ rows (parse_csv (detected_state COMMA
                        (quoted_break (of_string "a,b") (of_string "c"))))
     = [[of_string "a,b" ++ LF :: of_string "c"]]
  /\ exists W,
      warnings (check_quoting_issues
                  (detected_state COMMA
                     (quoted_break (of_string "a,b") (of_string "c"))))
      = odd_quotes_warning 1 1 :: odd_quotes_warning 1 2 :: W.
Proof.
  assert (Ha : Forall quiet (of_string "a,b")).
  { repeat constructor; discriminate. }
  assert (Hb : Forall quiet (of_string "c")).
  { repeat constructor; discriminate. }
  split; [exact Ha|]. split; [exact Hb|].
  destruct (quoted_line_break COMMA (of_string "a,b") (of_string "c")
              (detected_state COMMA
                 (quoted_break (of_string "a,b") (of_string "c")))
              eq_refl eq_refl eq_refl) as [Hr [_ Hw]].
  - discriminate.
  - exact Ha.
  - exact Hb.
  - apply N.leb_le. vm_compute. reflexivity.
  - split; [exact Hr | exact Hw].
Defined.

(** ** Cells filed under boolean *)

Lemma lower_char_spelling (c x : char) :
  (x < 192)%N -> lower_char c = x -> In c (spellings_of_char x).
Proof.
  intros Hx E. unfold lower_char, between in E. unfold spellings_of_char, between.
  destruct (N.leb_spec 65 c) as [H1|H1], (N.leb_spec c 90) as [H2|H2];
    cbn [andb] in E.
  - destruct (N.leb_spec 97 x), (N.leb_spec x 122); cbn [andb]; try lia.
    right. left. lia.
  - destruct (N.leb_spec 192 c), (N.leb_spec c 222); cbn [andb] in E;
      try (destruct (c =? 215)%N; cbn [negb] in E); try lia;
      subst x; destruct (N.leb_spec 97 c), (N.leb_spec c 122);
      cbn [andb]; left; reflexivity.
  - destruct (N.leb_spec 192 c), (N.leb_spec c 222); cbn [andb] in E;
      try (destruct (c =? 215)%N; cbn [negb] in E); try lia;
      subst x; destruct (N.leb_spec 97 c), (N.leb_spec c 122);
      cbn [andb]; try lia; left; reflexivity.
  - lia.
Qed.

(** A text that [lower] sends to [w] is one of the spellings of [w]. *)
Lemma lower_spelling (w : str) :
  forall (cell : str),
    Forall (fun x => (x < 192)%N) w -> lower cell = w -> In cell (spellings w).
Proof.
  induction w as [|x w IH]; intros cell Hw E.
  - destruct cell; [left; reflexivity | discriminate E].
  - destruct cell as [|c cell]; [discriminate E|].
    cbn [lower map] in E. injection E as Ec E.
    inversion Hw as [|? ? Hx Hw']; subst.
    cbn [spellings]. apply in_flat_map. exists c.
    split; [apply lower_char_spelling; [exact Hx | reflexivity]|].
    apply in_map. apply IH; [exact Hw' | reflexivity].
Qed.

Lemma str_in_spelling (cell : str) (ws : list str) :
  Forall (Forall (fun x => (x < 192)%N)) ws ->
  str_in (lower cell) ws = true -> In cell (flat_map spellings ws).
Proof.
  intros Hws H. unfold str_in in H. apply existsb_exists in H.
  destruct H as [w [Hin E]]. apply str_eqb_eq in E.
  apply in_flat_map. exists w. split; [exact Hin|].
  rewrite Forall_forall in Hws. apply lower_spelling; [apply Hws; exact Hin|].
  exact E.
Qed.

Lemma boolean_words_low :
  Forall (Forall (fun x => (x < 192)%N))
    (boolean_words ++ [of_string "1"; of_string "0"]).
Proof. repeat constructor. Qed.

Lemma is_boolean_spelling (cell : str) :
  _is_boolean cell = true ->
  In cell (flat_map spellings boolean_words)
  \/ cell = of_string "1" \/ cell = of_string "0".
Proof.
  intros H. unfold _is_boolean, str_in in H.
  apply existsb_exists in H. destruct H as [w [Hin E]].
  assert (Hin' : In w (boolean_words ++ [of_string "1"; of_string "0"])).
  { cbn in Hin. cbn. tauto. }
  apply str_eqb_eq in E.
  pose proof boolean_words_low as Hlow. rewrite Forall_forall in Hlow.
  pose proof (lower_spelling w cell (Hlow w Hin') E) as Hs.
  apply in_app_or in Hin'. destruct Hin' as [Hw|[Hw|[Hw|[]]]].
  - left. apply in_flat_map. exists w. split; assumption.
  - right. left. rewrite <- Hw in Hs.
    change (spellings (of_string "1")) with [of_string "1"] in Hs.
    destruct Hs as [Hs|[]]. symmetry. exact Hs.
  - right. right. rewrite <- Hw in Hs.
    change (spellings (of_string "0")) with [of_string "0"] in Hs.
    destruct Hs as [Hs|[]]. symmetry. exact Hs.
Qed.

Lemma spellings_are_boolean (cell : str) :
  In cell (flat_map spellings boolean_words) ->
  classify cell = "boolean"%string
  /\ str_in (lower cell) boolean_words = true.
Proof.
  intros H.
  assert (E : forallb
                (fun v => String.eqb (classify v) "boolean"
                          && str_in (lower v) boolean_words)
                (flat_map spellings boolean_words) = true)
    by (vm_compute; reflexivity).
  rewrite forallb_forall in E. specialize (E cell H).
  apply andb_true_iff in E. destruct E as [E1 E2].
  apply String.eqb_eq in E1. split; assumption.
Qed.

(** [_is_boolean] accepts ten spellings in any case, but
    [check_data_type_consistency] asks [_is_numeric] first: a stripped cell
    is filed under boolean exactly when it is one of true, false, yes, no,
    y, n, t, f in any case, and the cells that [_is_boolean] accepts and
    that are filed under numeric are exactly 1 and 0. *)
Theorem boolean_cells :
  forall (cell : str),
    (classify cell = "boolean"%string
     <-> str_in (lower cell) boolean_words = true)
    /\ (_is_boolean cell = true /\ classify cell = "numeric"%string
        <-> cell = of_string "1" \/ cell = of_string "0").
Proof.
  intros cell. split; split.
  - intros Hc.
    assert (Hb : _is_boolean cell = true).
    { unfold classify in Hc.
      destruct (is_empty cell); [discriminate Hc|].
      destruct (_is_numeric cell); [discriminate Hc|].
      destruct (_is_date cell); [discriminate Hc|].
      destruct (_is_boolean cell); [reflexivity | discriminate Hc]. }
    destruct (is_boolean_spelling cell Hb) as [H|[H|H]].
    + apply spellings_are_boolean. exact H.
    + subst cell. discriminate Hc.
    + subst cell. discriminate Hc.
  - intros H. apply spellings_are_boolean.
    apply str_in_spelling; [|exact H].
    pose proof boolean_words_low as Hlow.
    apply Forall_app in Hlow. exact (proj1 Hlow).
  - intros [Hb Hc]. destruct (is_boolean_spelling cell Hb) as [H|H];
      [|exact H].
    destruct (spellings_are_boolean cell H) as [E _].
    rewrite E in Hc. discriminate Hc.
  - intros [H|H]; subst cell; split; reflexivity.
Qed.

(** ** Tables with CR LF and LF line endings *)




















(** *** Detection of the delimiter *)









(** *** Tables that [_detect_delimiter] leaves to the sniffer *)










(** *** The reader on such a table, for a dialect with its delimiter *)

Section Dialect.

Variable d : Csv.Dialect.
Hypothesis Hquote : Csv.quotechar d = QUOTE.
Hypothesis HD : Csv.is_newline (Csv.delimiter d) = false.






End Dialect.

(** *** The run on a clean table *)










